(** * Repo-Details: pagination, retry and normalisation of the two collectors

    A shallow embedding of [lfs-details/lfs-repos.py] and
    [Repo-Details/fetch_repo_details.py].

    - [Py] holds the fragment of Python both scripts rely on: parsed JSON
      values with truthiness, subscripting, iteration and [str.join], the
      exception classes that can occur, and a state-and-exception monad in
      which the scripts are written.
    - [LfsRepos] embeds [safe_request], [get_repositories], [get_branches],
      [check_lfs_usage] and [main] of the LFS audit.
    - [FetchRepoDetails] embeds [fetch_data], [write_csv] and the main block
      of the repository summary collector.

    The remote server, the clock and the library routines that are not part
    of the repository (base64/UTF-8 decoding, [repr], [int] on a header
    string) are parameters of the development. Console output and the log
    file are not modelled; HTTP calls, sleeps and the CSV written at the end
    are recorded, in order, in a trace. *)

From Stdlib Require Import ZArith QArith Qround Lqa List String Ascii Bool Lia DecimalString.
From Stdlib Require DecimalPos DecimalZ.
Import ListNotations.

Local Open Scope Z_scope.

(* ================================================================== *)
(** * Python values, exceptions and effects                             *)
(* ================================================================== *)

Module Py.

(** The result of [json.loads]. JSON numbers are integers here: every
    number the two scripts read is an integer count. An object is the
    parsed [dict] in insertion order, its keys pairwise distinct. *)
#[local] Unset Elimination Schemes.
Inductive json : Type :=
| JNull
| JBool (b : bool)
| JNum (n : Z)
| JStr (s : string)
| JArr (items : list json)
| JObj (members : list (string * json)).
#[local] Set Elimination Schemes.

(** Exception classes, as far as the [except] clauses distinguish them.
    [ConnectTimeout] derives from both [ConnectionError] and [Timeout];
    [HTTPError] is what [raise_for_status] raises; [RequestException]
    stands for any other subclass of [requests.RequestException]
    (RetryError, TooManyRedirects, ...). *)
Inductive exn : Type :=
| Timeout
| ConnectTimeout
| ConnectionError
| HTTPError (status : Z)
| RequestException
| JSONDecodeError
| KeyError (key : string)
| TypeError
| ValueError
| OverflowError
| AttributeError
| DecodeError
| OtherException.

Definition is_Timeout (e : exn) : bool :=
  match e with Timeout | ConnectTimeout => true | _ => false end.

Definition is_ConnectionError (e : exn) : bool :=
  match e with ConnectionError | ConnectTimeout => true | _ => false end.

Definition is_RequestException (e : exn) : bool :=
  match e with
  | Timeout | ConnectTimeout | ConnectionError | HTTPError _
  | RequestException | JSONDecodeError => true
  | _ => false
  end.

(** Pure expressions either produce a value or raise. *)
Inductive result (A : Type) : Type :=
| Ok (a : A)
| Error (e : exn).
Arguments Ok {A} a.
Arguments Error {A} e.

Definition rbind {A B} (r : result A) (k : A -> result B) : result B :=
  match r with Ok a => k a | Error e => Error e end.

(** [bool(v)] *)
Definition truthy (v : json) : bool :=
  match v with
  | JNull => false
  | JBool b => b
  | JNum n => negb (n =? 0)
  | JStr s => negb (String.eqb s EmptyString)
  | JArr items => match items with [] => false | _ => true end
  | JObj members => match members with [] => false | _ => true end
  end.

Fixpoint assoc (k : string) (members : list (string * json)) : option json :=
  match members with
  | [] => None
  | (k', v) :: rest => if String.eqb k k' then Some v else assoc k rest
  end.

(** [v[k]] for a string key [k]: only a dict can be subscripted by a
    string; a missing key is a [KeyError], anything else a [TypeError]. *)
Definition getitem (v : json) (k : string) : result json :=
  match v with
  | JObj members =>
      match assoc k members with
      | Some x => Ok x
      | None => Error (KeyError k)
      end
  | _ => Error TypeError
  end.

(** [v.get(k, default)]: a dict method; other values have no [get]. *)
Definition dict_get (v : json) (k : string) (default : json) : result json :=
  match v with
  | JObj members =>
      match assoc k members with
      | Some x => Ok x
      | None => Ok default
      end
  | _ => Error AttributeError
  end.

Definition chars (s : string) : list json :=
  map (fun c => JStr (String c EmptyString)) (list_ascii_of_string s).

(** [iter(v)]: the items of a list, the keys of a dict, the characters of
    a string; nothing else is iterable. *)
Definition py_iter (v : json) : result (list json) :=
  match v with
  | JArr items => Ok items
  | JObj members => Ok (map (fun kv => JStr (fst kv)) members)
  | JStr s => Ok (chars s)
  | _ => Error TypeError
  end.

Fixpoint is_substring (needle hay : string) : bool :=
  if String.prefix needle hay then true
  else match hay with
       | EmptyString => false
       | String _ rest => is_substring needle rest
       end.

Definition is_str (k : string) (v : json) : bool :=
  match v with JStr s => String.eqb s k | _ => false end.

(** [k in v] for a string [k]. *)
Definition py_in (k : string) (v : json) : result bool :=
  match v with
  | JObj members =>
      Ok (match assoc k members with Some _ => true | None => false end)
  | JArr items => Ok (existsb (is_str k) items)
  | JStr s => Ok (is_substring k s)
  | _ => Error TypeError
  end.

(** [sep.join(...)] on strings. *)
Fixpoint join (sep : string) (l : list string) : string :=
  match l with
  | [] => EmptyString
  | [s] => s
  | s :: rest => String.append s (String.append sep (join sep rest))
  end.

Fixpoint all_strings (l : list json) : result (list string) :=
  match l with
  | [] => Ok []
  | JStr s :: rest => rbind (all_strings rest) (fun ss => Ok (s :: ss))
  | _ :: _ => Error TypeError
  end.

(** [sep.join(l)] on a list of values: a [TypeError] unless every item is
    a string. *)
Definition py_join (sep : string) (l : list json) : result string :=
  rbind (all_strings l) (fun ss => Ok (join sep ss)).

(** [str(n)] for an integer. *)
Definition str_int (n : Z) : string := NilZero.string_of_int (Z.to_int n).

(** ** The monad of a running script

    A computation takes the current state, and either returns a value,
    raises an exception, or has used up the iteration budget given to an
    unbounded [while] loop. The state is kept in all three cases: what a
    [try] block did before it raised stays done. *)
Inductive outcome (A : Type) : Type :=
| Ret (a : A)
| Exc (e : exn)
| OutOfFuel.
Arguments Ret {A} a.
Arguments Exc {A} e.
Arguments OutOfFuel {A}.

Definition M (S A : Type) : Type := S -> outcome A * S.

Definition ret {S A} (a : A) : M S A := fun s => (Ret a, s).

Definition raise {S A} (e : exn) : M S A := fun s => (Exc e, s).

Definition out_of_fuel {S A} : M S A := fun s => (OutOfFuel, s).

Definition bind {S A B} (c : M S A) (k : A -> M S B) : M S B :=
  fun s =>
    match c s with
    | (Ret a, s') => k a s'
    | (Exc e, s') => (Exc e, s')
    | (OutOfFuel, s') => (OutOfFuel, s')
    end.

(** [try: c  except ...: handler] *)
Definition try_except {S A} (c : M S A) (handler : exn -> M S A) : M S A :=
  fun s =>
    match c s with
    | (Exc e, s') => handler e s'
    | r => r
    end.

(** A pure expression evaluated inside a script. *)
Definition lift {S A} (r : result A) : M S A :=
  match r with Ok a => ret a | Error e => raise e end.

Definition modify {S} (f : S -> S) : M S unit := fun s => (Ret tt, f s).

(** A computation that never stops for lack of fuel. *)
Definition fuel_free {S A} (c : M S A) : Prop :=
  forall s, fst (c s) <> OutOfFuel.

Definition gets {S A} (f : S -> A) : M S A := fun s => (Ret (f s), s).

End Py.

Import Py.

Declare Scope py_scope.
Delimit Scope py_scope with py.
Notation "x <- c ;; k" := (bind c (fun x => k))
  (at level 61, c at next level, right associativity) : py_scope.
Notation "c ;;; k" := (bind c (fun _ => k))
  (at level 61, right associativity) : py_scope.
Local Open Scope py_scope.

(* ================================================================== *)
(** * lfs-details/lfs-repos.py                                          *)
(* ================================================================== *)

Module LfsRepos.

(** What the script sees of a [requests.Response]: the status code and
    what [response.json()] gives ([None] when the body is not JSON and
    [json()] raises). *)
Record response : Type := mkResponse {
  status_code : Z;
  json_body : option json
}.

(** [Response.raise_for_status] raises [HTTPError] exactly for the client
    and server error codes. *)
Definition is_http_error (status : Z) : bool :=
  (400 <=? status) && (status <? 600).

(** [Response.ok], which is also [bool(response)]: false for 4xx and 5xx. *)
Definition ok (r : response) : bool := negb (is_http_error (status_code r)).

(** [bool(response)] for what [safe_request] returns, [None] included. *)
Definition response_truthy (r : option response) : bool :=
  match r with
  | None => false
  | Some r => ok r
  end.

Inductive event : Type :=
| EvGet (url : string)
| EvSleep (seconds : Z)
| EvWriteCsv (filename : string) (rows : list (json * string * string)).

Section Script.

(** The remote: one [session.get] takes the server from one state to the
    next and yields a response or raises. The lower-level retry adapter
    mounted on the session is part of this step. *)
Variable World : Type.
Variable session_get : string -> World -> result response * World.

(** Configuration read from the environment. *)
Variable GHES_URL : string.
Variable ORG_NAME : string.

(** [repr] of a list or dict, used when one is interpolated in an
    f-string. *)
Variable repr_container : json -> string.

(** [base64.b64decode(s).decode("utf-8")] on a string [s]. *)
Variable b64decode_utf8 : string -> result string.

Record state : Type := mkState {
  world : World;
  trace : list event
}.

Definition emit (e : event) : M state unit :=
  modify (fun s => mkState (world s) (trace s ++ [e])).

(** [time.sleep(n)] *)
Definition sleep (n : Z) : M state unit := emit (EvSleep n).

(** [session.get(url, headers=HEADERS, timeout=30)] *)
Definition get (url : string) : M state response :=
  fun s =>
    let (reply, w) := session_get url (world s) in
    let s' := mkState w (trace s ++ [EvGet url]) in
    match reply with
    | Ok r => (Ret r, s')
    | Error e => (Exc e, s')
    end.

Definition raise_for_status (r : response) : M state unit :=
  if is_http_error (status_code r) then raise (HTTPError (status_code r))
  else ret tt.

(** [response.json()] *)
Definition response_json (r : response) : M state json :=
  match json_body r with
  | Some v => ret v
  | None => raise JSONDecodeError
  end.

(** [f"{v}"] *)
Definition py_str (v : json) : string :=
  match v with
  | JStr s => s
  | JNum n => str_int n
  | JNull => "None"
  | JBool true => "True"
  | JBool false => "False"
  | _ => repr_container v
  end.

(** ** safe_request *)

(** One pass through the body of [for attempt in range(3)]. [Some r]
    means the function returned [r]; [None] means the handler ran and the
    loop goes on. An exception that no [except] clause matches leaves the
    function. *)
Definition attempt (url : string) : M state (option response) :=
  try_except
    (response <- get url ;;
     if status_code response =? 404 then ret (Some response)
     else raise_for_status response ;;;
          ret (Some response))
    (fun e =>
       if is_Timeout e then sleep 5 ;;; ret None
       else if is_ConnectionError e then sleep 5 ;;; ret None
       else if is_RequestException e then sleep 3 ;;; ret None
       else raise e).

Fixpoint safe_request_from (url : string) (attempts : list nat)
  : M state (option response) :=
  match attempts with
  | [] => ret None
  | _ :: rest =>
      r <- attempt url ;;
      match r with
      | Some response => ret (Some response)
      | None => safe_request_from url rest
      end
  end.

Definition safe_request (url : string) : M state (option response) :=
  safe_request_from url (seq 0 3).

(** ** get_repositories *)

Definition repos_url (org : string) (page : Z) : string :=
  (GHES_URL ++ "/orgs/" ++ org ++ "/repos?per_page=100&page=" ++ str_int page)%string.

(** [repos.extend(data)] *)
Definition extend (repos : list json) (data : json) : result (list json) :=
  rbind (py_iter data) (fun items => Ok (repos ++ items)).

(** The two courtesy delays at the end of the loop body. *)
Definition repos_delay (repos : list json) : M state unit :=
  (if Z.of_nat (List.length repos) mod 100 =? 0 then sleep 10 else ret tt) ;;;
  sleep 1.

(** The body of [while True] after the call, given its response; [next]
    is the following pass of the loop. *)
Definition repos_page (next : Z -> list json -> M state (list json))
    (page : Z) (repos : list json) (response : option response)
  : M state (list json) :=
  if negb (response_truthy response) then ret repos
  else
    match response with
    | None => ret repos
    | Some r =>
        data <- response_json r ;;
        if negb (truthy data) then ret repos
        else
          repos' <- lift (extend repos data) ;;
          repos_delay repos' ;;;
          next (page + 1) repos'
    end.

Fixpoint get_repositories_from (fuel : nat) (org : string) (page : Z)
    (repos : list json) : M state (list json) :=
  match fuel with
  | O => out_of_fuel
  | S fuel' =>
      response <- safe_request (repos_url org page) ;;
      repos_page (get_repositories_from fuel' org) page repos response
  end.

Definition get_repositories (fuel : nat) (org : string) : M state (list json) :=
  get_repositories_from fuel org 1 [].

(** ** get_branches *)

Definition branches_url (repo_name : json) (page : Z) : string :=
  (GHES_URL ++ "/repos/" ++ ORG_NAME ++ "/" ++ py_str repo_name
     ++ "/branches?per_page=100&page=" ++ str_int page)%string.

(** [[branch["name"] for branch in items]] *)
Fixpoint names_of (items : list json) : result (list json) :=
  match items with
  | [] => Ok []
  | branch :: rest =>
      rbind (getitem branch "name") (fun n =>
      rbind (names_of rest) (fun ns => Ok (n :: ns)))
  end.

Definition branch_names (data : json) : result (list json) :=
  rbind (py_iter data) names_of.

Definition branches_page (next : Z -> list json -> M state (list json))
    (page : Z) (branches : list json) (response : option response)
  : M state (list json) :=
  if negb (response_truthy response) then ret branches
  else
    match response with
    | None => ret branches
    | Some r =>
        data <- response_json r ;;
        if negb (truthy data) then ret branches
        else
          names <- lift (branch_names data) ;;
          sleep 1 ;;;
          next (page + 1) (branches ++ names)
    end.

Fixpoint get_branches_from (fuel : nat) (repo_name : json) (page : Z)
    (branches : list json) : M state (list json) :=
  match fuel with
  | O => out_of_fuel
  | S fuel' =>
      response <- safe_request (branches_url repo_name page) ;;
      branches_page (get_branches_from fuel' repo_name) page branches response
  end.

Definition get_branches (fuel : nat) (repo_name : json) : M state (list json) :=
  get_branches_from fuel repo_name 1 [].

(** ** check_lfs_usage *)

Definition contents_url (repo_name branch_name : json) : string :=
  (GHES_URL ++ "/repos/" ++ ORG_NAME ++ "/" ++ py_str repo_name
     ++ "/contents/.gitattributes?ref=" ++ py_str branch_name)%string.

(** [base64.b64decode(file_content).decode("utf-8")]: anything but a
    string is rejected by [b64decode] with a [TypeError]. *)
Definition decode_content (file_content : json) : result string :=
  match file_content with
  | JStr s => b64decode_utf8 s
  | _ => Error TypeError
  end.

(** The body of the [try] block: does the decoded file hold the marker? *)
Definition has_marker (r : response) : M state bool :=
  v <- response_json r ;;
  file_content <- lift (dict_get v "content" (JStr "")) ;;
  decoded_content <- lift (decode_content file_content) ;;
  ret (is_substring "filter=lfs" decoded_content).

Definition check_lfs_usage (repo_name branch_name : json) : M state bool :=
  response <- safe_request (contents_url repo_name branch_name) ;;
  if response_truthy response then
    match response with
    | None => ret false
    | Some r =>
        if status_code r =? 404 then ret false
        else if status_code r =? 200 then
          try_except (has_marker r) (fun _ => ret false)
        else ret false
    end
  else ret false.

(** ** main *)

(** The inner loop of [main]: [lfs_used] after
    [for branch in branches: if check_lfs_usage(...): ...; break]. *)
Fixpoint lfs_scan (repo_name : json) (branches : list json) : M state string :=
  match branches with
  | [] => ret "No"%string
  | branch :: rest =>
      used <- check_lfs_usage repo_name branch ;;
      if used then ret "Yes"%string
      else lfs_scan repo_name rest
  end.

Definition row : Type := (json * string * string)%type.

(** Whether [f"{v:<30}"] can be formatted: a width applies to a string,
    an integer or a boolean; [None], a list and a dict have no such
    format and raise [TypeError]. The text itself goes to the console and
    is not kept. *)
Definition format_padded (v : json) : result unit :=
  match v with
  | JStr _ | JNum _ | JBool _ => Ok tt
  | JNull | JArr _ | JObj _ => Error TypeError
  end.

(** The body of [for index, repo in enumerate(repositories, start=1)]:
    the two lookups, the scan, the [print] of line 138 (which formats
    [repo_name] with a width, then joins the branch names), the row, and
    the pause after every hundredth repository. *)
Definition audit (fuel : nat) (index : Z) (repo : json) : M state row :=
  repo_name <- lift (getitem repo "name") ;;
  branches <- get_branches fuel repo_name ;;
  lfs_used <- lfs_scan repo_name branches ;;
  lift (format_padded repo_name) ;;;
  joined <- lift (py_join ", " branches) ;;
  (if index mod 100 =? 0 then sleep 10 else ret tt) ;;;
  ret (repo_name, joined, lfs_used).

Fixpoint audit_all (fuel : nat) (index : Z) (repositories : list json)
    (results : list row) : M state (list row) :=
  match repositories with
  | [] => ret results
  | repo :: rest =>
      r <- audit fuel index repo ;;
      audit_all fuel (index + 1) rest (results ++ [r])
  end.

Definition csv_filename : string := (ORG_NAME ++ "_lfs_usage.csv")%string.

Definition main (fuel : nat) : M state unit :=
  repositories <- get_repositories fuel ORG_NAME ;;
  results <- audit_all fuel 1 repositories [] ;;
  emit (EvWriteCsv csv_filename results).

(** ** Notions used to state the properties *)

(** The state once the remote has moved to [w] and [evs] were recorded. *)
Definition logged (s : state) (w : World) (evs : list event) : state :=
  mkState w (trace s ++ evs).

(** The replies the remote gives to [n] successive GETs of [url]. *)
Fixpoint replies (url : string) (n : nat) (w : World) : list (result response) :=
  match n with
  | O => []
  | S n' => let (r, w') := session_get url w in r :: replies url n' w'
  end.

(** A reply that is a response or an exception of the requests library. *)
Definition request_level (reply : result response) : bool :=
  match reply with
  | Ok _ => true
  | Error e => is_RequestException e
  end.

(** A timeout or a connection error. *)
Definition transient (e : exn) : bool := is_Timeout e || is_ConnectionError e.

(** A status that [raise_for_status] rejects and that is not 404. *)
Definition rejected (status : Z) : bool :=
  is_http_error status && negb (status =? 404).

(** A reply after which the loop goes round again, and the delay before
    the next attempt. *)
Definition retry_delay (reply : result response) : option Z :=
  match reply with
  | Ok r => if rejected (status_code r) then Some 3 else None
  | Error e =>
      if transient e then Some 5
      else if is_RequestException e then Some 3
      else None
  end.

(** [probes_false repo_name branches s s']: probing the branches one after
    the other from [s] answers false each time and ends in [s']. *)
Inductive probes_false (repo_name : json) : list json -> state -> state -> Prop :=
| probes_nil s : probes_false repo_name [] s s
| probes_cons branch rest s s1 s' :
    check_lfs_usage repo_name branch s = (Ret false, s1) ->
    probes_false repo_name rest s1 s' ->
    probes_false repo_name (branch :: rest) s s'.

(** [pages_repos org page repos s page' repos' s']: from [s], the listing
    calls for pages [page .. page' - 1] each brought a non-empty page, and
    the loop stands at [page'] in [s'] with [repos'] accumulated. *)
Inductive pages_repos (org : string)
  : Z -> list json -> state -> Z -> list json -> state -> Prop :=
| pages_repos_nil page repos s : pages_repos org page repos s page repos s
| pages_repos_cons page repos s r s1 data repos1 page' repos' s' :
    safe_request (repos_url org page) s = (Ret (Some r), s1) ->
    ok r = true ->
    json_body r = Some data ->
    truthy data = true ->
    extend repos data = Ok repos1 ->
    pages_repos org (page + 1) repos1 (snd (repos_delay repos1 s1)) page' repos' s' ->
    pages_repos org page repos s page' repos' s'.

(** What the probe answers for a response it was handed: status 200 and
    the marker found in the decoded [content]; a body that is not JSON, a
    payload without [get], or content that does not decode, count as
    "not found". *)
Definition attributes_has_marker (r : response) : bool :=
  (status_code r =? 200) &&
  match json_body r with
  | Some v =>
      match rbind (dict_get v "content" (JStr "")) decode_content with
      | Ok decoded_content => is_substring "filter=lfs" decoded_content
      | Error _ => false
      end
  | None => false
  end.

(** The same for the branch listing of [repo_name]. *)
Inductive pages_branches (repo_name : json)
  : Z -> list json -> state -> Z -> list json -> state -> Prop :=
| pages_branches_nil page branches s :
    pages_branches repo_name page branches s page branches s
| pages_branches_cons page branches s r s1 data names page' branches' s' :
    safe_request (branches_url repo_name page) s = (Ret (Some r), s1) ->
    ok r = true ->
    json_body r = Some data ->
    truthy data = true ->
    branch_names data = Ok names ->
    pages_branches repo_name (page + 1) (branches ++ names) (snd (sleep 1 s1))
      page' branches' s' ->
    pages_branches repo_name page branches s page' branches' s'.

(** ** Listings, page by page *)

(** The courtesy pauses [get_repositories] takes once [repos] are in
    hand. *)
Definition repos_pauses (repos : list json) : list event :=
  (if Z.of_nat (List.length repos) mod 100 =? 0 then [EvSleep 10] else [])
    ++ [EvSleep 1].

(** [listed_repos org page repos s pages page' s']: with [repos] in hand
    and the loop at [page] in [s], the calls for pages [page .. page' - 1]
    each brought a usable response whose body is a non-empty JSON list;
    [pages] holds these lists in the order they came, and the loop then
    stands at [page'] in [s']. *)
Inductive listed_repos (org : string)
  : Z -> list json -> state -> list (list json) -> Z -> state -> Prop :=
| listed_repos_nil page repos s : listed_repos org page repos s [] page s
| listed_repos_cons page repos s r s1 items pages page' s' :
    safe_request
      (GHES_URL ++ "/orgs/" ++ org ++ "/repos?per_page=100&page=" ++ str_int page)
      s = (Ret (Some r), s1) ->
    ok r = true ->
    json_body r = Some (JArr items) ->
    items <> [] ->
    listed_repos org (page + 1) (repos ++ items)
      (logged s1 (world s1) (repos_pauses (repos ++ items))) pages page' s' ->
    listed_repos org page repos s (items :: pages) page' s'.

(** [listed_branches repo_name page s pages page' s']: the same for the
    branch listing; each entry of a page has a [name], and [pages] holds
    the names, page by page, in the order they came. *)
Inductive listed_branches (repo_name : json)
  : Z -> state -> list (list json) -> Z -> state -> Prop :=
| listed_branches_nil page s : listed_branches repo_name page s [] page s
| listed_branches_cons page s r s1 items names pages page' s' :
    safe_request
      (GHES_URL ++ "/repos/" ++ ORG_NAME ++ "/" ++ py_str repo_name
         ++ "/branches?per_page=100&page=" ++ str_int page)
      s = (Ret (Some r), s1) ->
    ok r = true ->
    json_body r = Some (JArr items) ->
    items <> [] ->
    Forall2 (fun item name => getitem item "name" = Ok name) items names ->
    listed_branches repo_name (page + 1) (logged s1 (world s1) [EvSleep 1])
      pages page' s' ->
    listed_branches repo_name page s (names :: pages) page' s'.

(** ** Notions about the trace *)

(** The URLs of the GETs recorded in a stretch of trace, in order. *)
Fixpoint gets_of (evs : list event) : list string :=
  match evs with
  | [] => []
  | EvGet url :: rest => url :: gets_of rest
  | _ :: rest => gets_of rest
  end.

Definition is_write (e : event) : bool :=
  match e with
  | EvWriteCsv _ _ => true
  | _ => false
  end.

(** An event that is not the writing of the results file. *)
Definition quiet (e : event) : Prop := is_write e = false.

(** What one call of [safe_request url] may record. *)
Definition retry_event (url : string) (e : event) : Prop :=
  e = EvGet url \/ e = EvSleep 3 \/ e = EvSleep 5.

(** [emits P c]: whatever happens, [c] only adds to the trace, and only
    events that satisfy [P]. *)
Definition emits {A : Type} (P : event -> Prop) (c : M state A) : Prop :=
  forall s, exists evs, trace (snd (c s)) = trace s ++ evs /\ Forall P evs.

End Script.

Arguments mkState {World} world trace.
Arguments world {World} s.
Arguments trace {World} s.
Arguments logged {World} s w evs.

End LfsRepos.

(* ================================================================== *)
(** * Repo-Details/fetch_repo_details.py                                *)
(* ================================================================== *)

Module FetchRepoDetails.

(** What the script sees of the response to the GraphQL POST: the status,
    the parsed body ([None] when [json()] raises) and the headers. *)
Record response : Type := mkResponse {
  status_code : Z;
  json_body : option json;
  headers_get : string -> option string
}.

(** One row of the output. The projected counts and strings are whatever
    JSON value the remote sent; [repo_size_mb] is the rounded size in
    hundredths of a megabyte. *)
Record repo_summary : Type := mkSummary {
  repo_name : json;
  repo_size_mb : Z;
  visibility : json;
  total_commits : json;
  total_branches : json;
  open_prs : json;
  merged_prs : json;
  closed_prs : json;
  open_issues : json;
  closed_issues : json;
  releases : json;
  tags : json;
  languages : string;
  last_pushed_at : json;
  last_updated_at : json
}.

(** [list(data[0].keys())] *)
Definition fieldnames : list string :=
  ["repo_name"; "repo_size_mb"; "visibility"; "total_commits";
   "total_branches"; "open_prs"; "merged_prs"; "closed_prs"; "open_issues";
   "closed_issues"; "releases"; "tags"; "languages"; "last_pushed_at";
   "last_updated_at"]%string.

Inductive event : Type :=
| EvPost (cursor : json)
| EvSleep (seconds : Q)
| EvWriteCsv (filename : string) (keys : list string) (rows : list repo_summary).

(** ** The normaliser (the body of [for repo in repos]) *)

(** Nearest integer to [num / den], ties to even ([den > 0]). *)
Definition round_half_even (num den : Z) : Z :=
  let q := num / den in
  let r := num mod den in
  if 2 * r <? den then q
  else if den <? 2 * r then q + 1
  else if Z.even q then q else q + 1.

(** The integer with at most 53 significant bits that is nearest to [n],
    ties to even: what [n] becomes when it is turned into a double. Below
    2^53 every integer is its own double. *)
Definition round_to_53_bits (n : Z) : Z :=
  let a := Z.abs n in
  if a <? 2 ^ 53 then n
  else
    let unit := 2 ^ (Z.log2 a - 52) in
    Z.sgn n * (round_half_even a unit * unit).

(** [n / 1024] for an integer [n]: the correctly rounded double, given by
    its numerator over 1024 (dividing a double by a power of two is
    exact); [OverflowError] when the quotient is beyond the largest
    double. *)
Definition true_divide_1024 (n : Z) : result Z :=
  let m := round_to_53_bits n in
  if Z.abs m <? 2 ^ 1034 then Ok m else Error OverflowError.

(** [round(x, 2)] for the double [x = m / 1024], in hundredths: [round]
    rounds the exact value of its argument, ties to even. *)
Definition round_mb (m : Z) : Z := round_half_even (m * 100) 1024.

(** The operand of [/ 1024]: an integer, or a boolean counted as one. *)
Definition as_number (v : json) : result Z :=
  match v with
  | JNum n => Ok n
  | JBool b => Ok (if b then 1 else 0)
  | _ => Error TypeError
  end.

(** [round((repo['diskUsage'] or 0) / 1024, 2)] *)
Definition size_of (repo : json) : result Z :=
  rbind (getitem repo "diskUsage") (fun disk =>
  rbind (if truthy disk then as_number disk else Ok 0) (fun n =>
  rbind (true_divide_1024 n) (fun m =>
  Ok (round_mb m)))).

(** [repo['defaultBranchRef']['target']['history']['totalCount']
     if repo['defaultBranchRef'] else 0] *)
Definition commits_of (repo : json) : result json :=
  rbind (getitem repo "defaultBranchRef") (fun ref =>
  if truthy ref then
    rbind (getitem ref "target") (fun target =>
    rbind (getitem target "history") (fun history =>
    getitem history "totalCount"))
  else Ok (JNum 0)).

(** [repo[key]['totalCount']] *)
Definition count_of (repo : json) (key : string) : result json :=
  rbind (getitem repo key) (fun o => getitem o "totalCount").

(** [[lang['name'] for lang in nodes]] *)
Fixpoint names_of (nodes : list json) : result (list json) :=
  match nodes with
  | [] => Ok []
  | lang :: rest =>
      rbind (getitem lang "name") (fun n =>
      rbind (names_of rest) (fun ns => Ok (n :: ns)))
  end.

(** [", ".join([lang['name'] for lang in repo['languages']['nodes']])
     if repo['languages']['nodes'] else "N/A"] *)
Definition languages_of (repo : json) : result string :=
  rbind (getitem repo "languages") (fun langs =>
  rbind (getitem langs "nodes") (fun nodes =>
  if truthy nodes then
    rbind (py_iter nodes) (fun items =>
    rbind (names_of items) (fun names =>
    py_join ", " names))
  else Ok "N/A"%string)).

Definition normalize (repo : json) : result repo_summary :=
  rbind (languages_of repo) (fun langs =>
  rbind (getitem repo "name") (fun name =>
  rbind (size_of repo) (fun size =>
  rbind (getitem repo "visibility") (fun vis =>
  rbind (commits_of repo) (fun commits =>
  rbind (count_of repo "branches") (fun branches =>
  rbind (count_of repo "pullRequests") (fun open_prs =>
  rbind (count_of repo "mergedPRs") (fun merged =>
  rbind (count_of repo "closedPRs") (fun closed =>
  rbind (count_of repo "issues") (fun issues =>
  rbind (count_of repo "closedIssues") (fun closed_issues =>
  rbind (count_of repo "releases") (fun rels =>
  rbind (count_of repo "tags") (fun tgs =>
  rbind (getitem repo "pushedAt") (fun pushed =>
  rbind (getitem repo "updatedAt") (fun updated =>
  Ok (mkSummary name size vis commits branches open_prs merged closed
        issues closed_issues rels tgs langs pushed updated)))))))))))))))).

(** [json_data['data']['organization']['repositories']] *)
Definition repositories_of (json_data : json) : result json :=
  rbind (getitem json_data "data") (fun d =>
  rbind (getitem d "organization") (fun o =>
  getitem o "repositories")).

(** The longest sleep: 2^63 nanoseconds, in seconds. *)
Definition sleep_max : Q := 9223372036854775808 # 1000000000.

(** [int(x)] for a clock reading: truncation towards zero. *)
Definition int_of_float (x : Q) : Z := Z.quot (Qnum x) (Zpos (Qden x)).

Section Script.

(** The remote: one [requests.post] with the given cursor takes the server
    from one state to the next and yields a response or raises. The clock
    ([time.time()]) is read from the same outside world. *)
Variable World : Type.
Variable requests_post : json -> World -> result response * World.
Variable time_time : World -> Q * World.

Variable ORG_NAME : string.

(** [int(s)] on a header string; fails with [ValueError]. *)
Variable int_of_str : string -> result Z.

(** The outside world, the trace, and the local variables of
    [fetch_data], which a [try] block may have updated before it raises. *)
Record state : Type := mkState {
  world : World;
  trace : list event;
  has_next_page : json;
  cursor : json;
  repo_data : list repo_summary
}.

Definition emit (e : event) : M state unit :=
  modify (fun s =>
    mkState (world s) (trace s ++ [e]) (has_next_page s) (cursor s) (repo_data s)).

Definition set_has_next_page (v : json) : M state unit :=
  modify (fun s => mkState (world s) (trace s) v (cursor s) (repo_data s)).

Definition set_cursor (v : json) : M state unit :=
  modify (fun s => mkState (world s) (trace s) (has_next_page s) v (repo_data s)).

Definition set_repo_data (l : list repo_summary) : M state unit :=
  modify (fun s => mkState (world s) (trace s) (has_next_page s) (cursor s) l).

(** [repo_data.append(r)] *)
Definition append (r : repo_summary) : M state unit :=
  modify (fun s =>
    mkState (world s) (trace s) (has_next_page s) (cursor s) (repo_data s ++ [r])).

(** [requests.post(API_URL, json={'query': query, 'variables':
    {"org": ORG_NAME, "cursor": c}}, headers=headers)] *)
Definition post (c : json) : M state response :=
  fun s =>
    let (reply, w) := requests_post c (world s) in
    let s' := mkState w (trace s ++ [EvPost c]) (has_next_page s) (cursor s)
                (repo_data s) in
    match reply with
    | Ok r => (Ret r, s')
    | Error e => (Exc e, s')
    end.

(** [time.time()] *)
Definition now : M state Q :=
  fun s =>
    let (t, w) := time_time (world s) in
    (Ret t, mkState w (trace s) (has_next_page s) (cursor s) (repo_data s)).

(** [time.sleep(seconds)]: the length is first converted to a count of
    nanoseconds in 64 bits, an [OverflowError] when it does not fit (up to
    the rounding of that conversion); a negative length is then a
    [ValueError]. *)
Definition sleep (seconds : Q) : M state unit :=
  if Qle_bool (- sleep_max) seconds && Qle_bool seconds sleep_max then
    if Qle_bool 0 seconds then emit (EvSleep seconds)
    else raise ValueError
  else raise OverflowError.

Definition response_json (r : response) : M state json :=
  match json_body r with
  | Some v => ret v
  | None => raise JSONDecodeError
  end.

(** [for repo in repos: repo_data.append({...})] *)
Fixpoint normalize_all (repos : list json) : M state unit :=
  match repos with
  | [] => ret tt
  | repo :: rest =>
      r <- lift (normalize repo) ;;
      append r ;;;
      normalize_all rest
  end.

(** [int(response.headers.get('X-RateLimit-Remaining', 1))] *)
Definition remaining_of (r : response) : result Z :=
  match headers_get r "X-RateLimit-Remaining" with
  | Some s => int_of_str s
  | None => Ok 1
  end.

(** [int(response.headers.get('X-RateLimit-Reset', t + 60))], with [t]
    the clock reading taken for the default. *)
Definition reset_of (r : response) (t : Q) : result Z :=
  match headers_get r "X-RateLimit-Reset" with
  | Some s => int_of_str s
  | None => Ok (int_of_float (t + 60))
  end.

(** The block under [# API Rate limiting]. *)
Definition rate_limit (r : response) : M state unit :=
  remaining <- lift (remaining_of r) ;;
  if remaining <? 10 then
    t <- now ;;
    reset_time <- lift (reset_of r t) ;;
    t' <- now ;;
    sleep (inject_Z reset_time - t' + 5)
  else ret tt.

(** The [status_code == 200] branch; [true] means [break]. *)
Definition process_page (r : response) : M state bool :=
  json_data <- response_json r ;;
  has_errors <- lift (py_in "errors" json_data) ;;
  if has_errors then ret true
  else
    repositories <- lift (repositories_of json_data) ;;
    repos <- lift (getitem repositories "nodes") ;;
    page_info <- lift (getitem repositories "pageInfo") ;;
    items <- lift (py_iter repos) ;;
    normalize_all items ;;;
    hnp <- lift (getitem page_info "hasNextPage") ;;
    set_has_next_page hnp ;;;
    c <- lift (getitem page_info "endCursor") ;;
    set_cursor c ;;;
    rate_limit r ;;;
    ret false.

(** One pass through the body of [while has_next_page]; [true] means the
    loop was left by [break]. *)
Definition on_response (response : response) : M state bool :=
  if status_code response =? 200 then process_page response
  else ret true.

Definition iteration : M state bool :=
  try_except
    (c <- gets cursor ;;
     response <- post c ;;
     on_response response)
    (fun _ => ret true).

(** [while has_next_page: ...]; [fuel] bounds the number of passes. *)
Fixpoint while_has_next_page (fuel : nat) : M state unit :=
  hnp <- gets has_next_page ;;
  if truthy hnp then
    match fuel with
    | O => out_of_fuel
    | S fuel' =>
        stop <- iteration ;;
        if stop then ret tt else while_has_next_page fuel'
    end
  else ret tt.

Definition fetch_data (fuel : nat) : M state (list repo_summary) :=
  set_has_next_page (JBool true) ;;;
  set_cursor JNull ;;;
  set_repo_data [] ;;;
  while_has_next_page fuel ;;;
  gets repo_data.

Definition csv_filename : string := (ORG_NAME ++ "_repository_details.csv")%string.

Definition write_csv (data : list repo_summary) : M state unit :=
  let keys := match data with [] => [] | _ :: _ => fieldnames end in
  emit (EvWriteCsv csv_filename keys data).

(** The [__main__] block. *)
Definition main (fuel : nat) : M state unit :=
  repo_details <- fetch_data fuel ;;
  match repo_details with
  | [] => ret tt
  | _ :: _ => write_csv repo_details
  end.

(** ** Notions used to state the properties *)

(** The rows of a list of nodes that all normalise. *)
Fixpoint normalize_list (repos : list json) : result (list repo_summary) :=
  match repos with
  | [] => Ok []
  | repo :: rest =>
      rbind (normalize repo) (fun r =>
      rbind (normalize_list rest) (fun rs => Ok (r :: rs)))
  end.

(** [is_page r rows hnp c]: the response [r] is a page of the listing:
    status 200, a JSON body without an [errors] key, nodes that normalise
    to [rows], and a [pageInfo] with [hasNextPage = hnp] and
    [endCursor = c]. *)
Inductive is_page (r : response) (rows : list repo_summary) (hnp c : json) : Prop :=
| IsPage json_data repositories nodes page_info items :
    status_code r = 200 ->
    json_body r = Some json_data ->
    py_in "errors" json_data = Ok false ->
    repositories_of json_data = Ok repositories ->
    getitem repositories "nodes" = Ok nodes ->
    getitem repositories "pageInfo" = Ok page_info ->
    py_iter nodes = Ok items ->
    normalize_list items = Ok rows ->
    getitem page_info "hasNextPage" = Ok hnp ->
    getitem page_info "endCursor" = Ok c ->
    is_page r rows hnp c.

(** A reply that ends the run before any node of it is read: an
    exception from the POST, a status other than 200, a body that is not
    JSON, or a payload with an [errors] key (or one in which the key
    cannot be looked for). *)
Definition fatal (reply : result response) : bool :=
  match reply with
  | Error _ => true
  | Ok r =>
      if status_code r =? 200 then
        match json_body r with
        | None => true
        | Some json_data =>
            match py_in "errors" json_data with
            | Ok has_errors => has_errors
            | Error _ => true
            end
        end
      else true
  end.

(** The state after the call with the current cursor, the remote now in
    [w]; nothing else has changed. *)
Definition called (s : state) (w : World) : state :=
  mkState w (trace s ++ [EvPost (cursor s)]) (has_next_page s) (cursor s)
    (repo_data s).

(** The state after that call brought a page: its rows appended, the two
    loop variables taken from its [pageInfo]. *)
Definition turned (s : state) (w : World) (rows : list repo_summary)
    (hnp c : json) : state :=
  mkState w (trace s ++ [EvPost (cursor s)]) hnp c (repo_data s ++ rows).

(** The state once the remote (clock included) has moved to [w]. *)
Definition moved (s : state) (w : World) : state :=
  mkState w (trace s) (has_next_page s) (cursor s) (repo_data s).

(** The state after a sleep of [seconds], the remote now in [w]. *)
Definition slept (s : state) (w : World) (seconds : Q) : state :=
  mkState w (trace s ++ [EvSleep seconds]) (has_next_page s) (cursor s)
    (repo_data s).

(** The state in which [fetch_data] enters its loop. *)
Definition started (s : state) : state :=
  mkState (world s) (trace s) (JBool true) JNull [].

(** The state after [write_csv data]. *)
Definition written (s : state) (data : list repo_summary) : state :=
  mkState (world s) (trace s ++ [EvWriteCsv csv_filename fieldnames data])
    (has_next_page s) (cursor s) (repo_data s).

(** [pages_fetched s s']: from [s], zero or more passes of the loop each
    went through without [break], and the loop stands in [s']. *)
Inductive pages_fetched : state -> state -> Prop :=
| pages_fetched_nil s : pages_fetched s s
| pages_fetched_cons s s1 s' :
    truthy (has_next_page s) = true ->
    iteration s = (Ret false, s1) ->
    pages_fetched s1 s' ->
    pages_fetched s s'.

(** ** Notions about the trace and the rows *)

Definition is_sleep (e : event) : bool :=
  match e with
  | EvSleep _ => true
  | _ => false
  end.

(** [grows s s']: from [s] to [s'] rows were only appended and the trace
    was only extended, by sleeps. *)
Definition grows (s s' : state) : Prop :=
  exists more evs,
    repo_data s' = repo_data s ++ more /\
    trace s' = trace s ++ evs /\
    Forall (fun e => is_sleep e = true) evs.

(** The state after a pass that broke off while reading a page: the call
    made, the rows read so far appended, the loop variables untouched. *)
Definition broken_off (s : state) (w : World) (rows : list repo_summary) : state :=
  mkState w (trace s ++ [EvPost (cursor s)]) (has_next_page s) (cursor s)
    (repo_data s ++ rows).

End Script.

(** The keys of the eight counts that are read as [repo[key]['totalCount']]. *)
Definition count_keys : list string :=
  ["branches"; "pullRequests"; "mergedPRs"; "closedPRs"; "issues";
   "closedIssues"; "releases"; "tags"]%string.

(** The endpoint chosen when the module is loaded:
    ["https://api.github.com/graphql" if "github.com" in GITHUB_URL
     else f"{GITHUB_URL}/api/graphql"]. *)
Definition public_endpoint : string := "https://api.github.com/graphql".

Definition API_URL (GITHUB_URL : string) : string :=
  if is_substring "github.com" GITHUB_URL then public_endpoint
  else (GITHUB_URL ++ "/api/graphql")%string.

Arguments mkState {World} world trace has_next_page cursor repo_data.
Arguments world {World} s.
Arguments trace {World} s.
Arguments has_next_page {World} s.
Arguments cursor {World} s.
Arguments repo_data {World} s.

End FetchRepoDetails.

(* ================================================================== *)
(** * A scripted remote, for concrete runs                              *)
(* ================================================================== *)

Module Demo.

(** The remote answers from a script: each call takes the next reply,
    whatever is asked; once the script is used up the connection fails. *)
Definition next_reply {R : Type} (w : list (result R)) : result R * list (result R) :=
  match w with
  | [] => (Error ConnectionError, [])
  | reply :: rest => (reply, rest)
  end.

(** ** For lfs-repos.py *)

Definition session_get (url : string) (w : list (result LfsRepos.response))
  : result LfsRepos.response * list (result LfsRepos.response) :=
  next_reply w.

Definition GHES_URL : string := "https://ghes.example/api/v3".
Definition ORG_NAME : string := "acme".

(** The runs below interpolate strings only. *)
Definition repr_container (v : json) : string := "[...]".

(** Standard Base64 of ASCII text: characters outside the alphabet are
    skipped, the padding has to fit, and a byte above 127 is refused. *)
Definition b64_value (c : ascii) : option N :=
  let n := N_of_ascii c in
  (if (65 <=? n) && (n <=? 90) then Some (n - 65)
   else if (97 <=? n) && (n <=? 122) then Some (n - 71)
   else if (48 <=? n) && (n <=? 57) then Some (n + 4)
   else if n =? 43 then Some 62
   else if n =? 47 then Some 63
   else None)%N.

Fixpoint sextets (s : string) : list N :=
  match s with
  | EmptyString => []
  | String c rest =>
      match b64_value c with
      | Some v => v :: sextets rest
      | None => sextets rest
      end
  end.

Fixpoint padding (s : string) : nat :=
  match s with
  | EmptyString => O
  | String c rest =>
      if Ascii.eqb c "="%char then S (padding rest) else padding rest
  end.

Fixpoint b64_bytes (l : list N) : option (list N) :=
  match l with
  | [] => Some []
  | [_] => None
  | [a; b] => Some [a * 4 + b / 16]%N
  | [a; b; c] => Some [a * 4 + b / 16; (b mod 16) * 16 + c / 4]%N
  | a :: b :: c :: d :: rest =>
      match b64_bytes rest with
      | Some bytes =>
          Some ([a * 4 + b / 16; (b mod 16) * 16 + c / 4; (c mod 4) * 64 + d]%N
                  ++ bytes)
      | None => None
      end
  end.

Fixpoint ascii_text (bytes : list N) : option string :=
  match bytes with
  | [] => Some EmptyString
  | b :: rest =>
      if (b <? 128)%N then
        match ascii_text rest with
        | Some s => Some (String (ascii_of_N b) s)
        | None => None
        end
      else None
  end.

Definition b64decode_utf8 (s : string) : result string :=
  let l := sextets s in
  if Nat.eqb ((List.length l + padding s) mod 4) 0 then
    match b64_bytes l with
    | Some bytes =>
        match ascii_text bytes with
        | Some text => Ok text
        | None => Error DecodeError
        end
    | None => Error DecodeError
    end
  else Error DecodeError.

Definition lfs_world : Type := list (result LfsRepos.response).

Definition lfs_state (w : lfs_world) : LfsRepos.state lfs_world :=
  LfsRepos.mkState w [].

Definition repo : json := JStr "repo".
Definition main_branch : json := JStr "main".
Definition dev_branch : json := JStr "dev".

(** A page of two branches, [main] and [dev]. *)
Definition branch_page : LfsRepos.response :=
  LfsRepos.mkResponse 200
    (Some (JArr [JObj [("name", JStr "main")]; JObj [("name", JStr "dev")]]%string)).

Definition empty_page : LfsRepos.response :=
  LfsRepos.mkResponse 200 (Some (JArr [])).

Definition not_found : LfsRepos.response :=
  LfsRepos.mkResponse 404 (Some (JObj [("message", JStr "Not Found")]%string)).

Definition forbidden : LfsRepos.response :=
  LfsRepos.mkResponse 403 (Some (JObj [("message", JStr "Forbidden")]%string)).

(** A [.gitattributes] that reads
    [*.psd filter=lfs diff=lfs merge=lfs -text]. *)
Definition lfs_attributes : LfsRepos.response :=
  LfsRepos.mkResponse 200
    (Some (JObj [("content",
                  JStr "Ki5wc2QgZmlsdGVyPWxmcyBkaWZmPWxmcyBtZXJnZT1sZnMgLXRleHQK")]%string)).

(** A repository [repo] with branches [main] (no attributes file) and
    [dev] (attributes file with the marker): the replies to the branch
    listing and to the two probes. *)
Definition repo_script : list (result LfsRepos.response) :=
  [Ok branch_page; Ok empty_page; Ok not_found; Ok lfs_attributes].

(** ** For fetch_repo_details.py *)

(** The remote's replies still to come, and a clock that stands still. *)
Definition fetch_world : Type := (list (result FetchRepoDetails.response) * Q)%type.

Definition requests_post (c : json) (w : fetch_world)
  : result FetchRepoDetails.response * fetch_world :=
  let (reply, rest) := next_reply (fst w) in (reply, (rest, snd w)).

Definition time_time (w : fetch_world) : Q * fetch_world := (snd w, w).

(** Decimal numerals only. *)
Definition int_of_str (s : string) : result Z :=
  match NilZero.int_of_string s with
  | Some d => Ok (Z.of_int d)
  | None => Error ValueError
  end.

Definition fetch_state (replies : list (result FetchRepoDetails.response)) (clock : Q)
  : FetchRepoDetails.state fetch_world :=
  FetchRepoDetails.mkState (replies, clock) [] JNull JNull [].

Definition count (n : Z) : json := JObj [("totalCount", JNum n)]%string.

Definition language (name : string) : json := JObj [("name", JStr name)]%string.

(** A repository node as the query returns it. *)
Definition node (name : string) (disk_usage default_branch branches : json)
    (langs : list string) : json :=
  JObj [("name", JStr name);
        ("diskUsage", disk_usage);
        ("visibility", JStr "PRIVATE");
        ("defaultBranchRef", default_branch);
        ("branches", branches);
        ("pullRequests", count 1);
        ("mergedPRs", count 7);
        ("closedPRs", count 2);
        ("issues", count 3);
        ("closedIssues", count 4);
        ("releases", count 0);
        ("tags", count 5);
        ("languages", JObj [("nodes", JArr (map language langs))]);
        ("pushedAt", JStr "2024-05-01T10:00:00Z");
        ("updatedAt", JStr "2024-05-02T11:00:00Z")]%string.

Definition default_branch (commits : Z) : json :=
  JObj [("target", JObj [("history", count commits)])]%string.

(** A repository with 1500 KB, 42 commits, 3 branches, two languages. *)
Definition node_full : json :=
  node "alpha" (JNum 1500) (default_branch 42) (count 3) ["Python"; "Shell"]%string.

(** An empty repository: no size, no default branch, no language. *)
Definition node_empty : json :=
  node "beta" JNull JNull (count 0) [].

(** A node whose [branches] sub-object the remote left out. *)
Definition node_without_branches : json :=
  node "gamma" (JNum 10) JNull JNull [].

Definition page_body (nodes : list json) (has_next : bool) (end_cursor : json) : json :=
  JObj [("data",
         JObj [("organization",
                JObj [("repositories",
                       JObj [("pageInfo",
                              JObj [("hasNextPage", JBool has_next);
                                    ("endCursor", end_cursor)]);
                             ("nodes", JArr nodes)])])])]%string.

Definition no_headers (key : string) : option string := None.

Definition rate_headers (remaining reset : string) (key : string) : option string :=
  if String.eqb key "X-RateLimit-Remaining" then Some remaining
  else if String.eqb key "X-RateLimit-Reset" then Some reset
  else None.

Definition page (headers : string -> option string) (nodes : list json)
    (has_next : bool) (end_cursor : json) : FetchRepoDetails.response :=
  FetchRepoDetails.mkResponse 200 (Some (page_body nodes has_next end_cursor)) headers.

(** A payload with a top-level [errors] key. *)
Definition query_error : FetchRepoDetails.response :=
  FetchRepoDetails.mkResponse 200
    (Some (JObj [("errors", JArr [JObj [("message", JStr "Something went wrong")]])]%string))
    no_headers.

(** Plenty of quota left. *)
Definition relaxed : string -> option string := rate_headers "4000" "1000".

(** Quota nearly used up, to be restored at time 1000. *)
Definition throttled : string -> option string := rate_headers "5" "1000".

(** Two pages, [alpha] then [beta]; the first is sent with the quota
    nearly used up. *)
Definition two_pages : list (result FetchRepoDetails.response) :=
  [Ok (page throttled [node_full] true (JStr "c1"));
   Ok (page relaxed [node_empty] false JNull)].

(** The rows of [alpha] and [beta]. *)
Definition row_alpha : FetchRepoDetails.repo_summary :=
  FetchRepoDetails.mkSummary (JStr "alpha") 146 (JStr "PRIVATE") (JNum 42)
    (JNum 3) (JNum 1) (JNum 7) (JNum 2) (JNum 3) (JNum 4) (JNum 0) (JNum 5)
    "Python, Shell" (JStr "2024-05-01T10:00:00Z") (JStr "2024-05-02T11:00:00Z").

Definition row_beta : FetchRepoDetails.repo_summary :=
  FetchRepoDetails.mkSummary (JStr "beta") 0 (JStr "PRIVATE") (JNum 0)
    (JNum 0) (JNum 1) (JNum 7) (JNum 2) (JNum 3) (JNum 4) (JNum 0) (JNum 5)
    "N/A" (JStr "2024-05-01T10:00:00Z") (JStr "2024-05-02T11:00:00Z").

(** A page, then a query error. *)
Definition page_then_error : list (result FetchRepoDetails.response) :=
  [Ok (page relaxed [node_full] true (JStr "c1")); Ok query_error].

(** ** Further replies, for lfs-repos.py *)

(** A 200 whose body is not JSON. *)
Definition non_json : LfsRepos.response := LfsRepos.mkResponse 200 None.

(** A page of branches whose second entry has no [name]. *)
Definition nameless_page : LfsRepos.response :=
  LfsRepos.mkResponse 200
    (Some (JArr [JObj [("name", JStr "main")]; JObj [("sha", JStr "abc")]]%string)).

(** The listing of an organisation with the one repository [repo]. *)
Definition listed_repo : json := JObj [("name", repo)]%string.

Definition repository_page : LfsRepos.response :=
  LfsRepos.mkResponse 200 (Some (JArr [listed_repo])).

(** ** Further replies, for fetch_repo_details.py *)

(** A page whose second node lacks its [branches]. *)
Definition mixed_page : FetchRepoDetails.response :=
  page relaxed [node_full; node_without_branches; node_empty] true (JStr "c1").


(** A page whose [X-RateLimit-Remaining] is not a number. *)
Definition garbled_page : FetchRepoDetails.response :=
  page (rate_headers "many" "1000") [node_full] true (JStr "c1").

End Demo.

(* ================================================================== *)
(** * Properties of lfs-repos.py                                        *)
(* ================================================================== *)

Module LfsFacts.
Import LfsRepos.

Section Facts.

Variable World : Type.
Variable session_get : string -> World -> result response * World.
Variables GHES_URL ORG_NAME : string.
Variable repr_container : json -> string.
Variable b64decode_utf8 : string -> result string.

Local Abbreviation state := (LfsRepos.state World).
Local Abbreviation attempt := (attempt World session_get).
Local Abbreviation safe_request_from := (safe_request_from World session_get).
Local Abbreviation safe_request := (safe_request World session_get).
Local Abbreviation repos_url := (repos_url GHES_URL).
Local Abbreviation branches_url := (branches_url GHES_URL ORG_NAME repr_container).
Local Abbreviation contents_url := (contents_url GHES_URL ORG_NAME repr_container).
Local Abbreviation repos_page := (repos_page World).
Local Abbreviation branches_page := (branches_page World).
Local Abbreviation repos_delay := (repos_delay World).
Local Abbreviation get_repositories_from := (get_repositories_from World session_get GHES_URL).
Local Abbreviation get_branches_from :=
  (get_branches_from World session_get GHES_URL ORG_NAME repr_container).
Local Abbreviation check_lfs_usage :=
  (check_lfs_usage World session_get GHES_URL ORG_NAME repr_container b64decode_utf8).
Local Abbreviation has_marker := (has_marker World b64decode_utf8).
Local Abbreviation lfs_scan :=
  (lfs_scan World session_get GHES_URL ORG_NAME repr_container b64decode_utf8).
Local Abbreviation probes_false :=
  (probes_false World session_get GHES_URL ORG_NAME repr_container b64decode_utf8).
Local Abbreviation replies := (replies World session_get).

(** ** One attempt *)

(** What a single pass of the retry loop does, by the reply it gets. *)
Lemma attempt_reply url s reply w :
  session_get url (world s) = (reply, w) ->
  attempt url s =
    match reply with
    | Ok r =>
        if status_code r =? 404 then (Ret (Some r), logged s w [EvGet url])
        else if is_http_error (status_code r)
             then (Ret None, logged s w [EvGet url; EvSleep 3])
             else (Ret (Some r), logged s w [EvGet url])
    | Error e =>
        if transient e then (Ret None, logged s w [EvGet url; EvSleep 5])
        else if is_RequestException e
             then (Ret None, logged s w [EvGet url; EvSleep 3])
             else (Exc e, logged s w [EvGet url])
    end.
Proof.
  intros Hget.
  unfold LfsRepos.attempt, try_except, bind, get, logged. rewrite Hget.
  destruct reply as [r | e]; simpl.
  - destruct (status_code r =? 404); [reflexivity |].
    unfold raise_for_status.
    destruct (is_http_error (status_code r)); simpl; [| reflexivity].
    unfold sleep, emit, modify; simpl. rewrite <- app_assoc. reflexivity.
  - unfold transient.
    destruct e; simpl; unfold sleep, emit, modify; simpl;
      rewrite <- ?app_assoc; reflexivity.
Qed.

(** ** safe_request *)

Lemma safe_request_from_cons url a rest s :
  safe_request_from url (a :: rest) s =
    match attempt url s with
    | (Ret (Some r), s1) => (Ret (Some r), s1)
    | (Ret None, s1) => safe_request_from url rest s1
    | (Exc e, s1) => (Exc e, s1)
    | (OutOfFuel, s1) => (OutOfFuel, s1)
    end.
Proof.
  simpl. unfold bind.
  destruct (attempt url s) as [[[r |] | e |] s1]; reflexivity.
Qed.

(** A reply that ends the retry loop at once: a 404 or any status that
    [raise_for_status] lets through. *)
Lemma safe_request_answered url s r w :
  session_get url (world s) = (Ok r, w) ->
  rejected (status_code r) = false ->
  safe_request url s = (Ret (Some r), logged s w [EvGet url]).
Proof.
  intros Hget Hrej.
  unfold LfsRepos.safe_request. simpl seq.
  rewrite safe_request_from_cons, (attempt_reply _ _ _ _ Hget).
  unfold rejected in Hrej.
  destruct (status_code r =? 404); [reflexivity |].
  destruct (is_http_error (status_code r)); [discriminate | reflexivity].
Qed.

Lemma logged_logged (s : state) w1 evs1 w2 evs2 :
  logged (logged s w1 evs1) w2 evs2 = logged s w2 (evs1 ++ evs2).
Proof. unfold logged; simpl. rewrite app_assoc. reflexivity. Qed.

Lemma attempt_retry url s reply w d :
  session_get url (world s) = (reply, w) ->
  retry_delay reply = Some d ->
  attempt url s = (Ret None, logged s w [EvGet url; EvSleep d]).
Proof.
  intros Hget Hd. rewrite (attempt_reply _ _ _ _ Hget).
  unfold retry_delay, rejected in Hd.
  destruct reply as [r | e].
  - destruct (status_code r =? 404).
    + rewrite andb_false_r in Hd. discriminate.
    + rewrite andb_true_r in Hd.
      destruct (is_http_error (status_code r)); congruence.
  - destruct (transient e); [congruence |].
    destruct (is_RequestException e); congruence.
Qed.

(** Three replies in a row that each send the loop round again use up the
    attempts: the result is [None], after three GETs and three delays. *)
Lemma safe_request_gives_up url s reply1 w1 d1 reply2 w2 d2 reply3 w3 d3 :
  session_get url (world s) = (reply1, w1) -> retry_delay reply1 = Some d1 ->
  session_get url w1 = (reply2, w2) -> retry_delay reply2 = Some d2 ->
  session_get url w2 = (reply3, w3) -> retry_delay reply3 = Some d3 ->
  safe_request url s =
    (Ret None, logged s w3 [EvGet url; EvSleep d1; EvGet url; EvSleep d2;
                            EvGet url; EvSleep d3]).
Proof.
  intros G1 D1 G2 D2 G3 D3.
  unfold LfsRepos.safe_request. simpl seq.
  rewrite safe_request_from_cons, (attempt_retry _ _ _ _ _ G1 D1).
  rewrite safe_request_from_cons, (attempt_retry url (logged s w1 _) _ _ _ G2 D2).
  rewrite safe_request_from_cons,
    (attempt_retry url (logged (logged s w1 _) w2 _) _ _ _ G3 D3).
  simpl. rewrite !logged_logged. reflexivity.
Qed.

(** A reply at the level of the requests library either ends the loop
    with a response or sends it round again. *)
Lemma request_level_cases reply :
  request_level reply = true ->
  (exists r, reply = Ok r /\ rejected (status_code r) = false) \/
  (exists d, retry_delay reply = Some d).
Proof.
  destruct reply as [r | e]; simpl; intros H.
  - destruct (rejected (status_code r)) eqn:E; eauto.
  - rewrite H. destruct (transient e); eauto.
Qed.

Lemma safe_request_from_returns url attempts :
  forall s,
    Forall (fun reply => request_level reply = true)
           (replies url (List.length attempts) (world s)) ->
    exists r s', safe_request_from url attempts s = (Ret r, s').
Proof.
  induction attempts as [| a rest IH]; intros s Hall.
  - simpl. unfold ret. eauto.
  - simpl in Hall.
    destruct (session_get url (world s)) as [reply w] eqn:Hget.
    inversion Hall as [| ? ? Hreply Hrest]; subst.
    rewrite safe_request_from_cons.
    destruct (request_level_cases _ Hreply) as [(r & -> & Hrej) | (d & Hd)].
    + rewrite (attempt_reply _ _ _ _ Hget).
      unfold rejected in Hrej.
      destruct (status_code r =? 404); [eauto |].
      destruct (is_http_error (status_code r)); [discriminate | eauto].
    + rewrite (attempt_retry _ _ _ _ _ Hget Hd).
      apply IH. simpl. exact Hrest.
Qed.

(** ** The offset paginators *)

Local Abbreviation pages_repos := (pages_repos World session_get GHES_URL).
Local Abbreviation pages_branches :=
  (pages_branches World session_get GHES_URL ORG_NAME repr_container).

(** The courtesy delays only add sleeps to the trace. *)
Lemma repos_delay_run repos (s : state) :
  repos_delay repos s =
    (Ret tt,
     logged s (world s)
       ((if Z.of_nat (List.length repos) mod 100 =? 0 then [EvSleep 10] else [])
          ++ [EvSleep 1])).
Proof.
  unfold LfsRepos.repos_delay, bind, sleep, emit, modify, logged.
  destruct (Z.of_nat (List.length repos) mod 100 =? 0); simpl.
  - rewrite <- app_assoc. reflexivity.
  - reflexivity.
Qed.

Lemma get_repositories_from_S fuel org page repos s :
  get_repositories_from (S fuel) org page repos s =
    bind (safe_request (repos_url org page))
         (repos_page (get_repositories_from fuel org) page repos) s.
Proof. reflexivity. Qed.

Lemma get_branches_from_S fuel repo_name page branches s :
  get_branches_from (S fuel) repo_name page branches s =
    bind (safe_request (branches_url repo_name page))
         (branches_page (get_branches_from fuel repo_name) page branches) s.
Proof. reflexivity. Qed.

(** A falsy response ([None], or a 404 that [safe_request] handed back)
    ends the listing with what was accumulated. *)
Lemma repos_page_falsy next page repos response (s : state) :
  response_truthy response = false ->
  repos_page next page repos response s = (Ret repos, s).
Proof. intros H. unfold LfsRepos.repos_page. rewrite H. reflexivity. Qed.

Lemma branches_page_falsy next page branches response (s : state) :
  response_truthy response = false ->
  branches_page next page branches response s = (Ret branches, s).
Proof. intros H. unfold LfsRepos.branches_page. rewrite H. reflexivity. Qed.

Lemma repos_page_empty next page repos r data (s : state) :
  ok r = true -> json_body r = Some data -> truthy data = false ->
  repos_page next page repos (Some r) s = (Ret repos, s).
Proof.
  intros Hok Hbody Hdata.
  unfold LfsRepos.repos_page, bind, response_json; simpl.
  rewrite Hok, Hbody; simpl. rewrite Hdata. reflexivity.
Qed.

Lemma branches_page_empty next page branches r data (s : state) :
  ok r = true -> json_body r = Some data -> truthy data = false ->
  branches_page next page branches (Some r) s = (Ret branches, s).
Proof.
  intros Hok Hbody Hdata.
  unfold LfsRepos.branches_page, bind, response_json; simpl.
  rewrite Hok, Hbody; simpl. rewrite Hdata. reflexivity.
Qed.

Lemma repos_page_more next page repos r data repos1 (s : state) :
  ok r = true -> json_body r = Some data -> truthy data = true ->
  extend repos data = Ok repos1 ->
  repos_page next page repos (Some r) s =
    next (page + 1) repos1 (snd (repos_delay repos1 s)).
Proof.
  intros Hok Hbody Hdata Hext.
  unfold LfsRepos.repos_page, response_json; simpl.
  rewrite Hok, Hbody; simpl. unfold bind at 1; simpl.
  rewrite Hdata, Hext; simpl.
  unfold bind at 1; simpl. unfold bind at 1.
  rewrite repos_delay_run. reflexivity.
Qed.

Lemma branches_page_more next page branches r data names (s : state) :
  ok r = true -> json_body r = Some data -> truthy data = true ->
  branch_names data = Ok names ->
  branches_page next page branches (Some r) s =
    next (page + 1) (branches ++ names) (snd (sleep World 1 s)).
Proof.
  intros Hok Hbody Hdata Hnames.
  unfold LfsRepos.branches_page, response_json; simpl.
  rewrite Hok, Hbody; simpl. unfold bind at 1; simpl.
  rewrite Hdata, Hnames; simpl.
  unfold bind at 1; simpl. reflexivity.
Qed.

Lemma pages_repos_run org page repos s page' repos' s' :
  pages_repos org page repos s page' repos' s' ->
  exists n, forall fuel,
    get_repositories_from (n + fuel) org page repos s =
    get_repositories_from fuel org page' repos' s'.
Proof.
  induction 1 as [| page repos s r s1 data repos1 page' repos' s'
                    Hcall Hok Hbody Hdata Hext _ [n IH]].
  - exists O. reflexivity.
  - exists (S n). intros fuel.
    change (S n + fuel)%nat with (S (n + fuel)).
    rewrite get_repositories_from_S. unfold bind at 1. rewrite Hcall.
    rewrite (repos_page_more _ _ _ _ _ _ _ Hok Hbody Hdata Hext).
    apply IH.
Qed.

Lemma pages_branches_run repo_name page branches s page' branches' s' :
  pages_branches repo_name page branches s page' branches' s' ->
  exists n, forall fuel,
    get_branches_from (n + fuel) repo_name page branches s =
    get_branches_from fuel repo_name page' branches' s'.
Proof.
  induction 1 as [| page branches s r s1 data names page' branches' s'
                    Hcall Hok Hbody Hdata Hnames _ [n IH]].
  - exists O. reflexivity.
  - exists (S n). intros fuel.
    change (S n + fuel)%nat with (S (n + fuel)).
    rewrite get_branches_from_S. unfold bind at 1. rewrite Hcall.
    rewrite (branches_page_more _ _ _ _ _ _ _ Hok Hbody Hdata Hnames).
    apply IH.
Qed.

(** Fuel beyond what a run needs does not change it. *)
Lemma enough_fuel {A} (run : nat -> A) (n : nat) (x : A) :
  (forall fuel, run (n + S fuel)%nat = x) ->
  forall fuel, (n < fuel)%nat -> run fuel = x.
Proof.
  intros H fuel Hlt.
  replace fuel with (n + S (fuel - S n))%nat by lia. apply H.
Qed.

(** A listing whose pages come in one after the other and then end with
    an empty page is fetched to the end, given enough fuel. *)
Lemma get_repositories_exhausts org page repos s page' repos' s' r s'' data :
  pages_repos org page repos s page' repos' s' ->
  safe_request (repos_url org page') s' = (Ret (Some r), s'') ->
  ok r = true -> json_body r = Some data -> truthy data = false ->
  exists n, forall fuel, (n < fuel)%nat ->
    get_repositories_from fuel org page repos s = (Ret repos', s'').
Proof.
  intros Hpages Hcall Hok Hbody Hdata.
  destruct (pages_repos_run _ _ _ _ _ _ _ Hpages) as [n Hn].
  exists n. apply enough_fuel. intros fuel. rewrite Hn.
  rewrite get_repositories_from_S. unfold bind. rewrite Hcall.
  apply (repos_page_empty _ _ _ _ _ _ Hok Hbody Hdata).
Qed.

Lemma get_branches_exhausts repo_name page branches s page' branches' s' r s'' data :
  pages_branches repo_name page branches s page' branches' s' ->
  safe_request (branches_url repo_name page') s' = (Ret (Some r), s'') ->
  ok r = true -> json_body r = Some data -> truthy data = false ->
  exists n, forall fuel, (n < fuel)%nat ->
    get_branches_from fuel repo_name page branches s = (Ret branches', s'').
Proof.
  intros Hpages Hcall Hok Hbody Hdata.
  destruct (pages_branches_run _ _ _ _ _ _ _ Hpages) as [n Hn].
  exists n. apply enough_fuel. intros fuel. rewrite Hn.
  rewrite get_branches_from_S. unfold bind. rewrite Hcall.
  apply (branches_page_empty _ _ _ _ _ _ Hok Hbody Hdata).
Qed.

(** ** check_lfs_usage *)

Lemma has_marker_run r (s : state) :
  has_marker r s =
    (match json_body r with
     | Some v =>
         match rbind (dict_get v "content" (JStr "")) (decode_content b64decode_utf8) with
         | Ok decoded_content => Ret (is_substring "filter=lfs" decoded_content)
         | Error e => Exc e
         end
     | None => Exc JSONDecodeError
     end, s).
Proof.
  unfold LfsRepos.has_marker, bind, response_json.
  destruct (json_body r) as [v |]; simpl; [| reflexivity].
  destruct (dict_get v "content" (JStr "")) as [c | e]; simpl; [| reflexivity].
  destruct (decode_content b64decode_utf8 c); reflexivity.
Qed.

(** The probe makes one call to [safe_request] and answers from its
    result alone. *)
Lemma check_lfs_usage_run repo_name branch s :
  check_lfs_usage repo_name branch s =
    match safe_request (contents_url repo_name branch) s with
    | (Ret (Some r), s1) => (Ret (attributes_has_marker b64decode_utf8 r), s1)
    | (Ret None, s1) => (Ret false, s1)
    | (Exc e, s1) => (Exc e, s1)
    | (OutOfFuel, s1) => (OutOfFuel, s1)
    end.
Proof.
  unfold LfsRepos.check_lfs_usage, bind.
  destruct (safe_request (contents_url repo_name branch) s)
    as [[[r |] | e |] s1]; try reflexivity.
  unfold attributes_has_marker, response_truthy, ok, is_http_error.
  destruct (status_code r =? 200) eqn:E200.
  - apply Z.eqb_eq in E200. rewrite E200. simpl.
    unfold try_except. rewrite has_marker_run.
    destruct (json_body r) as [v |]; [| reflexivity].
    destruct (rbind _ _); reflexivity.
  - simpl.
    destruct (negb _); [| reflexivity].
    destruct (status_code r =? 404); reflexivity.
Qed.

(** ** The scan over the branches of one repository *)

Local Abbreviation audit :=
  (audit World session_get GHES_URL ORG_NAME repr_container b64decode_utf8).
Local Abbreviation get_branches :=
  (get_branches World session_get GHES_URL ORG_NAME repr_container).

Lemma lfs_scan_cons repo_name branch rest s :
  lfs_scan repo_name (branch :: rest) s =
    match check_lfs_usage repo_name branch s with
    | (Ret true, s1) => (Ret "Yes"%string, s1)
    | (Ret false, s1) => lfs_scan repo_name rest s1
    | (Exc e, s1) => (Exc e, s1)
    | (OutOfFuel, s1) => (OutOfFuel, s1)
    end.
Proof.
  simpl. unfold bind.
  destruct (check_lfs_usage repo_name branch s) as [[[|] | e |] s1]; reflexivity.
Qed.

Lemma lfs_scan_yes_no repo_name branches :
  forall s v s', lfs_scan repo_name branches s = (Ret v, s') ->
    v = "Yes"%string \/ v = "No"%string.
Proof.
  induction branches as [| b rest IH]; intros s v s' H.
  - inversion H. auto.
  - rewrite lfs_scan_cons in H.
    destruct (check_lfs_usage repo_name b s) as [[[|] | e |] s1];
      try discriminate.
    + inversion H. auto.
    + eauto.
Qed.

Lemma lfs_scan_no_iff repo_name branches :
  forall s s',
    lfs_scan repo_name branches s = (Ret "No"%string, s') <->
    probes_false repo_name branches s s'.
Proof.
  induction branches as [| b rest IH]; intros s s'; split; intros H.
  - inversion H. constructor.
  - inversion H. reflexivity.
  - rewrite lfs_scan_cons in H.
    destruct (check_lfs_usage repo_name b s) as [[[|] | e |] s1] eqn:E;
      try discriminate.
    econstructor; [exact E | apply IH; exact H].
  - inversion H as [| ? ? ? s1 ? Hb Hrest]; subst.
    rewrite lfs_scan_cons, Hb. apply IH. exact Hrest.
Qed.

Lemma lfs_scan_yes_iff repo_name branches :
  forall s s',
    lfs_scan repo_name branches s = (Ret "Yes"%string, s') <->
    exists pre branch post s1,
      branches = pre ++ branch :: post /\
      probes_false repo_name pre s s1 /\
      check_lfs_usage repo_name branch s1 = (Ret true, s').
Proof.
  induction branches as [| b rest IH]; intros s s'; split.
  - intros H. inversion H.
  - intros (pre & br & post & s1 & Heq & _).
    destruct pre; discriminate.
  - intros H. rewrite lfs_scan_cons in H.
    destruct (check_lfs_usage repo_name b s) as [[[|] | e |] s1] eqn:E;
      try discriminate.
    + inversion H; subst.
      exists [], b, rest, s. repeat split; [constructor | exact E].
    + apply IH in H. destruct H as (pre & br & post & s2 & -> & Hpre & Hbr).
      exists (b :: pre), br, post, s2.
      repeat split; [econstructor; eassumption | exact Hbr].
  - intros (pre & br & post & s1 & Heq & Hpre & Hbr).
    rewrite lfs_scan_cons.
    destruct pre as [| p pre].
    + simpl in Heq. inversion Heq; subst.
      inversion Hpre; subst. rewrite Hbr. reflexivity.
    + simpl in Heq. inversion Heq; subst.
      inversion Hpre as [| ? ? ? s2 ? Hp Hrest]; subst.
      rewrite Hp. apply IH. eauto 8.
Qed.

(** The row [main] appends for one repository whose name can be
    printed. *)
Lemma audit_run fuel index repo repo_name branches used joined s s1 s2 :
  getitem repo "name" = Ok repo_name ->
  get_branches fuel repo_name s = (Ret branches, s1) ->
  lfs_scan repo_name branches s1 = (Ret used, s2) ->
  format_padded repo_name = Ok tt ->
  py_join ", " branches = Ok joined ->
  audit fuel index repo s =
    (Ret (repo_name, joined, used),
     if index mod 100 =? 0 then logged s2 (world s2) [EvSleep 10] else s2).
Proof.
  intros Hname Hbr Hscan Hfmt Hjoin.
  unfold LfsRepos.audit. rewrite Hname.
  unfold lift, ret, bind; cbv beta iota.
  rewrite Hbr, Hscan, Hfmt, Hjoin.
  destruct (index mod 100 =? 0); reflexivity.
Qed.

(** A name that cannot be printed with a width ends the pass with a
    [TypeError], after the listing and the scan and before any row. *)
Lemma audit_unprintable fuel index repo repo_name branches used e s s1 s2 :
  getitem repo "name" = Ok repo_name ->
  get_branches fuel repo_name s = (Ret branches, s1) ->
  lfs_scan repo_name branches s1 = (Ret used, s2) ->
  format_padded repo_name = Error e ->
  audit fuel index repo s = (Exc e, s2).
Proof.
  intros Hname Hbr Hscan Hfmt.
  unfold LfsRepos.audit. rewrite Hname.
  unfold lift, ret, raise, bind; cbv beta iota.
  rewrite Hbr, Hscan, Hfmt. reflexivity.
Qed.

(** ** URLs *)

Lemma append_inj_l (a b c : string) : (a ++ b = a ++ c)%string -> b = c.
Proof.
  induction a as [| ch a IH]; simpl; intros H; [exact H |].
  inversion H. apply IH. assumption.
Qed.

(** Different integers are written differently. *)
Lemma str_int_inj p q : str_int p = str_int q -> p = q.
Proof.
  clear. unfold str_int. intros H.
  assert (Hparse : forall z,
             NilZero.int_of_string (NilZero.string_of_int (Z.to_int z))
             = Some (Z.to_int z)).
  { intros z. apply NilZero.isi; destruct z as [| x | x]; simpl;
      try discriminate; intros E; inversion E as [E'];
      exact (DecimalPos.Unsigned.to_uint_nonnil x E'). }
  apply DecimalZ.to_int_inj.
  pose proof (Hparse p) as Hp. rewrite H, Hparse in Hp.
  inversion Hp. reflexivity.
Qed.

(** ** Listings, page by page *)

Local Abbreviation py_str := (py_str repr_container).
Local Abbreviation listed_repos := (listed_repos World session_get GHES_URL).
Local Abbreviation listed_branches :=
  (listed_branches World session_get GHES_URL ORG_NAME repr_container).

Lemma names_of_Forall2 items names :
  Forall2 (fun item name => getitem item "name" = Ok name) items names ->
  names_of items = Ok names.
Proof.
  induction 1 as [| item name items names Hitem _ IH]; simpl.
  - reflexivity.
  - rewrite Hitem. simpl. rewrite IH. reflexivity.
Qed.

Lemma listed_repos_run org page repos s pages page' s' :
  listed_repos org page repos s pages page' s' ->
  forall fuel,
    get_repositories_from (List.length pages + fuel) org page repos s =
    get_repositories_from fuel org page' (repos ++ List.concat pages) s'.
Proof.
  induction 1 as [page repos s
                 | page repos s r s1 items pages page' s' Hcall Hok Hbody Hne _ IH];
    intros fuel.
  - simpl. rewrite app_nil_r. reflexivity.
  - change (List.length (items :: pages) + fuel)%nat
      with (S (List.length pages + fuel)).
    change (safe_request (repos_url org page) s = (Ret (Some r), s1)) in Hcall.
    rewrite get_repositories_from_S. unfold bind at 1. rewrite Hcall.
    rewrite (repos_page_more _ _ _ _ _ (repos ++ items) _ Hok Hbody).
    + rewrite repos_delay_run. simpl snd.
      change (logged s1 (world s1) _)
        with (logged s1 (world s1) (repos_pauses (repos ++ items))).
      rewrite IH. simpl List.concat. rewrite app_assoc. reflexivity.
    + destruct items; [contradiction | reflexivity].
    + reflexivity.
Qed.

Lemma listed_branches_run repo_name page s pages page' s' :
  listed_branches repo_name page s pages page' s' ->
  forall branches fuel,
    get_branches_from (List.length pages + fuel) repo_name page branches s =
    get_branches_from fuel repo_name page' (branches ++ List.concat pages) s'.
Proof.
  induction 1 as [page s
                 | page s r s1 items names pages page' s'
                     Hcall Hok Hbody Hne Hnames _ IH];
    intros branches fuel.
  - simpl. rewrite app_nil_r. reflexivity.
  - change (List.length (names :: pages) + fuel)%nat
      with (S (List.length pages + fuel)).
    change (safe_request (branches_url repo_name page) s = (Ret (Some r), s1))
      in Hcall.
    rewrite get_branches_from_S. unfold bind at 1. rewrite Hcall.
    rewrite (branches_page_more _ _ _ _ _ names _ Hok Hbody).
    + change (snd (sleep World 1 s1)) with (logged s1 (world s1) [EvSleep 1]).
      rewrite IH. simpl List.concat. rewrite app_assoc. reflexivity.
    + destruct items; [contradiction | reflexivity].
    + exact (names_of_Forall2 _ _ Hnames).
Qed.

(** ** The claims about lfs-repos.py *)

(** C2, amended. Offset pagination, one page at a time, for
    [get_repositories] and [get_branches] alike. Let the GET of the listing
    URL for page [page] hand back a usable response whose JSON body is the
    page [items]. If the page is empty the loop ends there and returns
    what was accumulated, and nothing more happens. If it is not empty,
    and for [get_branches] provided every entry of the page has a [name],
    the entries (their names) are accumulated, the courtesy delays are
    taken, and the run goes on with exactly one call of [safe_request],
    for the same listing URL with page [page + 1], whose response is then
    treated the same way. The URLs of different pages differ. *)
Theorem offset_pagination_step fuel page s r s1 items :
  ok r = true ->
  json_body r = Some (JArr items) ->
  (forall org repos,
      safe_request
        (GHES_URL ++ "/orgs/" ++ org ++ "/repos?per_page=100&page="
           ++ str_int page) s = (Ret (Some r), s1) ->
      (items = [] ->
       get_repositories_from (S fuel) org page repos s = (Ret repos, s1)) /\
      (items <> [] ->
       get_repositories_from (S (S fuel)) org page repos s =
         bind (safe_request
                 (GHES_URL ++ "/orgs/" ++ org ++ "/repos?per_page=100&page="
                    ++ str_int (page + 1)))
              (repos_page (get_repositories_from fuel org) (page + 1)
                          (repos ++ items))
              (logged s1 (world s1)
                 ((if Z.of_nat (List.length (repos ++ items)) mod 100 =? 0
                   then [EvSleep 10] else []) ++ [EvSleep 1])))) /\
  (forall repo_name branches,
      safe_request
        (GHES_URL ++ "/repos/" ++ ORG_NAME ++ "/" ++ py_str repo_name
           ++ "/branches?per_page=100&page=" ++ str_int page) s
        = (Ret (Some r), s1) ->
      (items = [] ->
       get_branches_from (S fuel) repo_name page branches s = (Ret branches, s1)) /\
      (forall names,
          items <> [] ->
          Forall2 (fun item name => getitem item "name" = Ok name) items names ->
          get_branches_from (S (S fuel)) repo_name page branches s =
            bind (safe_request
                    (GHES_URL ++ "/repos/" ++ ORG_NAME ++ "/" ++ py_str repo_name
                       ++ "/branches?per_page=100&page=" ++ str_int (page + 1)))
                 (branches_page (get_branches_from fuel repo_name) (page + 1)
                                (branches ++ names))
                 (logged s1 (world s1) [EvSleep 1]))) /\
  (forall org repo_name q,
      (repos_url org page = repos_url org q -> page = q) /\
      (branches_url repo_name page = branches_url repo_name q -> page = q)).
Proof.
  intros Hok Hbody. split; [| split].
  - intros org repos Hcall.
    change (safe_request (repos_url org page) s = (Ret (Some r), s1)) in Hcall.
    split.
    + intros ->. rewrite get_repositories_from_S. unfold bind. rewrite Hcall.
      apply (repos_page_empty _ _ _ _ _ _ Hok Hbody). reflexivity.
    + intros Hne. rewrite get_repositories_from_S. unfold bind at 1.
      rewrite Hcall.
      rewrite (repos_page_more _ _ _ _ _ (repos ++ items) _ Hok Hbody).
      * rewrite get_repositories_from_S, repos_delay_run. reflexivity.
      * destruct items; [contradiction | reflexivity].
      * reflexivity.
  - intros repo_name branches Hcall.
    change (safe_request (branches_url repo_name page) s = (Ret (Some r), s1))
      in Hcall.
    split.
    + intros ->. rewrite get_branches_from_S. unfold bind. rewrite Hcall.
      apply (branches_page_empty _ _ _ _ _ _ Hok Hbody). reflexivity.
    + intros names Hne Hnames. rewrite get_branches_from_S. unfold bind at 1.
      rewrite Hcall.
      rewrite (branches_page_more _ _ _ _ _ names _ Hok Hbody).
      * rewrite get_branches_from_S. reflexivity.
      * destruct items; [contradiction | reflexivity].
      * exact (names_of_Forall2 _ _ Hnames).
  - intros org repo_name q. split; intros H; apply str_int_inj.
    + unfold LfsRepos.repos_url in H.
      do 4 apply append_inj_l in H. exact H.
    + unfold LfsRepos.branches_url in H.
      do 6 apply append_inj_l in H. exact H.
Qed.

(** C3. The audit of one repository. The probe of a branch makes one
    call, for the [.gitattributes] of the repository at that branch, and
    answers true exactly when it is handed a response with status 200
    whose decoded content holds ["filter=lfs"]. The scan answers "Yes"
    exactly when the branches split into a prefix whose probes all answer
    false, one branch whose probe answers true, and a rest that is never
    probed (the run ends in the state the true probe left); it answers
    "No" exactly when every probe, taken in list order, answers false; it
    answers nothing else. [main] scans the list that [get_branches]
    returned, as returned, and, for a repository whose name can be printed
    in the progress line (a string, a number or a boolean), puts the
    answer in the row; a name that cannot (null, a list or an object) ends
    the pass with a [TypeError] and gives no row. *)
Theorem lfs_audit_result repo_name branches s :
  (forall branch s0,
      check_lfs_usage repo_name branch s0 =
        match safe_request
                (GHES_URL ++ "/repos/" ++ ORG_NAME ++ "/" ++ py_str repo_name
                   ++ "/contents/.gitattributes?ref=" ++ py_str branch) s0 with
        | (Ret (Some r), s1) => (Ret (attributes_has_marker b64decode_utf8 r), s1)
        | (Ret None, s1) => (Ret false, s1)
        | (Exc e, s1) => (Exc e, s1)
        | (OutOfFuel, s1) => (OutOfFuel, s1)
        end) /\
  (forall s',
      lfs_scan repo_name branches s = (Ret "Yes"%string, s') <->
      exists pre branch post s1,
        branches = pre ++ branch :: post /\
        probes_false repo_name pre s s1 /\
        check_lfs_usage repo_name branch s1 = (Ret true, s')) /\
  (forall s',
      lfs_scan repo_name branches s = (Ret "No"%string, s') <->
      probes_false repo_name branches s s') /\
  (forall v s',
      lfs_scan repo_name branches s = (Ret v, s') ->
      v = "Yes"%string \/ v = "No"%string) /\
  (forall fuel index repo s0 s1 used,
      getitem repo "name" = Ok repo_name ->
      get_branches fuel repo_name s0 = (Ret branches, s) ->
      lfs_scan repo_name branches s = (Ret used, s1) ->
      match repo_name with
      | JStr _ | JNum _ | JBool _ =>
          forall joined,
            py_join ", " branches = Ok joined ->
            audit fuel index repo s0 =
              (Ret (repo_name, joined, used),
               if index mod 100 =? 0 then logged s1 (world s1) [EvSleep 10]
               else s1)
      | JNull | JArr _ | JObj _ =>
          audit fuel index repo s0 = (Exc TypeError, s1)
      end).
Proof.
  split; [intros; apply check_lfs_usage_run |].
  split; [intros; apply lfs_scan_yes_iff |].
  split; [intros; apply lfs_scan_no_iff |].
  split; [intros v s'; apply lfs_scan_yes_no |].
  intros fuel index repo s0 s1 used Hname Hbr Hscan.
  destruct repo_name as [| b | n | name | items | fields];
    try (intros joined Hjoin; eapply audit_run; try eassumption; reflexivity);
    eapply audit_unprintable; try eassumption; reflexivity.
Qed.

(** C5. Three attempts in a row that fail with a timeout or a connection
    error: [safe_request] returns [None] and raises nothing, having made
    three GETs with a five second pause after each; and each of its
    callers carries on: the paginators return what they had accumulated,
    the probe answers false. *)
Theorem three_transient_failures url s e1 w1 e2 w2 e3 w3 :
  session_get url (world s) = (Error e1, w1) -> transient e1 = true ->
  session_get url w1 = (Error e2, w2) -> transient e2 = true ->
  session_get url w2 = (Error e3, w3) -> transient e3 = true ->
  let s' := logged s w3 [EvGet url; EvSleep 5; EvGet url; EvSleep 5;
                         EvGet url; EvSleep 5] in
  safe_request url s = (Ret None, s') /\
  (forall fuel org page repos,
      url = repos_url org page ->
      get_repositories_from (S fuel) org page repos s = (Ret repos, s')) /\
  (forall fuel repo_name page branches,
      url = branches_url repo_name page ->
      get_branches_from (S fuel) repo_name page branches s = (Ret branches, s')) /\
  (forall repo_name branch,
      url = contents_url repo_name branch ->
      check_lfs_usage repo_name branch s = (Ret false, s')).
Proof.
  intros G1 T1 G2 T2 G3 T3 s'.
  assert (Hnone : safe_request url s = (Ret None, s')).
  { apply (safe_request_gives_up url s (Error e1) w1 5 (Error e2) w2 5
             (Error e3) w3 5); trivial;
      simpl; rewrite ?T1, ?T2, ?T3; reflexivity. }
  split; [exact Hnone |]. split; [| split].
  - intros fuel org page repos ->.
    rewrite get_repositories_from_S. unfold bind. rewrite Hnone.
    apply repos_page_falsy. reflexivity.
  - intros fuel repo_name page branches ->.
    rewrite get_branches_from_S. unfold bind. rewrite Hnone.
    apply branches_page_falsy. reflexivity.
  - intros repo_name branch ->.
    rewrite check_lfs_usage_run, Hnone. reflexivity.
Qed.

(** C6. [None] from the transport partway through an offset listing:
    after the pages [pages] were fetched, one after the other, the
    paginator makes no further call and returns what it started with
    followed by the entries of those pages (for [get_branches]: their
    names) in the order they came, given fuel for the pages it did
    fetch. *)
Theorem partial_results_on_no_result page s page' s' s'' :
  (forall org repos pages,
      listed_repos org page repos s pages page' s' ->
      safe_request
        (GHES_URL ++ "/orgs/" ++ org ++ "/repos?per_page=100&page="
           ++ str_int page') s' = (Ret None, s'') ->
      forall fuel, (List.length pages < fuel)%nat ->
        get_repositories_from fuel org page repos s
          = (Ret (repos ++ List.concat pages), s'')) /\
  (forall repo_name branches pages,
      listed_branches repo_name page s pages page' s' ->
      safe_request
        (GHES_URL ++ "/repos/" ++ ORG_NAME ++ "/" ++ py_str repo_name
           ++ "/branches?per_page=100&page=" ++ str_int page') s'
        = (Ret None, s'') ->
      forall fuel, (List.length pages < fuel)%nat ->
        get_branches_from fuel repo_name page branches s
          = (Ret (branches ++ List.concat pages), s'')).
Proof.
  split.
  - intros org repos pages Hpages Hnone.
    change (safe_request (repos_url org page') s' = (Ret None, s'')) in Hnone.
    apply enough_fuel. intros fuel.
    rewrite (listed_repos_run _ _ _ _ _ _ _ Hpages).
    rewrite get_repositories_from_S. unfold bind. rewrite Hnone.
    apply repos_page_falsy. reflexivity.
  - intros repo_name branches pages Hpages Hnone.
    change (safe_request (branches_url repo_name page') s' = (Ret None, s''))
      in Hnone.
    apply enough_fuel. intros fuel.
    rewrite (listed_branches_run _ _ _ _ _ _ Hpages).
    rewrite get_branches_from_S. unfold bind. rewrite Hnone.
    apply branches_page_falsy. reflexivity.
Qed.

(** C7. A 404 reply is handed back by [safe_request] at once, as a
    value: in whichever pass of the retry loop it arrives, that pass makes
    its one GET and the function returns the response, with no pause and
    no further attempt. The probe for the attributes file, handed a 404,
    answers false for that branch and raises nothing. *)
Theorem not_found_probe url s r w :
  session_get url (world s) = (Ok r, w) ->
  status_code r = 404 ->
  (forall a rest,
      safe_request_from url (a :: rest) s
        = (Ret (Some r), logged s w [EvGet url])) /\
  safe_request url s = (Ret (Some r), logged s w [EvGet url]) /\
  (forall repo_name branch s0 s1,
      safe_request (contents_url repo_name branch) s0 = (Ret (Some r), s1) ->
      check_lfs_usage repo_name branch s0 = (Ret false, s1)) /\
  (forall repo_name branch,
      url = contents_url repo_name branch ->
      check_lfs_usage repo_name branch s = (Ret false, logged s w [EvGet url])).
Proof.
  intros Hget H404.
  assert (Hpass : forall a rest,
             safe_request_from url (a :: rest) s
               = (Ret (Some r), logged s w [EvGet url])).
  { intros a rest.
    rewrite safe_request_from_cons, (attempt_reply _ _ _ _ Hget), H404.
    reflexivity. }
  assert (Hprobe : forall repo_name branch s0 s1,
             safe_request (contents_url repo_name branch) s0 = (Ret (Some r), s1) ->
             check_lfs_usage repo_name branch s0 = (Ret false, s1)).
  { intros repo_name branch s0 s1 Hsome.
    rewrite check_lfs_usage_run, Hsome.
    unfold attributes_has_marker. rewrite H404. reflexivity. }
  split; [exact Hpass |]. split; [apply Hpass |]. split; [exact Hprobe |].
  intros repo_name branch ->. apply Hprobe. apply Hpass.
Qed.

(** C10. [safe_request] is total over what the requests library can
    answer: when the replies to its (at most three) GETs are responses or
    exceptions derived from [RequestException], it returns a value and
    never raises. In particular three replies with an error status other
    than 404 are each turned into an [HTTPError], caught, followed by a
    three second pause and retried; after the third the result is
    [None]. *)
Theorem safe_request_total url s :
  (Forall (fun reply => request_level reply = true) (replies url 3 (world s)) ->
   exists result s', safe_request url s = (Ret result, s')) /\
  (forall r1 w1 r2 w2 r3 w3,
      session_get url (world s) = (Ok r1, w1) -> rejected (status_code r1) = true ->
      session_get url w1 = (Ok r2, w2) -> rejected (status_code r2) = true ->
      session_get url w2 = (Ok r3, w3) -> rejected (status_code r3) = true ->
      safe_request url s =
        (Ret None, logged s w3 [EvGet url; EvSleep 3; EvGet url; EvSleep 3;
                                EvGet url; EvSleep 3])).
Proof.
  split.
  - intros Hall. apply (safe_request_from_returns url (seq 0 3) s Hall).
  - intros r1 w1 r2 w2 r3 w3 G1 R1 G2 R2 G3 R3.
    apply (safe_request_gives_up url s (Ok r1) w1 3 (Ok r2) w2 3 (Ok r3) w3 3);
      trivial; simpl; rewrite ?R1, ?R2, ?R3; reflexivity.
Qed.

End Facts.

(** ** Concrete runs against the scripted remote *)

Local Abbreviation World := Demo.lfs_world.
Local Abbreviation state0 := Demo.lfs_state.
Local Abbreviation repo := Demo.repo.
Local Abbreviation main_branch := Demo.main_branch.
Local Abbreviation dev_branch := Demo.dev_branch.

Local Abbreviation safe_request := (safe_request World Demo.session_get).
Local Abbreviation branches_url :=
  (branches_url Demo.GHES_URL Demo.ORG_NAME Demo.repr_container).
Local Abbreviation contents_url :=
  (contents_url Demo.GHES_URL Demo.ORG_NAME Demo.repr_container).
Local Abbreviation get_branches_from :=
  (get_branches_from World Demo.session_get Demo.GHES_URL Demo.ORG_NAME
     Demo.repr_container).
Local Abbreviation get_branches :=
  (get_branches World Demo.session_get Demo.GHES_URL Demo.ORG_NAME
     Demo.repr_container).
Local Abbreviation branches_page := (branches_page World).
Local Abbreviation check_lfs_usage :=
  (check_lfs_usage World Demo.session_get Demo.GHES_URL Demo.ORG_NAME
     Demo.repr_container Demo.b64decode_utf8).
Local Abbreviation lfs_scan :=
  (lfs_scan World Demo.session_get Demo.GHES_URL Demo.ORG_NAME
     Demo.repr_container Demo.b64decode_utf8).
Local Abbreviation audit :=
  (audit World Demo.session_get Demo.GHES_URL Demo.ORG_NAME
     Demo.repr_container Demo.b64decode_utf8).
Local Abbreviation pages_branches :=
  (pages_branches World Demo.session_get Demo.GHES_URL Demo.ORG_NAME
     Demo.repr_container).
Local Abbreviation get_repositories_from :=
  (get_repositories_from World Demo.session_get Demo.GHES_URL).
Local Abbreviation repos_page := (repos_page World).
Local Abbreviation listed_repos :=
  (listed_repos World Demo.session_get Demo.GHES_URL).
Local Abbreviation listed_branches :=
  (listed_branches World Demo.session_get Demo.GHES_URL Demo.ORG_NAME
     Demo.repr_container).

(** C2, as stated, fails for [get_branches]: a page that is not empty
    but has an entry without a [name] raises [KeyError]; the call for
    page 1 is the only one made, and the reply waiting for page 2 is never
    asked for. *)
Lemma offset_pagination_counterexample :
  safe_request
    "https://ghes.example/api/v3/repos/acme/repo/branches?per_page=100&page=1"
    (state0 [Ok Demo.nameless_page; Ok Demo.empty_page])
  = (Ret (Some Demo.nameless_page),
     logged (state0 [Ok Demo.nameless_page; Ok Demo.empty_page])
       [Ok Demo.empty_page]
       [EvGet "https://ghes.example/api/v3/repos/acme/repo/branches?per_page=100&page=1"]) /\
  ok Demo.nameless_page = true /\
  json_body Demo.nameless_page
  = Some (JArr [JObj [("name", JStr "main")]; JObj [("sha", JStr "abc")]]%string) /\
  get_branches 5 repo (state0 [Ok Demo.nameless_page; Ok Demo.empty_page])
  = (Exc (KeyError "name"),
     logged (state0 [Ok Demo.nameless_page; Ok Demo.empty_page])
       [Ok Demo.empty_page]
       [EvGet "https://ghes.example/api/v3/repos/acme/repo/branches?per_page=100&page=1"]).
Proof. repeat split; reflexivity. Qed.

(** A page with [main] and [dev], then the call for page 2; and a page
    of the organisation's listing with the one repository, then the call
    for its page 2. Both runs end on the empty second page. *)
Lemma offset_pagination_step_witness :
  let s := state0 [Ok Demo.branch_page; Ok Demo.empty_page] in
  let url1 :=
    "https://ghes.example/api/v3/repos/acme/repo/branches?per_page=100&page=1"%string in
  let url2 :=
    "https://ghes.example/api/v3/repos/acme/repo/branches?per_page=100&page=2"%string in
  let s1 := logged s [Ok Demo.empty_page] [EvGet url1] in
  let items := [JObj [("name", main_branch)]; JObj [("name", dev_branch)]]%string in
  let t := state0 [Ok Demo.repository_page; Ok Demo.empty_page] in
  let org_url1 :=
    "https://ghes.example/api/v3/orgs/acme/repos?per_page=100&page=1"%string in
  let org_url2 :=
    "https://ghes.example/api/v3/orgs/acme/repos?per_page=100&page=2"%string in
  let t1 := logged t [Ok Demo.empty_page] [EvGet org_url1] in
  (ok Demo.branch_page = true /\
   json_body Demo.branch_page = Some (JArr items) /\
   safe_request url1 s = (Ret (Some Demo.branch_page), s1) /\
   items <> [] /\
   Forall2 (fun item name => getitem item "name" = Ok name) items
     [main_branch; dev_branch] /\
   get_branches_from 2 repo 1 [] s =
     bind (safe_request url2)
          (branches_page (get_branches_from 0 repo) 2 [main_branch; dev_branch])
          (logged s1 (world s1) [EvSleep 1]) /\
   get_branches_from 2 repo 1 [] s =
     (Ret [main_branch; dev_branch],
      logged s [] [EvGet url1; EvSleep 1; EvGet url2])) /\
  (ok Demo.repository_page = true /\
   json_body Demo.repository_page = Some (JArr [Demo.listed_repo]) /\
   safe_request org_url1 t = (Ret (Some Demo.repository_page), t1) /\
   [Demo.listed_repo] <> [] /\
   get_repositories_from 2 "acme" 1 [] t =
     bind (safe_request org_url2)
          (repos_page (get_repositories_from 0 "acme") 2 [Demo.listed_repo])
          (logged t1 (world t1) [EvSleep 1]) /\
   get_repositories_from 2 "acme" 1 [] t =
     (Ret [Demo.listed_repo],
      logged t [] [EvGet org_url1; EvSleep 1; EvGet org_url2])) /\
  (url1 = url2 -> 1 = 2).
Proof.
  intros s url1 url2 s1 items t org_url1 org_url2 t1.
  assert (Hok : ok Demo.branch_page = true) by reflexivity.
  assert (Hbody : json_body Demo.branch_page = Some (JArr items)) by reflexivity.
  assert (Hcall : safe_request url1 s = (Ret (Some Demo.branch_page), s1))
    by reflexivity.
  assert (Hne : items <> []) by discriminate.
  assert (Hnames : Forall2 (fun item name => getitem item "name" = Ok name)
                     items [main_branch; dev_branch])
    by (repeat constructor).
  assert (Hok' : ok Demo.repository_page = true) by reflexivity.
  assert (Hbody' : json_body Demo.repository_page = Some (JArr [Demo.listed_repo]))
    by reflexivity.
  assert (Hcall' : safe_request org_url1 t = (Ret (Some Demo.repository_page), t1))
    by reflexivity.
  assert (Hne' : [Demo.listed_repo] <> []) by discriminate.
  pose proof (offset_pagination_step World Demo.session_get Demo.GHES_URL
                Demo.ORG_NAME Demo.repr_container 0 1 s Demo.branch_page s1
                items Hok Hbody) as Hbranches.
  pose proof (offset_pagination_step World Demo.session_get Demo.GHES_URL
                Demo.ORG_NAME Demo.repr_container 0 1 t Demo.repository_page t1
                [Demo.listed_repo] Hok' Hbody') as Hrepos.
  refine (conj (conj Hok (conj Hbody (conj Hcall (conj Hne (conj Hnames
            (conj _ eq_refl))))))
          (conj (conj Hok' (conj Hbody' (conj Hcall' (conj Hne'
            (conj _ eq_refl))))) _)).
  - exact (proj2 (proj1 (proj2 Hbranches) repo [] Hcall)
             [main_branch; dev_branch] Hne Hnames).
  - exact (proj2 (proj1 Hrepos "acme"%string [] Hcall') Hne').
  - exact (proj2 (proj2 (proj2 Hbranches) "acme"%string repo 2)).
Defined.

(** The spec's example: branches [main] and [dev], only [dev] carries
    the marker; the row is [(repo, "main, dev", "Yes")], after two
    listing calls and one probe of each branch. And a repository whose
    name is null: its (empty) listing is fetched and the pass raises. *)
Lemma lfs_audit_result_witness :
  let s0 := state0 Demo.repo_script in
  let s := snd (get_branches 5 repo s0) in
  let s1 :=
    logged s0 []
      [EvGet "https://ghes.example/api/v3/repos/acme/repo/branches?per_page=100&page=1";
       EvSleep 1;
       EvGet "https://ghes.example/api/v3/repos/acme/repo/branches?per_page=100&page=2";
       EvGet "https://ghes.example/api/v3/repos/acme/repo/contents/.gitattributes?ref=main";
       EvGet "https://ghes.example/api/v3/repos/acme/repo/contents/.gitattributes?ref=dev"] in
  let t0 := state0 [Ok Demo.empty_page] in
  let t :=
    logged t0 []
      [EvGet "https://ghes.example/api/v3/repos/acme/None/branches?per_page=100&page=1"] in
  (getitem (JObj [("name", repo)]%string) "name" = Ok repo /\
   get_branches 5 repo s0 = (Ret [main_branch; dev_branch], s) /\
   lfs_scan repo [main_branch; dev_branch] s = (Ret "Yes"%string, s1) /\
   py_join ", " [main_branch; dev_branch] = Ok "main, dev"%string /\
   audit 5 1 (JObj [("name", repo)]%string) s0 =
     (Ret (repo, "main, dev"%string, "Yes"%string), s1)) /\
  (getitem (JObj [("name", JNull)]%string) "name" = Ok JNull /\
   get_branches 5 JNull t0 = (Ret [], t) /\
   lfs_scan JNull [] t = (Ret "No"%string, t) /\
   audit 5 1 (JObj [("name", JNull)]%string) t0 = (Exc TypeError, t)).
Proof.
  intros s0 s s1 t0 t.
  assert (H1 : getitem (JObj [("name", repo)]%string) "name" = Ok repo)
    by reflexivity.
  assert (H2 : get_branches 5 repo s0 = (Ret [main_branch; dev_branch], s))
    by reflexivity.
  assert (H3 : lfs_scan repo [main_branch; dev_branch] s = (Ret "Yes"%string, s1))
    by reflexivity.
  assert (H4 : py_join ", " [main_branch; dev_branch] = Ok "main, dev"%string)
    by reflexivity.
  assert (N1 : getitem (JObj [("name", JNull)]%string) "name" = Ok JNull)
    by reflexivity.
  assert (N2 : get_branches 5 JNull t0 = (Ret [], t)) by reflexivity.
  assert (N3 : lfs_scan JNull [] t = (Ret "No"%string, t)) by reflexivity.
  refine (conj (conj H1 (conj H2 (conj H3 (conj H4 _))))
               (conj N1 (conj N2 (conj N3 _)))).
  - exact (proj2 (proj2 (proj2 (proj2
             (lfs_audit_result World Demo.session_get Demo.GHES_URL Demo.ORG_NAME
                Demo.repr_container Demo.b64decode_utf8 repo
                [main_branch; dev_branch] s))))
             5%nat 1 _ s0 s1 _ H1 H2 H3 _ H4).
  - exact (proj2 (proj2 (proj2 (proj2
             (lfs_audit_result World Demo.session_get Demo.GHES_URL Demo.ORG_NAME
                Demo.repr_container Demo.b64decode_utf8 JNull [] t))))
             5%nat 1 _ t0 t _ N1 N2 N3).
Defined.

(** A timeout, a connection error and a connect timeout in a row. *)
Lemma three_transient_failures_witness :
  let s := state0 [Error Timeout; Error ConnectionError; Error ConnectTimeout] in
  let url := contents_url repo main_branch in
  let s' := logged s [] [EvGet url; EvSleep 5; EvGet url; EvSleep 5;
                         EvGet url; EvSleep 5] in
  Demo.session_get url (world s)
    = (Error Timeout, [Error ConnectionError; Error ConnectTimeout]) /\
  transient Timeout = true /\
  transient ConnectionError = true /\
  transient ConnectTimeout = true /\
  safe_request url s = (Ret None, s') /\
  check_lfs_usage repo main_branch s = (Ret false, s').
Proof.
  intros s url s'.
  pose proof (three_transient_failures World Demo.session_get Demo.GHES_URL
                Demo.ORG_NAME Demo.repr_container Demo.b64decode_utf8 url s
                Timeout [Error ConnectionError; Error ConnectTimeout]
                ConnectionError [Error ConnectTimeout]
                ConnectTimeout []
                eq_refl eq_refl eq_refl eq_refl eq_refl eq_refl) as H.
  refine (conj eq_refl (conj eq_refl (conj eq_refl (conj eq_refl
           (conj (proj1 H) _))))).
  exact (proj2 (proj2 (proj2 H)) repo main_branch eq_refl).
Defined.

(** One page of branches, then three timeouts on the call for page 2;
    and the same for the listing of the organisation. *)
Lemma partial_results_on_no_result_witness :
  let s := state0 [Ok Demo.branch_page; Error Timeout; Error Timeout; Error Timeout] in
  let url1 :=
    "https://ghes.example/api/v3/repos/acme/repo/branches?per_page=100&page=1"%string in
  let url2 :=
    "https://ghes.example/api/v3/repos/acme/repo/branches?per_page=100&page=2"%string in
  let s' := logged s [Error Timeout; Error Timeout; Error Timeout]
              [EvGet url1; EvSleep 1] in
  let s'' := logged s [] [EvGet url1; EvSleep 1; EvGet url2; EvSleep 5;
                          EvGet url2; EvSleep 5; EvGet url2; EvSleep 5] in
  let t := state0 [Ok Demo.repository_page; Error Timeout; Error Timeout;
                   Error Timeout] in
  let org_url1 :=
    "https://ghes.example/api/v3/orgs/acme/repos?per_page=100&page=1"%string in
  let org_url2 :=
    "https://ghes.example/api/v3/orgs/acme/repos?per_page=100&page=2"%string in
  let t' := logged t [Error Timeout; Error Timeout; Error Timeout]
              [EvGet org_url1; EvSleep 1] in
  let t'' := logged t [] [EvGet org_url1; EvSleep 1; EvGet org_url2; EvSleep 5;
                          EvGet org_url2; EvSleep 5; EvGet org_url2; EvSleep 5] in
  (listed_branches repo 1 s [[main_branch; dev_branch]] 2 s' /\
   safe_request url2 s' = (Ret None, s'') /\
   (1 < 2)%nat /\
   get_branches_from 2 repo 1 [] s = (Ret [main_branch; dev_branch], s'')) /\
  (listed_repos "acme" 1 [] t [[Demo.listed_repo]] 2 t' /\
   safe_request org_url2 t' = (Ret None, t'') /\
   (1 < 2)%nat /\
   get_repositories_from 2 "acme" 1 [] t = (Ret [Demo.listed_repo], t'')).
Proof.
  intros s url1 url2 s' s'' t org_url1 org_url2 t' t''.
  assert (Hpages : listed_branches repo 1 s [[main_branch; dev_branch]] 2 s').
  { eapply listed_branches_cons
      with (r := Demo.branch_page)
           (s1 := logged s [Error Timeout; Error Timeout; Error Timeout]
                    [EvGet url1]);
      [reflexivity | reflexivity | reflexivity | discriminate
      | repeat constructor |].
    apply listed_branches_nil. }
  assert (Hnone : safe_request url2 s' = (Ret None, s'')) by reflexivity.
  assert (Hpages' : listed_repos "acme" 1 [] t [[Demo.listed_repo]] 2 t').
  { eapply listed_repos_cons
      with (r := Demo.repository_page)
           (s1 := logged t [Error Timeout; Error Timeout; Error Timeout]
                    [EvGet org_url1]);
      [reflexivity | reflexivity | reflexivity | discriminate |].
    apply listed_repos_nil. }
  assert (Hnone' : safe_request org_url2 t' = (Ret None, t'')) by reflexivity.
  assert (Hfuel : (1 < 2)%nat) by lia.
  pose proof (partial_results_on_no_result World Demo.session_get
                Demo.GHES_URL Demo.ORG_NAME Demo.repr_container
                1 s 2 s' s'') as Hbranches.
  pose proof (partial_results_on_no_result World Demo.session_get
                Demo.GHES_URL Demo.ORG_NAME Demo.repr_container
                1 t 2 t' t'') as Hrepos.
  refine (conj (conj Hpages (conj Hnone (conj Hfuel _)))
               (conj Hpages' (conj Hnone' (conj Hfuel _)))).
  - exact (proj2 Hbranches repo [] [[main_branch; dev_branch]] Hpages Hnone
             2%nat Hfuel).
  - exact (proj1 Hrepos "acme"%string [] [[Demo.listed_repo]] Hpages' Hnone'
             2%nat Hfuel).
Defined.

(** No attributes file on [main]. *)
Lemma not_found_probe_witness :
  let s := state0 [Ok Demo.not_found] in
  let url := contents_url repo main_branch in
  Demo.session_get url (world s) = (Ok Demo.not_found, []) /\
  status_code Demo.not_found = 404 /\
  safe_request url s = (Ret (Some Demo.not_found), logged s [] [EvGet url]) /\
  check_lfs_usage repo main_branch s = (Ret false, logged s [] [EvGet url]).
Proof.
  intros s url.
  pose proof (not_found_probe World Demo.session_get Demo.GHES_URL Demo.ORG_NAME
                Demo.repr_container Demo.b64decode_utf8 url s Demo.not_found []
                eq_refl eq_refl) as H.
  refine (conj eq_refl (conj eq_refl (conj (proj1 (proj2 H)) _))).
  exact (proj2 (proj2 (proj2 H)) repo main_branch eq_refl).
Defined.

(** Three 403 replies in a row. *)
Lemma safe_request_total_witness :
  let s := state0 [Ok Demo.forbidden; Ok Demo.forbidden; Ok Demo.forbidden] in
  let url := contents_url repo main_branch in
  Forall (fun reply => request_level reply = true)
         (replies World Demo.session_get url 3 (world s)) /\
  rejected (status_code Demo.forbidden) = true /\
  (exists result s', safe_request url s = (Ret result, s')) /\
  safe_request url s =
    (Ret None, logged s [] [EvGet url; EvSleep 3; EvGet url; EvSleep 3;
                            EvGet url; EvSleep 3]).
Proof.
  intros s url.
  assert (Hall : Forall (fun reply => request_level reply = true)
                   (replies World Demo.session_get url 3 (world s))).
  { repeat constructor. }
  pose proof (safe_request_total World Demo.session_get url s) as H.
  refine (conj Hall (conj eq_refl (conj (proj1 H Hall) _))).
  exact (proj2 H Demo.forbidden [Ok Demo.forbidden; Ok Demo.forbidden]
             Demo.forbidden [Ok Demo.forbidden] Demo.forbidden []
             eq_refl eq_refl eq_refl eq_refl eq_refl eq_refl).
Defined.

End LfsFacts.

(* ================================================================== *)
(** * Properties of fetch_repo_details.py                               *)
(* ================================================================== *)

Module FetchFacts.
Import FetchRepoDetails.

(** ** The normaliser *)

Lemma rbind_Ok_inv {A B} (x : result A) (k : A -> result B) (b : B) :
  rbind x k = Ok b -> exists a, x = Ok a /\ k a = Ok b.
Proof. destruct x as [a | e]; simpl; [eauto | discriminate]. Qed.

Ltac invert_rbind H :=
  repeat (apply rbind_Ok_inv in H;
          let a := fresh "a" in
          let E := fresh "E" in
          destruct H as (a & E & H)).

(** A row comes out only if each of the fifteen projections succeeded,
    and then holds exactly their values. *)
Lemma normalize_inv repo r :
  normalize repo = Ok r ->
  languages_of repo = Ok (languages r) /\
  getitem repo "name" = Ok (repo_name r) /\
  size_of repo = Ok (repo_size_mb r) /\
  getitem repo "visibility" = Ok (visibility r) /\
  commits_of repo = Ok (total_commits r) /\
  count_of repo "branches" = Ok (total_branches r) /\
  count_of repo "pullRequests" = Ok (open_prs r) /\
  count_of repo "mergedPRs" = Ok (merged_prs r) /\
  count_of repo "closedPRs" = Ok (closed_prs r) /\
  count_of repo "issues" = Ok (open_issues r) /\
  count_of repo "closedIssues" = Ok (closed_issues r) /\
  count_of repo "releases" = Ok (releases r) /\
  count_of repo "tags" = Ok (tags r) /\
  getitem repo "pushedAt" = Ok (last_pushed_at r) /\
  getitem repo "updatedAt" = Ok (last_updated_at r).
Proof.
  intros H. unfold normalize in H. invert_rbind H.
  inversion H; subst; simpl. repeat split; assumption.
Qed.



Lemma commits_of_default repo ref :
  getitem repo "defaultBranchRef" = Ok ref ->
  truthy ref = false ->
  commits_of repo = Ok (JNum 0).
Proof. intros H T. unfold commits_of. rewrite H. simpl. rewrite T. reflexivity. Qed.

Lemma size_of_default repo disk :
  getitem repo "diskUsage" = Ok disk ->
  truthy disk = false ->
  size_of repo = Ok 0.
Proof. intros H T. unfold size_of. rewrite H. simpl. rewrite T. reflexivity. Qed.

(** A count whose sub-object is null or missing is a fault, not a zero. *)
Lemma count_of_no_default repo key :
  getitem repo key = Ok JNull \/ getitem repo key = Error (KeyError key) ->
  exists e, count_of repo key = Error e.
Proof.
  unfold count_of. intros [-> | ->]; simpl; eauto.
Qed.



(** C4, as stated, fails: a node whose [branches] sub-object is null is
    not given [total_branches = 0]; normalising it raises. *)
Lemma numeric_default_counterexample :
  getitem Demo.node_without_branches "branches" = Ok JNull /\
  normalize Demo.node_without_branches = Error TypeError /\
  ~ (exists r, normalize Demo.node_without_branches = Ok r /\
               total_branches r = JNum 0).
Proof.
  split; [reflexivity |]. split; [reflexivity |].
  intros (r & Hr & _). discriminate Hr.
Qed.

(** C4, amended. The two guarded fields default to zero: a null (or
    otherwise falsy) [defaultBranchRef] gives [total_commits = 0] and a
    null (falsy) [diskUsage] gives [repo_size_mb = 0], with no fault from
    that field. The eight counts have no default: in a row that comes out
    each is the [totalCount] of its sub-object, and a node in which one of
    these sub-objects is null or missing is not normalised. *)
Theorem numeric_defaults repo :
  (forall ref,
      getitem repo "defaultBranchRef" = Ok ref -> truthy ref = false ->
      commits_of repo = Ok (JNum 0) /\
      (forall r, normalize repo = Ok r -> total_commits r = JNum 0)) /\
  (forall disk,
      getitem repo "diskUsage" = Ok disk -> truthy disk = false ->
      size_of repo = Ok 0 /\
      (forall r, normalize repo = Ok r -> repo_size_mb r = 0)) /\
  (forall r,
      normalize repo = Ok r ->
      map (count_of repo) count_keys =
        map Ok [total_branches r; open_prs r; merged_prs r; closed_prs r;
                open_issues r; closed_issues r; releases r; tags r]) /\
  (forall key,
      In key count_keys ->
      getitem repo key = Ok JNull \/ getitem repo key = Error (KeyError key) ->
      exists e, normalize repo = Error e).
Proof.
  split; [| split; [| split]].
  - intros ref Href T.
    pose proof (commits_of_default _ _ Href T) as H.
    split; [exact H |].
    intros r Hr. apply normalize_inv in Hr.
    destruct Hr as (_ & _ & _ & _ & Hc & _). congruence.
  - intros disk Hdisk T.
    pose proof (size_of_default _ _ Hdisk T) as H.
    split; [exact H |].
    intros r Hr. apply normalize_inv in Hr.
    destruct Hr as (_ & _ & Hs & _). congruence.
  - intros r Hr. apply normalize_inv in Hr.
    destruct Hr as (_ & _ & _ & _ & _ & H1 & H2 & H3 & H4 & H5 & H6 & H7 & H8 & _).
    simpl. rewrite H1, H2, H3, H4, H5, H6, H7, H8. reflexivity.
  - intros key Hin Hmissing.
    destruct (count_of_no_default _ _ Hmissing) as [e He].
    destruct (normalize repo) as [r | e'] eqn:Hr; [| eauto].
    apply normalize_inv in Hr.
    destruct Hr as (_ & _ & _ & _ & _ & H1 & H2 & H3 & H4 & H5 & H6 & H7 & H8 & _).
    simpl in Hin.
    repeat (destruct Hin as [<- | Hin]; [congruence |]).
    contradiction.
Qed.

(** An empty repository: no default branch, no size. *)
Lemma numeric_defaults_witness :
  getitem Demo.node_empty "defaultBranchRef" = Ok JNull /\
  truthy JNull = false /\
  commits_of Demo.node_empty = Ok (JNum 0) /\
  (forall r, normalize Demo.node_empty = Ok r -> total_commits r = JNum 0).
Proof.
  refine (conj eq_refl (conj eq_refl _)).
  exact (proj1 (numeric_defaults Demo.node_empty) JNull eq_refl eq_refl).
Defined.

(** ** The script *)

Section Facts.

Variable World : Type.
Variable requests_post : json -> World -> result response * World.
Variable time_time : World -> Q * World.
Variable ORG_NAME : string.
Variable int_of_str : string -> result Z.

Local Abbreviation state := (FetchRepoDetails.state World).
Local Abbreviation post := (post World requests_post).
Local Abbreviation now := (now World time_time).
Local Abbreviation sleep := (sleep World).
Local Abbreviation normalize_all := (normalize_all World).
Local Abbreviation rate_limit := (rate_limit World time_time int_of_str).
Local Abbreviation process_page := (process_page World time_time int_of_str).
Local Abbreviation on_response := (on_response World time_time int_of_str).
Local Abbreviation iteration := (iteration World requests_post time_time int_of_str).
Local Abbreviation while_has_next_page :=
  (while_has_next_page World requests_post time_time int_of_str).
Local Abbreviation fetch_data :=
  (fetch_data World requests_post time_time int_of_str).
Local Abbreviation main :=
  (main World requests_post time_time ORG_NAME int_of_str).
Local Abbreviation called := (called World).
Local Abbreviation turned := (turned World).
Local Abbreviation started := (started World).
Local Abbreviation written := (written World ORG_NAME).

Lemma post_run c (s : state) reply w :
  requests_post c (world s) = (reply, w) ->
  post c s =
    (match reply with Ok r => Ret r | Error e => Exc e end,
     mkState w (trace s ++ [EvPost c]) (has_next_page s) (cursor s) (repo_data s)).
Proof.
  intros H. unfold FetchRepoDetails.post. rewrite H.
  destruct reply; reflexivity.
Qed.

(** Nodes that all normalise are appended in order; nothing else changes. *)
Lemma normalize_all_run items :
  forall rows (s : state),
    normalize_list items = Ok rows ->
    normalize_all items s =
      (Ret tt,
       mkState (world s) (trace s) (has_next_page s) (cursor s) (repo_data s ++ rows)).
Proof.
  induction items as [| repo rest IH]; intros rows s H; simpl in H.
  - inversion H. simpl. rewrite app_nil_r. destruct s; reflexivity.
  - invert_rbind H. inversion H; subst.
    simpl. rewrite E. unfold bind, lift, ret, append, modify; simpl.
    rewrite (IH _ _ E0). simpl. rewrite <- app_assoc. reflexivity.
Qed.

(** What the loop body does with a page, up to the rate-limit block. *)
Lemma process_page_run r rows hnp c (s : state) :
  is_page r rows hnp c ->
  process_page r s =
    bind (rate_limit r) (fun _ => ret false)
      (mkState (world s) (trace s) hnp c (repo_data s ++ rows)).
Proof.
  intros [json_data repositories nodes page_info items
            _ Hbody Herr Hrepos Hnodes Hinfo Hiter Hrows Hhnp Hc].
  unfold FetchRepoDetails.process_page, response_json. rewrite Hbody.
  unfold bind at 1, ret at 1. rewrite Herr.
  unfold bind at 1, lift at 1, ret at 1.
  rewrite Hrepos. unfold bind at 1, lift at 1, ret at 1.
  rewrite Hnodes. unfold bind at 1, lift at 1, ret at 1.
  rewrite Hinfo. unfold bind at 1, lift at 1, ret at 1.
  rewrite Hiter. unfold bind at 1, lift at 1, ret at 1.
  unfold bind at 1. rewrite (normalize_all_run _ _ _ Hrows).
  rewrite Hhnp. unfold bind at 1, lift at 1, ret at 1.
  unfold bind at 1, set_has_next_page at 1, modify at 1.
  rewrite Hc. unfold bind at 1, lift at 1, ret at 1.
  unfold bind at 1, set_cursor at 1, modify at 1.
  reflexivity.
Qed.

Local Abbreviation moved := (moved World).
Local Abbreviation slept := (slept World).
Local Abbreviation remaining_of := (remaining_of int_of_str).
Local Abbreviation reset_of := (reset_of int_of_str).

(** The rate-limit block, case by case. With fewer than ten requests
    left it reads the clock twice and sleeps until the reset time plus
    five seconds; a reset time more than five seconds in the past, or one
    too far off to be a sleep length, makes the sleep raise. *)
Lemma rate_limit_run r (s : state) :
  rate_limit r s =
    match remaining_of r with
    | Error e => (Exc e, s)
    | Ok remaining =>
        if remaining <? 10 then
          let (t, w1) := time_time (world s) in
          match reset_of r t with
          | Error e => (Exc e, moved s w1)
          | Ok reset_time =>
              let (t', w2) := time_time w1 in
              let wait_time := (inject_Z reset_time - t' + 5)%Q in
              if Qle_bool (- sleep_max) wait_time && Qle_bool wait_time sleep_max
              then
                if Qle_bool 0 wait_time then (Ret tt, slept s w2 wait_time)
                else (Exc ValueError, moved s w2)
              else (Exc OverflowError, moved s w2)
          end
        else (Ret tt, s)
    end.
Proof.
  unfold FetchRepoDetails.rate_limit.
  destruct (remaining_of r) as [remaining | e]; [| reflexivity].
  unfold bind at 1, lift at 1, ret at 1.
  destruct (remaining <? 10); [| reflexivity].
  unfold bind at 1, FetchRepoDetails.now at 1.
  destruct (time_time (world s)) as [t w1].
  destruct (reset_of r t) as [reset_time | e]; [| reflexivity].
  unfold bind at 1, lift at 1, ret at 1.
  unfold bind at 1, FetchRepoDetails.now at 1. simpl world.
  destruct (time_time w1) as [t' w2].
  unfold FetchRepoDetails.sleep.
  destruct (Qle_bool (- sleep_max) (inject_Z reset_time - t' + 5)
            && Qle_bool (inject_Z reset_time - t' + 5) sleep_max);
    [| reflexivity].
  destruct (Qle_bool 0 (inject_Z reset_time - t' + 5)); reflexivity.
Qed.

(** It leaves the loop variables and the rows alone, and makes no call. *)
Lemma rate_limit_locals r (s : state) o s' :
  rate_limit r s = (o, s') ->
  has_next_page s' = has_next_page s /\
  cursor s' = cursor s /\
  repo_data s' = repo_data s /\
  o <> OutOfFuel /\
  (trace s' = trace s \/ exists seconds, trace s' = trace s ++ [EvSleep seconds]).
Proof.
  rewrite rate_limit_run.
  destruct (remaining_of r) as [remaining | e].
  - destruct (remaining <? 10).
    + destruct (time_time (world s)) as [t w1].
      destruct (reset_of r t) as [reset_time | e].
      * destruct (time_time w1) as [t' w2]. cbv zeta.
        destruct (Qle_bool (- sleep_max) (inject_Z reset_time - t' + 5)
                  && Qle_bool (inject_Z reset_time - t' + 5) sleep_max);
          [destruct (Qle_bool 0 (inject_Z reset_time - t' + 5)) |];
          intros H; inversion H; subst; simpl;
          repeat split; try discriminate; eauto.
      * intros H; inversion H; subst; simpl;
          repeat split; try discriminate; eauto.
    + intros H; inversion H; subst; repeat split; try discriminate; eauto.
  - intros H; inversion H; subst; repeat split; try discriminate; eauto.
Qed.

(** One pass of the loop over a page: the rows are appended, the loop
    variables set from [pageInfo], and the pass ends in [break] exactly
    when the rate-limit block raises. *)
Lemma iteration_page (s : state) r w rows hnp c :
  requests_post (cursor s) (world s) = (Ok r, w) ->
  is_page r rows hnp c ->
  iteration s =
    match rate_limit r (turned s w rows hnp c) with
    | (Ret _, s2) => (Ret false, s2)
    | (Exc _, s2) => (Ret true, s2)
    | (OutOfFuel, s2) => (OutOfFuel, s2)
    end.
Proof.
  intros Hpost Hpage.
  unfold FetchRepoDetails.iteration, try_except.
  unfold bind at 1, gets at 1. unfold bind at 1.
  rewrite (post_run _ _ _ _ Hpost).
  unfold FetchRepoDetails.on_response.
  assert (H200 : status_code r = 200) by (destruct Hpage; assumption).
  rewrite H200. simpl Z.eqb. cbv iota.
  rewrite (process_page_run r rows hnp c _ Hpage). simpl.
  unfold bind, FetchRepoDetails.turned.
  destruct (rate_limit r _) as [[[] | e' |] s2]; reflexivity.
Qed.

(** One pass of the loop over a fatal reply: [break], with nothing
    changed but the call made. *)
Lemma iteration_fatal (s : state) reply w :
  requests_post (cursor s) (world s) = (reply, w) ->
  fatal reply = true ->
  iteration s = (Ret true, called s w).
Proof.
  intros Hpost Hfatal.
  unfold FetchRepoDetails.iteration, try_except.
  unfold bind at 1, gets at 1. unfold bind at 1.
  rewrite (post_run _ _ _ _ Hpost).
  destruct reply as [r | e]; [| reflexivity].
  unfold FetchRepoDetails.on_response. simpl in Hfatal.
  destruct (status_code r =? 200); [| reflexivity].
  unfold FetchRepoDetails.process_page, response_json.
  destruct (json_body r) as [json_data |]; [| reflexivity].
  unfold bind at 1, ret at 1.
  destruct (py_in "errors" json_data) as [[] | e]; try discriminate; reflexivity.
Qed.

(** ** Nothing escapes the loop *)

Lemma fuel_free_bind {S A B} (c : M S A) (k : A -> M S B) :
  fuel_free c -> (forall a, fuel_free (k a)) -> fuel_free (bind c k).
Proof.
  intros Hc Hk s. unfold bind.
  specialize (Hc s). destruct (c s) as [[a | e |] s1]; simpl in *.
  - apply Hk.
  - discriminate.
  - contradiction.
Qed.

Lemma fuel_free_lift {S A} (r : result A) : fuel_free (@lift S A r).
Proof. intros s. destruct r; discriminate. Qed.

Lemma fuel_free_modify {S} (f : S -> S) : fuel_free (modify f).
Proof. intros s. discriminate. Qed.

Lemma fuel_free_ret {S A} (a : A) : fuel_free (@ret S A a).
Proof. intros s. discriminate. Qed.

Lemma fuel_free_normalize_all items : fuel_free (normalize_all items).
Proof.
  induction items as [| repo rest IH]; simpl.
  - apply fuel_free_ret.
  - apply fuel_free_bind; [apply fuel_free_lift |]. intros r.
    apply fuel_free_bind; [apply fuel_free_modify | intros _; exact IH].
Qed.

Lemma fuel_free_rate_limit r : fuel_free (rate_limit r).
Proof.
  intros s. destruct (rate_limit r s) as [o s'] eqn:E.
  apply rate_limit_locals in E. simpl. tauto.
Qed.

Lemma fuel_free_process_page r : fuel_free (process_page r).
Proof.
  unfold FetchRepoDetails.process_page.
  apply fuel_free_bind.
  { unfold response_json. intros s. destruct (json_body r); discriminate. }
  intros json_data. apply fuel_free_bind; [apply fuel_free_lift |].
  intros [|]; [apply fuel_free_ret |].
  repeat (apply fuel_free_bind;
          [first [apply fuel_free_lift | apply fuel_free_modify
                 | apply fuel_free_normalize_all | apply fuel_free_rate_limit] |];
          intros ?).
  apply fuel_free_ret.
Qed.

(** Whatever the remote answers, a pass of the loop ends normally, with
    or without [break]: the [except Exception] clause lets nothing out. *)
Lemma iteration_returns (s : state) :
  exists stop s', iteration s = (Ret stop, s').
Proof.
  unfold FetchRepoDetails.iteration, try_except.
  match goal with |- context [match ?c s with _ => _ end] =>
    assert (Hfree : fuel_free c); [| specialize (Hfree s); destruct (c s) as [[b | e |] s1]]
  end.
  - apply fuel_free_bind; [intros s0; discriminate |]. intros c.
    apply fuel_free_bind.
    + intros s0. unfold FetchRepoDetails.post.
      destruct (requests_post c (world s0)) as [[r | e] w]; discriminate.
    + intros r. unfold FetchRepoDetails.on_response.
      destruct (status_code r =? 200);
        [apply fuel_free_process_page | apply fuel_free_ret].
  - eauto.
  - unfold ret. eauto.
  - simpl in Hfree. contradiction.
Qed.

Lemma while_has_next_page_S fuel (s : state) :
  while_has_next_page (S fuel) s =
    if truthy (has_next_page s) then
      match iteration s with
      | (Ret true, s') => (Ret tt, s')
      | (Ret false, s') => while_has_next_page fuel s'
      | (Exc e, s') => (Exc e, s')
      | (OutOfFuel, s') => (OutOfFuel, s')
      end
    else (Ret tt, s).
Proof.
  simpl. unfold bind at 1, gets at 1.
  destruct (truthy (has_next_page s)); [| reflexivity].
  unfold bind at 1. destruct (iteration s) as [[[|] | e |] s']; reflexivity.
Qed.

(** The loop is over once [has_next_page] is false, whatever the fuel. *)
Lemma while_has_next_page_done fuel (s : state) :
  truthy (has_next_page s) = false ->
  while_has_next_page fuel s = (Ret tt, s).
Proof.
  intros H. destruct fuel; simpl; unfold bind, gets; rewrite H; reflexivity.
Qed.

Lemma while_has_next_page_never_raises fuel :
  forall (s : state) e s', while_has_next_page fuel s <> (Exc e, s').
Proof.
  induction fuel as [| fuel IH]; intros s e s'.
  - simpl. unfold bind, gets.
    destruct (truthy (has_next_page s)); discriminate.
  - rewrite while_has_next_page_S.
    destruct (truthy (has_next_page s)); [| discriminate].
    destruct (iteration_returns s) as (stop & s1 & ->).
    destruct stop; [discriminate | apply IH].
Qed.

Lemma fetch_data_run fuel (s : state) :
  fetch_data fuel s =
    match while_has_next_page fuel (started s) with
    | (Ret _, s') => (Ret (repo_data s'), s')
    | (Exc e, s') => (Exc e, s')
    | (OutOfFuel, s') => (OutOfFuel, s')
    end.
Proof.
  unfold FetchRepoDetails.fetch_data, bind, set_has_next_page, set_cursor,
    set_repo_data, modify, gets, FetchRepoDetails.started. simpl.
  destruct (while_has_next_page fuel _) as [[[] | e |] s']; reflexivity.
Qed.

Lemma fetch_data_never_raises fuel (s : state) e s' :
  fetch_data fuel s <> (Exc e, s').
Proof.
  rewrite fetch_data_run.
  destruct (while_has_next_page fuel (started s)) as [[[] | e0 |] s0] eqn:E;
    try discriminate.
  exfalso. exact (while_has_next_page_never_raises _ _ _ _ E).
Qed.

(** The main block writes the file exactly when [fetch_data] returned at
    least one row. *)
Lemma main_run fuel (s : state) :
  main fuel s =
    match fetch_data fuel s with
    | (Ret [], s') => (Ret tt, s')
    | (Ret (r :: rs), s') => (Ret tt, written s' (r :: rs))
    | (Exc e, s') => (Exc e, s')
    | (OutOfFuel, s') => (OutOfFuel, s')
    end.
Proof.
  unfold FetchRepoDetails.main, bind.
  destruct (fetch_data fuel s) as [[[| r rs] | e |] s']; reflexivity.
Qed.

(** ** The cursor paginator, one page at a time *)

Local Abbreviation pages_fetched :=
  (pages_fetched World requests_post time_time int_of_str).

Lemma pages_fetched_run (s s' : state) :
  pages_fetched s s' ->
  exists n, forall fuel,
    while_has_next_page (n + fuel) s = while_has_next_page fuel s'.
Proof.
  induction 1 as [| s s1 s' Hnext Hiter _ [n IH]].
  - exists O. reflexivity.
  - exists (S n). intros fuel.
    change (S n + fuel)%nat with (S (n + fuel)).
    rewrite while_has_next_page_S, Hnext, Hiter. apply IH.
Qed.

(** A page whose rate-limit block goes through: the loop makes a further
    call exactly when the page's [hasNextPage] is true, and makes it with
    the page's [endCursor]; otherwise it ends after this call. *)
Lemma cursor_pagination_step fuel (s : state) r w rows hnp c s2 :
  truthy (has_next_page s) = true ->
  requests_post (cursor s) (world s) = (Ok r, w) ->
  is_page r rows hnp c ->
  rate_limit r (turned s w rows hnp c) = (Ret tt, s2) ->
  (truthy hnp = false -> while_has_next_page (S fuel) s = (Ret tt, s2)) /\
  (truthy hnp = true ->
   while_has_next_page (S (S fuel)) s =
     bind (try_except (bind (post c) on_response) (fun _ => ret true))
          (fun stop => if stop then ret tt else while_has_next_page fuel) s2).
Proof.
  intros Hnext Hpost Hpage Hrate.
  pose proof (iteration_page _ _ _ _ _ _ Hpost Hpage) as Hiter.
  rewrite Hrate in Hiter.
  destruct (rate_limit_locals _ _ _ _ Hrate) as (Hh & Hc & _).
  simpl in Hh, Hc.
  split; intros Hhnp.
  - rewrite while_has_next_page_S, Hnext, Hiter.
    apply while_has_next_page_done. rewrite Hh. exact Hhnp.
  - rewrite while_has_next_page_S, Hnext, Hiter.
    rewrite while_has_next_page_S, Hh, Hhnp.
    assert (Hpass : iteration s2 =
                    try_except (bind (post c) on_response) (fun _ => ret true) s2).
    { unfold FetchRepoDetails.iteration, try_except, bind, gets.
      rewrite Hc. reflexivity. }
    rewrite Hpass.
    match goal with
    | |- _ = bind ?X ?k s2 =>
        change (bind X k s2) with
          (match X s2 with
           | (Ret a, s') => k a s'
           | (Exc e, s') => (Exc e, s')
           | (OutOfFuel, s') => (OutOfFuel, s')
           end)
    end.
    destruct (try_except _ _ s2) as [[[|] | e |] s3]; reflexivity.
Qed.

(** A page whose rate-limit block raises: the loop ends there, whatever
    the page's [hasNextPage] says. *)
Lemma rate_limit_fault_breaks fuel (s : state) r w rows hnp c e s2 :
  truthy (has_next_page s) = true ->
  requests_post (cursor s) (world s) = (Ok r, w) ->
  is_page r rows hnp c ->
  rate_limit r (turned s w rows hnp c) = (Exc e, s2) ->
  while_has_next_page (S fuel) s = (Ret tt, s2).
Proof.
  intros Hnext Hpost Hpage Hrate.
  rewrite while_has_next_page_S, Hnext,
    (iteration_page _ _ _ _ _ _ Hpost Hpage), Hrate.
  reflexivity.
Qed.

(** ** The specified behaviour of fetch_repo_details.py *)

(** C8, amended. A fatal reply (an exception from the POST, a status
    other than 200, a body that is not JSON, or a payload with an
    [errors] key) after any number of pages: [fetch_data] makes that one
    call and no other, and returns the rows accumulated so far; the main
    block then writes the output file with these rows if there is at
    least one, and writes nothing if there is none. And whatever the
    remote answers, neither [fetch_data] nor the main block raises. *)
Theorem fatal_keeps_partial_results (s0 s1 : state) reply w :
  pages_fetched (started s0) s1 ->
  truthy (has_next_page s1) = true ->
  requests_post (cursor s1) (world s1) = (reply, w) ->
  fatal reply = true ->
  (exists n, forall fuel, (n < fuel)%nat ->
     fetch_data fuel s0 = (Ret (repo_data s1), called s1 w) /\
     main fuel s0 =
       (Ret tt,
        match repo_data s1 with
        | [] => called s1 w
        | _ :: _ => written (called s1 w) (repo_data s1)
        end)) /\
  (forall fuel s e s',
     fetch_data fuel s <> (Exc e, s') /\ main fuel s <> (Exc e, s')).
Proof.
  intros Hpages Hnext Hpost Hfatal. split.
  - destruct (pages_fetched_run _ _ Hpages) as [n Hn].
    exists n. intros fuel Hlt.
    assert (Hfetch : fetch_data fuel s0 = (Ret (repo_data s1), called s1 w)).
    { replace fuel with (n + S (fuel - S n))%nat by lia.
      rewrite fetch_data_run, Hn, while_has_next_page_S, Hnext,
        (iteration_fatal _ _ _ Hpost Hfatal).
      reflexivity. }
    split; [exact Hfetch |].
    rewrite main_run, Hfetch. simpl repo_data.
    destruct (repo_data s1); reflexivity.
  - intros fuel s e s'. split; [apply fetch_data_never_raises |].
    rewrite main_run.
    destruct (fetch_data fuel s) as [[[| r rs] | e0 |] s2] eqn:E;
      try discriminate.
    exfalso. exact (fetch_data_never_raises _ _ _ _ E).
Qed.

(** A page sent with fewer than ten requests left and a reset time that
    the clock has passed by more than five seconds: the sleep is given a
    negative length and raises (a [ValueError], or an [OverflowError]
    when the length is out of range), the handler breaks, and the loop
    ends without the call for the next page. *)
Lemma stale_reset_breaks fuel (s : state) r w rows hnp c
      remaining reset_time t w1 t' w2 :
  truthy (has_next_page s) = true ->
  requests_post (cursor s) (world s) = (Ok r, w) ->
  is_page r rows hnp c ->
  remaining_of r = Ok remaining -> remaining < 10 ->
  time_time w = (t, w1) ->
  reset_of r t = Ok reset_time ->
  time_time w1 = (t', w2) ->
  (inject_Z reset_time + 5 < t')%Q ->
  while_has_next_page (S fuel) s = (Ret tt, moved (turned s w rows hnp c) w2).
Proof.
  intros Hnext Hpost Hpage Hrem Hlow Ht Hreset Ht' Hstale.
  assert (Hrate : exists e,
             rate_limit r (turned s w rows hnp c)
             = (Exc e, moved (turned s w rows hnp c) w2)).
  { rewrite rate_limit_run, Hrem.
    apply Z.ltb_lt in Hlow. rewrite Hlow. simpl world.
    rewrite Ht, Hreset, Ht'. cbv zeta.
    destruct (Qle_bool (- sleep_max) (inject_Z reset_time - t' + 5)
              && Qle_bool (inject_Z reset_time - t' + 5) sleep_max);
      [| eexists; reflexivity].
    destruct (Qle_bool 0 (inject_Z reset_time - t' + 5)) eqn:E;
      [| eexists; reflexivity].
    apply Qle_bool_iff in E. lra. }
  destruct Hrate as [e Hrate].
  apply (rate_limit_fault_breaks fuel s r w rows hnp c e); assumption.
Qed.

End Facts.

(** ** Concrete runs against the scripted remote *)

Local Abbreviation fetch_data :=
  (fetch_data Demo.fetch_world Demo.requests_post Demo.time_time Demo.int_of_str).
Local Abbreviation main :=
  (main Demo.fetch_world Demo.requests_post Demo.time_time Demo.ORG_NAME
     Demo.int_of_str).
Local Abbreviation iteration :=
  (iteration Demo.fetch_world Demo.requests_post Demo.time_time Demo.int_of_str).
Local Abbreviation pages_fetched :=
  (pages_fetched Demo.fetch_world Demo.requests_post Demo.time_time
     Demo.int_of_str).
Local Abbreviation started := (started Demo.fetch_world).
Local Abbreviation called := (called Demo.fetch_world).
Local Abbreviation written := (written Demo.fetch_world Demo.ORG_NAME).

(** C1, on a concrete run. The remote has two pages; the first says
    [hasNextPage = true] with [endCursor = "c1"] and is sent with five
    requests left and a reset time of 1000. With the clock at 900 the
    run sleeps 105 seconds and fetches the second page with cursor
    ["c1"]. With the clock at 2000 it ends after the first call: one row,
    one POST, the second page never asked for. *)
Theorem stale_reset_stops_pagination :
  is_page (Demo.page Demo.throttled [Demo.node_full] true (JStr "c1"))
          [Demo.row_alpha] (JBool true) (JStr "c1") /\
  (let run := fetch_data 5 (Demo.fetch_state Demo.two_pages 900) in
   fst run = Ret [Demo.row_alpha; Demo.row_beta] /\
   trace (snd run) = [EvPost JNull; EvSleep 105; EvPost (JStr "c1")]) /\
  (let run := fetch_data 5 (Demo.fetch_state Demo.two_pages 2000) in
   fst run = Ret [Demo.row_alpha] /\
   trace (snd run) = [EvPost JNull] /\
   fst (world (snd run)) = [Ok (Demo.page Demo.relaxed [Demo.node_empty] false JNull)]).
Proof.
  split; [| split].
  - econstructor; reflexivity.
  - split; reflexivity.
  - repeat split; reflexivity.
Qed.

(** C8, as stated, fails: a page with one repository, then a payload
    with an [errors] key; the run writes the output file with the one
    row it had. *)
Lemma fatal_run_counterexample :
  Demo.page_then_error
    = [Ok (Demo.page Demo.relaxed [Demo.node_full] true (JStr "c1"));
       Ok Demo.query_error] /\
  fatal (Ok Demo.query_error) = true /\
  fst (main 5 (Demo.fetch_state Demo.page_then_error 0)) = Ret tt /\
  trace (snd (main 5 (Demo.fetch_state Demo.page_then_error 0))) =
    [EvPost JNull; EvPost (JStr "c1");
     EvWriteCsv "acme_repository_details.csv" fieldnames [Demo.row_alpha]].
Proof. repeat split; reflexivity. Qed.

(** The same run, through the theorem: one page fetched, then the fatal
    reply. *)
Lemma fatal_keeps_partial_results_witness :
  let s0 := Demo.fetch_state Demo.page_then_error 0 in
  let s1 := snd (iteration (started s0)) in
  pages_fetched (started s0) s1 /\
  truthy (has_next_page s1) = true /\
  Demo.requests_post (cursor s1) (world s1) = (Ok Demo.query_error, ([], 0%Q)) /\
  fatal (Ok Demo.query_error) = true /\
  exists n, forall fuel, (n < fuel)%nat ->
    fetch_data fuel s0 = (Ret [Demo.row_alpha], called s1 ([], 0%Q)) /\
    main fuel s0 = (Ret tt, written (called s1 ([], 0%Q)) [Demo.row_alpha]).
Proof.
  intros s0 s1.
  assert (Hpages : pages_fetched (started s0) s1).
  { eapply pages_fetched_cons; [reflexivity | reflexivity |].
    apply pages_fetched_nil. }
  refine (conj Hpages (conj eq_refl (conj eq_refl (conj eq_refl _)))).
  exact (proj1 (fatal_keeps_partial_results Demo.fetch_world Demo.requests_post
                  Demo.time_time Demo.ORG_NAME Demo.int_of_str
                  s0 s1 (Ok Demo.query_error) ([], 0%Q)
                  Hpages eq_refl eq_refl eq_refl)).
Defined.

End FetchFacts.

(* ================================================================== *)
(** * Further properties of lfs-repos.py                                *)
(* ================================================================== *)

Module LfsMore.
Import LfsRepos.

(** ** Substrings *)

Lemma prefix_iff (a b : string) :
  String.prefix a b = true <-> exists post, b = (a ++ post)%string.
Proof.
  revert b. induction a as [| c a IH]; intros b.
  - split; [intros _; exists b; reflexivity | intros _; destruct b; reflexivity].
  - destruct b as [| c' b]; simpl.
    + split; [discriminate | intros [post H]; discriminate].
    + destruct (Ascii.ascii_dec c c') as [<- | Hne].
      * rewrite IH. split; intros [post H]; exists post.
        -- rewrite H. reflexivity.
        -- inversion H. reflexivity.
      * split; [discriminate |].
        intros [post H]. inversion H. congruence.
Qed.

(** [needle in hay] holds exactly when [hay] is [needle] with something
    before it and something after it. *)
Lemma is_substring_iff (needle hay : string) :
  is_substring needle hay = true <->
  exists pre post, hay = (pre ++ needle ++ post)%string.
Proof.
  assert (Hunfold : forall hay,
             is_substring needle hay =
             if String.prefix needle hay then true
             else match hay with
                  | EmptyString => false
                  | String _ rest => is_substring needle rest
                  end) by (intros []; reflexivity).
  induction hay as [| c hay IH]; rewrite Hunfold.
  - destruct (String.prefix needle "") eqn:E.
    + split; [intros _ | reflexivity].
      apply prefix_iff in E. destruct E as [post E].
      exists ""%string, post. exact E.
    + split; [discriminate |].
      intros (pre & post & H). destruct pre; simpl in H.
      * assert (String.prefix needle "" = true) by (apply prefix_iff; eauto).
        congruence.
      * discriminate.
  - destruct (String.prefix needle (String c hay)) eqn:E.
    + split; [intros _ | reflexivity].
      apply prefix_iff in E. destruct E as [post E].
      exists ""%string, post. exact E.
    + rewrite IH. split.
      * intros (pre & post & ->). exists (String c pre), post. reflexivity.
      * intros (pre & post & H). destruct pre as [| c' pre]; simpl in H.
        -- assert (String.prefix needle (String c hay) = true)
             by (apply prefix_iff; eauto).
           congruence.
        -- inversion H. eauto.
Qed.

Section Facts.

Variable World : Type.
Variable session_get : string -> World -> result response * World.
Variables GHES_URL ORG_NAME : string.
Variable repr_container : json -> string.
Variable b64decode_utf8 : string -> result string.

Local Abbreviation state := (LfsRepos.state World).
Local Abbreviation attempt := (attempt World session_get).
Local Abbreviation safe_request_from := (safe_request_from World session_get).
Local Abbreviation safe_request := (safe_request World session_get).
Local Abbreviation repos_url := (repos_url GHES_URL).
Local Abbreviation branches_url := (branches_url GHES_URL ORG_NAME repr_container).
Local Abbreviation contents_url := (contents_url GHES_URL ORG_NAME repr_container).
Local Abbreviation repos_page := (repos_page World).
Local Abbreviation branches_page := (branches_page World).
Local Abbreviation get_repositories_from := (get_repositories_from World session_get GHES_URL).
Local Abbreviation get_repositories := (get_repositories World session_get GHES_URL).
Local Abbreviation get_branches_from :=
  (get_branches_from World session_get GHES_URL ORG_NAME repr_container).
Local Abbreviation get_branches :=
  (get_branches World session_get GHES_URL ORG_NAME repr_container).
Local Abbreviation check_lfs_usage :=
  (check_lfs_usage World session_get GHES_URL ORG_NAME repr_container b64decode_utf8).
Local Abbreviation lfs_scan :=
  (lfs_scan World session_get GHES_URL ORG_NAME repr_container b64decode_utf8).
Local Abbreviation audit :=
  (audit World session_get GHES_URL ORG_NAME repr_container b64decode_utf8).
Local Abbreviation audit_all :=
  (audit_all World session_get GHES_URL ORG_NAME repr_container b64decode_utf8).
Local Abbreviation main :=
  (main World session_get GHES_URL ORG_NAME repr_container b64decode_utf8).
Local Abbreviation pages_repos := (pages_repos World session_get GHES_URL).
Local Abbreviation pages_branches :=
  (pages_branches World session_get GHES_URL ORG_NAME repr_container).
Local Abbreviation py_str := (py_str repr_container).
Local Abbreviation listed_repos := (listed_repos World session_get GHES_URL).
Local Abbreviation listed_branches :=
  (listed_branches World session_get GHES_URL ORG_NAME repr_container).
Local Abbreviation emits := (emits World).

(** ** The retry loop *)

Lemma gets_of_app evs1 evs2 :
  gets_of (evs1 ++ evs2) = gets_of evs1 ++ gets_of evs2.
Proof.
  induction evs1 as [| [url | n | f rows] rest IH]; simpl; congruence.
Qed.

(** One pass records its GET and at most one pause. *)
Lemma attempt_trace url (s : state) :
  exists tail,
    trace (snd (attempt url s)) = trace s ++ EvGet url :: tail /\
    (tail = [] \/ tail = [EvSleep 3] \/ tail = [EvSleep 5]).
Proof.
  destruct (session_get url (world s)) as [reply w] eqn:Hget.
  rewrite (LfsFacts.attempt_reply World session_get url s reply w Hget).
  destruct reply as [r | e].
  - destruct (status_code r =? 404); [exists []; simpl; auto |].
    destruct (is_http_error (status_code r));
      [exists [EvSleep 3] | exists []]; simpl; auto.
  - destruct (transient e); [exists [EvSleep 5]; simpl; auto |].
    destruct (is_RequestException e);
      [exists [EvSleep 3] | exists []]; simpl; auto.
Qed.

Lemma safe_request_from_trace url attempts :
  forall s : state,
  exists evs,
    trace (snd (safe_request_from url attempts s)) = trace s ++ evs /\
    Forall (retry_event url) evs /\
    (List.length (gets_of evs) <= List.length attempts)%nat /\
    (attempts <> [] -> (1 <= List.length (gets_of evs))%nat).
Proof.
  induction attempts as [| a rest IH]; intros s.
  - exists []. simpl. rewrite app_nil_r.
    split; [reflexivity |]. split; [constructor |].
    split; [lia | intros H; contradiction].
  - rewrite LfsFacts.safe_request_from_cons.
    destruct (attempt_trace url s) as (tail & Htrace & Htail).
    assert (Hev : Forall (retry_event url) (EvGet url :: tail)).
    { constructor; [left; reflexivity |].
      destruct Htail as [-> | [-> | ->]].
      - constructor.
      - constructor; [right; left; reflexivity | constructor].
      - constructor; [right; right; reflexivity | constructor]. }
    assert (Hgets : gets_of (EvGet url :: tail) = [url]).
    { destruct Htail as [-> | [-> | ->]]; reflexivity. }
    destruct (attempt url s) as [[[r |] | e |] s1]; simpl in Htrace.
    2: { destruct (IH s1) as (evs & Hevs & Hall & Hle & _).
         exists ((EvGet url :: tail) ++ evs).
         rewrite Hevs, Htrace, <- app_assoc.
         split; [reflexivity |]. split; [apply Forall_app; auto |].
         rewrite gets_of_app, Hgets. simpl. split; [lia | intros _; lia]. }
    all: exists (EvGet url :: tail); simpl snd; rewrite Hgets; simpl;
      repeat split; auto; lia.
Qed.

(** X1. One call of [safe_request url] only adds to the trace, and what
    it adds is at least one and at most three GETs, every one of them for
    [url], and pauses of three or five seconds; it asks for no other URL
    and writes no file. *)
Theorem safe_request_bounded url (s : state) :
  exists evs,
    trace (snd (safe_request url s)) = trace s ++ evs /\
    Forall (retry_event url) evs /\
    (1 <= List.length (gets_of evs) <= 3)%nat.
Proof.
  destruct (safe_request_from_trace url (seq 0 3) s) as (evs & H1 & H2 & H3 & H4).
  exists evs. repeat split; auto. apply H4. discriminate.
Qed.

Lemma safe_request_from_usable url attempts :
  forall (s : state) r s',
    safe_request_from url attempts s = (Ret (Some r), s') ->
    rejected (status_code r) = false.
Proof.
  induction attempts as [| a rest IH]; intros s r s' H.
  - discriminate.
  - rewrite LfsFacts.safe_request_from_cons in H.
    destruct (session_get url (world s)) as [reply w] eqn:Hget.
    rewrite (LfsFacts.attempt_reply World session_get url s reply w Hget) in H.
    unfold rejected.
    destruct reply as [r0 | e].
    + destruct (status_code r0 =? 404) eqn:E404.
      * inversion H; subst. rewrite E404. apply andb_false_r.
      * destruct (is_http_error (status_code r0)) eqn:Eerr.
        -- fold (rejected (status_code r)). eauto.
        -- inversion H; subst. rewrite Eerr. reflexivity.
    + fold (rejected (status_code r)).
      destruct (transient e); [eauto |].
      destruct (is_RequestException e); [eauto | discriminate].
Qed.

(** X2. A response that [safe_request] hands back is never an error
    status other than 404: it is either a 404 or a response the library
    counts as [ok]. So the only response the callers' [if not response]
    treats like [None] is a 404. *)
Theorem safe_request_hands_back_usable url (s : state) r s' :
  safe_request url s = (Ret (Some r), s') ->
  rejected (status_code r) = false /\
  (response_truthy (Some r) = false <-> status_code r = 404).
Proof.
  clear GHES_URL ORG_NAME repr_container b64decode_utf8.
  intros H. apply safe_request_from_usable in H. split; [exact H |].
  unfold rejected in H. simpl. unfold ok.
  destruct (status_code r =? 404) eqn:E.
  - apply Z.eqb_eq in E. rewrite E. simpl. tauto.
  - rewrite andb_true_r in H. rewrite H. simpl.
    apply Z.eqb_neq in E. split; [discriminate | contradiction].
Qed.

(** X3. A failed first attempt is made good by the second: after a reply
    that sends the loop round again (a timeout, a connection error, an
    error status other than 404), a reply that is a 404 or not an error
    is returned, after two GETs and the one pause between them. *)
Theorem safe_request_recovers url (s : state) reply1 w1 d r w2 :
  session_get url (world s) = (reply1, w1) ->
  retry_delay reply1 = Some d ->
  session_get url w1 = (Ok r, w2) ->
  rejected (status_code r) = false ->
  safe_request url s =
    (Ret (Some r), logged s w2 [EvGet url; EvSleep d; EvGet url]).
Proof.
  intros G1 D1 G2 R2.
  unfold LfsRepos.safe_request. simpl seq.
  rewrite LfsFacts.safe_request_from_cons,
    (LfsFacts.attempt_retry World session_get url s reply1 w1 d G1 D1).
  rewrite LfsFacts.safe_request_from_cons,
    (LfsFacts.attempt_reply World session_get url (logged s w1 _) (Ok r) w2 G2).
  unfold rejected in R2.
  destruct (status_code r =? 404).
  - rewrite LfsFacts.logged_logged. reflexivity.
  - rewrite andb_true_r in R2. rewrite R2, LfsFacts.logged_logged. reflexivity.
Qed.

(** X4. An exception that is not one of the requests library is not
    retried: it leaves [safe_request] after the one GET, and leaves the
    paginators and the probe with it, since none of them catches it. *)
Theorem foreign_exception_propagates url (s : state) e w :
  session_get url (world s) = (Error e, w) ->
  is_RequestException e = false ->
  let s' := logged s w [EvGet url] in
  safe_request url s = (Exc e, s') /\
  (forall fuel org page repos,
      url = repos_url org page ->
      get_repositories_from (S fuel) org page repos s = (Exc e, s')) /\
  (forall fuel repo_name page branches,
      url = branches_url repo_name page ->
      get_branches_from (S fuel) repo_name page branches s = (Exc e, s')) /\
  (forall repo_name branch,
      url = contents_url repo_name branch ->
      check_lfs_usage repo_name branch s = (Exc e, s')).
Proof.
  intros Hget Hforeign s'.
  assert (Hraise : safe_request url s = (Exc e, s')).
  { unfold LfsRepos.safe_request. simpl seq.
    rewrite LfsFacts.safe_request_from_cons,
      (LfsFacts.attempt_reply World session_get url s _ w Hget).
    assert (Ht : transient e = false) by (destruct e; try discriminate; reflexivity).
    rewrite Ht, Hforeign. reflexivity. }
  split; [exact Hraise |]. split; [| split].
  - intros fuel org page repos ->.
    rewrite LfsFacts.get_repositories_from_S. unfold bind. rewrite Hraise.
    reflexivity.
  - intros fuel repo_name page branches ->.
    rewrite LfsFacts.get_branches_from_S. unfold bind. rewrite Hraise.
    reflexivity.
  - intros repo_name branch ->.
    rewrite LfsFacts.check_lfs_usage_run, Hraise. reflexivity.
Qed.

(** ** The offset paginators, whole runs *)

Lemma repos_run_then org page repos (s : state) page' repos' s' x :
  pages_repos org page repos s page' repos' s' ->
  (forall fuel, get_repositories_from (S fuel) org page' repos' s' = x) ->
  exists n, forall fuel, (n < fuel)%nat ->
    get_repositories_from fuel org page repos s = x.
Proof.
  intros Hpages Hlast.
  destruct (LfsFacts.pages_repos_run _ _ _ _ _ _ _ _ _ _ Hpages) as [n Hn].
  exists n. apply LfsFacts.enough_fuel. intros fuel. rewrite Hn. apply Hlast.
Qed.

Lemma branches_run_then repo_name page branches (s : state) page' branches' s' x :
  pages_branches repo_name page branches s page' branches' s' ->
  (forall fuel, get_branches_from (S fuel) repo_name page' branches' s' = x) ->
  exists n, forall fuel, (n < fuel)%nat ->
    get_branches_from fuel repo_name page branches s = x.
Proof.
  intros Hpages Hlast.
  destruct (LfsFacts.pages_branches_run _ _ _ _ _ _ _ _ _ _ _ _ Hpages) as [n Hn].
  exists n. apply LfsFacts.enough_fuel. intros fuel. rewrite Hn. apply Hlast.
Qed.

(** X5. A 404 in the middle of a listing ends it like an empty page
    does: [safe_request] hands the response back, [if not response] is
    taken because a 404 response is falsy, and the paginator returns what
    it started with followed by the entries of the pages fetched before
    (for [get_branches]: their names), in the order they came, making no
    further call. *)
Theorem not_found_ends_listing page (s : state) page' s' r s'' :
  ok r = false ->
  (forall org repos pages,
      listed_repos org page repos s pages page' s' ->
      safe_request
        (GHES_URL ++ "/orgs/" ++ org ++ "/repos?per_page=100&page="
           ++ str_int page') s' = (Ret (Some r), s'') ->
      forall fuel, (List.length pages < fuel)%nat ->
        get_repositories_from fuel org page repos s
          = (Ret (repos ++ List.concat pages), s'')) /\
  (forall repo_name branches pages,
      listed_branches repo_name page s pages page' s' ->
      safe_request
        (GHES_URL ++ "/repos/" ++ ORG_NAME ++ "/" ++ py_str repo_name
           ++ "/branches?per_page=100&page=" ++ str_int page') s'
        = (Ret (Some r), s'') ->
      forall fuel, (List.length pages < fuel)%nat ->
        get_branches_from fuel repo_name page branches s
          = (Ret (branches ++ List.concat pages), s'')).
Proof.
  intros Hok. split.
  - intros org repos pages Hpages Hcall.
    change (safe_request (repos_url org page') s' = (Ret (Some r), s''))
      in Hcall.
    apply LfsFacts.enough_fuel. intros fuel.
    rewrite LfsFacts.listed_repos_run with (1 := Hpages).
    rewrite LfsFacts.get_repositories_from_S. unfold bind. rewrite Hcall.
    apply LfsFacts.repos_page_falsy. exact Hok.
  - intros repo_name branches pages Hpages Hcall.
    change (safe_request (branches_url repo_name page') s' = (Ret (Some r), s''))
      in Hcall.
    apply LfsFacts.enough_fuel. intros fuel.
    rewrite LfsFacts.listed_branches_run with (1 := Hpages).
    rewrite LfsFacts.get_branches_from_S. unfold bind. rewrite Hcall.
    apply LfsFacts.branches_page_falsy. exact Hok.
Qed.

(** X6. A listing is fetched to its end: when the calls for successive
    pages each bring a non-empty page and the next call brings a falsy
    body (an empty list, but also an empty object, [null], [0], [false]
    or an empty string), the paginator returns, given fuel for these
    calls, what it started with followed by the entries of all the pages
    (for [get_branches]: their names) in the order they came, and stops
    at that call. *)
Theorem offset_listing_exhausts page (s : state) page' s' r s'' data :
  ok r = true ->
  json_body r = Some data ->
  truthy data = false ->
  (forall org repos pages,
      listed_repos org page repos s pages page' s' ->
      safe_request
        (GHES_URL ++ "/orgs/" ++ org ++ "/repos?per_page=100&page="
           ++ str_int page') s' = (Ret (Some r), s'') ->
      forall fuel, (List.length pages < fuel)%nat ->
        get_repositories_from fuel org page repos s
          = (Ret (repos ++ List.concat pages), s'')) /\
  (forall repo_name branches pages,
      listed_branches repo_name page s pages page' s' ->
      safe_request
        (GHES_URL ++ "/repos/" ++ ORG_NAME ++ "/" ++ py_str repo_name
           ++ "/branches?per_page=100&page=" ++ str_int page') s'
        = (Ret (Some r), s'') ->
      forall fuel, (List.length pages < fuel)%nat ->
        get_branches_from fuel repo_name page branches s
          = (Ret (branches ++ List.concat pages), s'')).
Proof.
  intros Hok Hbody Hdata. split.
  - intros org repos pages Hpages Hcall.
    change (safe_request (repos_url org page') s' = (Ret (Some r), s''))
      in Hcall.
    apply LfsFacts.enough_fuel. intros fuel.
    rewrite LfsFacts.listed_repos_run with (1 := Hpages).
    rewrite LfsFacts.get_repositories_from_S. unfold bind. rewrite Hcall.
    apply (LfsFacts.repos_page_empty _ _ _ _ _ _ _ Hok Hbody Hdata).
  - intros repo_name branches pages Hpages Hcall.
    change (safe_request (branches_url repo_name page') s' = (Ret (Some r), s''))
      in Hcall.
    apply LfsFacts.enough_fuel. intros fuel.
    rewrite LfsFacts.listed_branches_run with (1 := Hpages).
    rewrite LfsFacts.get_branches_from_S. unfold bind. rewrite Hcall.
    apply (LfsFacts.branches_page_empty _ _ _ _ _ _ _ Hok Hbody Hdata).
Qed.

(** X8. A 2xx response whose body is not JSON makes the paginator raise:
    [response.json()] is outside any [try], so the [JSONDecodeError]
    leaves [get_repositories] or [get_branches], and the items of the
    pages fetched before are not returned. *)
Theorem non_json_page_raises page (s : state) page' s' r s'' :
  ok r = true ->
  json_body r = None ->
  (forall org repos repos',
      pages_repos org page repos s page' repos' s' ->
      safe_request (repos_url org page') s' = (Ret (Some r), s'') ->
      exists n, forall fuel, (n < fuel)%nat ->
        get_repositories_from fuel org page repos s = (Exc JSONDecodeError, s'')) /\
  (forall repo_name branches branches',
      pages_branches repo_name page branches s page' branches' s' ->
      safe_request (branches_url repo_name page') s' = (Ret (Some r), s'') ->
      exists n, forall fuel, (n < fuel)%nat ->
        get_branches_from fuel repo_name page branches s = (Exc JSONDecodeError, s'')).
Proof.
  intros Hok Hbody. split.
  - intros org repos repos' Hpages Hcall.
    apply (repos_run_then _ _ _ _ _ _ _ _ Hpages). intros fuel.
    rewrite LfsFacts.get_repositories_from_S. unfold bind at 1. rewrite Hcall.
    unfold LfsRepos.repos_page, response_json, bind. simpl.
    rewrite Hok, Hbody. reflexivity.
  - intros repo_name branches branches' Hpages Hcall.
    apply (branches_run_then _ _ _ _ _ _ _ _ Hpages). intros fuel.
    rewrite LfsFacts.get_branches_from_S. unfold bind at 1. rewrite Hcall.
    unfold LfsRepos.branches_page, response_json, bind. simpl.
    rewrite Hok, Hbody. reflexivity.
Qed.

Lemma names_of_missing good item rest names e :
  names_of good = Ok names ->
  getitem item "name" = Error e ->
  names_of (good ++ item :: rest) = Error e.
Proof.
  revert names. induction good as [| g good IH]; intros names Hgood Hitem; simpl.
  - rewrite Hitem. reflexivity.
  - simpl in Hgood.
    destruct (getitem g "name") as [n |]; simpl in *; [| discriminate].
    destruct (names_of good) as [ns |]; simpl in *; [| discriminate].
    rewrite (IH ns eq_refl Hitem). reflexivity.
Qed.

(** X9. A page of branches in which some entry has no [name] (or is not
    an object) makes [get_branches] raise the lookup's [KeyError] or
    [TypeError] after that call; neither the names read from this page
    nor those of the pages before are returned. *)
Theorem branch_without_name_raises repo_name page branches (s : state)
      page' branches' s' r s'' good item rest names e :
  pages_branches repo_name page branches s page' branches' s' ->
  safe_request (branches_url repo_name page') s' = (Ret (Some r), s'') ->
  ok r = true ->
  json_body r = Some (JArr (good ++ item :: rest)) ->
  names_of good = Ok names ->
  getitem item "name" = Error e ->
  exists n, forall fuel, (n < fuel)%nat ->
    get_branches_from fuel repo_name page branches s = (Exc e, s'').
Proof.
  intros Hpages Hcall Hok Hbody Hgood Hitem.
  apply (branches_run_then _ _ _ _ _ _ _ _ Hpages). intros fuel.
  rewrite LfsFacts.get_branches_from_S. unfold bind at 1. rewrite Hcall.
  unfold LfsRepos.branches_page, response_json. simpl.
  rewrite Hok, Hbody. simpl. unfold bind at 1, ret at 1.
  assert (Htruthy : truthy (JArr (good ++ item :: rest)) = true)
    by (destruct good; reflexivity).
  assert (Hnames : branch_names (JArr (good ++ item :: rest)) = Error e)
    by (apply (names_of_missing _ _ _ _ _ Hgood Hitem)).
  rewrite Htruthy, Hnames. reflexivity.
Qed.

(** X7. Whatever the remote answers, a paginator that returns hands
    back the list it was resumed with, extended at the end: pages are only
    ever appended, never dropped or put in front. *)
Theorem paginators_only_append fuel :
  (forall org page repos (s : state) out s',
      get_repositories_from fuel org page repos s = (Ret out, s') ->
      exists more, out = repos ++ more) /\
  (forall repo_name page branches (s : state) out s',
      get_branches_from fuel repo_name page branches s = (Ret out, s') ->
      exists more, out = branches ++ more).
Proof.
  induction fuel as [| fuel [IHr IHb]]; split; try discriminate.
  - intros org page repos s out s' H.
    rewrite LfsFacts.get_repositories_from_S in H. unfold bind at 1 in H.
    destruct (safe_request (repos_url org page) s) as [[response | e |] s1];
      try discriminate.
    unfold LfsRepos.repos_page in H.
    destruct (negb (response_truthy response)).
    { inversion H. exists []. rewrite app_nil_r. reflexivity. }
    destruct response as [r |].
    2: { inversion H. exists []. rewrite app_nil_r. reflexivity. }
    unfold bind at 1, response_json in H.
    destruct (json_body r) as [data |]; [| discriminate].
    unfold ret at 1 in H.
    destruct (negb (truthy data)).
    { inversion H. exists []. rewrite app_nil_r. reflexivity. }
    unfold bind at 1, extend in H.
    destruct (py_iter data) as [items | e]; [| discriminate].
    simpl lift in H. unfold ret at 1 in H.
    unfold bind at 1 in H. rewrite LfsFacts.repos_delay_run in H.
    apply IHr in H. destruct H as [more ->].
    exists (items ++ more). rewrite app_assoc. reflexivity.
  - intros repo_name page branches s out s' H.
    rewrite LfsFacts.get_branches_from_S in H. unfold bind at 1 in H.
    destruct (safe_request (branches_url repo_name page) s)
      as [[response | e |] s1]; try discriminate.
    unfold LfsRepos.branches_page in H.
    destruct (negb (response_truthy response)).
    { inversion H. exists []. rewrite app_nil_r. reflexivity. }
    destruct response as [r |].
    2: { inversion H. exists []. rewrite app_nil_r. reflexivity. }
    unfold bind at 1, response_json in H.
    destruct (json_body r) as [data |]; [| discriminate].
    unfold ret at 1 in H.
    destruct (negb (truthy data)).
    { inversion H. exists []. rewrite app_nil_r. reflexivity. }
    unfold bind at 1 in H.
    destruct (branch_names data) as [names | e]; [| discriminate].
    simpl lift in H. unfold ret at 1 in H.
    unfold bind at 1, sleep, emit, modify in H.
    apply IHb in H. destruct H as [more ->].
    exists (names ++ more). rewrite app_assoc. reflexivity.
Qed.

(** ** The probe *)

(** X10. Handed a response by [safe_request], the probe answers true
    exactly when the status is 200, the body is a JSON object whose
    [content] is a string, that string decodes, and the decoded text has
    ["filter=lfs"] somewhere in it; in every other case (another status, a
    body that is not JSON or not an object, content that is missing, not
    a string or not decodable) it answers false, and it never raises. *)
Theorem probe_true_iff repo_name branch (s : state) r s1 :
  safe_request (contents_url repo_name branch) s = (Ret (Some r), s1) ->
  (check_lfs_usage repo_name branch s = (Ret true, s1) <->
   status_code r = 200 /\
   exists v content pre post,
     json_body r = Some v /\
     dict_get v "content" (JStr "") = Ok (JStr content) /\
     b64decode_utf8 content = Ok (pre ++ "filter=lfs" ++ post)%string) /\
  (check_lfs_usage repo_name branch s = (Ret true, s1) \/
   check_lfs_usage repo_name branch s = (Ret false, s1)).
Proof.
  intros Hcall.
  rewrite (LfsFacts.check_lfs_usage_run World session_get GHES_URL ORG_NAME
             repr_container b64decode_utf8), Hcall.
  split.
  2: { destruct (attributes_has_marker b64decode_utf8 r); auto. }
  unfold attributes_has_marker. split.
  - intros H.
    match type of H with
    | (Ret ?b, _) = _ => assert (Hm : b = true) by congruence
    end.
    clear H. apply andb_true_iff in Hm.
    destruct Hm as [H200 Hm]. apply Z.eqb_eq in H200. split; [exact H200 |].
    destruct (json_body r) as [v |]; [| discriminate].
    destruct (dict_get v "content" (JStr "")) as [c | e] eqn:Hc; simpl in Hm;
      [| discriminate].
    destruct c as [| | | content | |]; simpl in Hm; try discriminate.
    destruct (b64decode_utf8 content) as [decoded | e] eqn:Hd; [| discriminate].
    apply is_substring_iff in Hm. destruct Hm as (pre & post & ->).
    exists v, content, pre, post. repeat split; assumption.
  - intros (H200 & v & content & pre & post & Hv & Hc & Hd).
    rewrite H200, Hv, Hc. simpl. rewrite Hd.
    assert (Hm : is_substring "filter=lfs" (pre ++ "filter=lfs" ++ post) = true)
      by (apply is_substring_iff; eauto).
    rewrite Hm. reflexivity.
Qed.

(** ** The run as a whole *)

(** What a row that [audit] returns holds. *)
Lemma audit_inv fuel index repo (s : state) r s' :
  audit fuel index repo s = (Ret r, s') ->
  exists branches,
    getitem repo "name" = Ok (fst (fst r)) /\
    py_join ", " branches = Ok (snd (fst r)) /\
    (snd r = "Yes"%string \/ snd r = "No"%string).
Proof.
  unfold LfsRepos.audit. intros H.
  destruct (getitem repo "name") as [name | e]; [| discriminate].
  unfold lift at 1, bind at 1, ret at 1 in H.
  unfold bind at 1 in H.
  destruct (get_branches fuel name s) as [[branches | e |] s1]; try discriminate.
  unfold bind at 1 in H.
  destruct (lfs_scan name branches s1) as [[used | e |] s2] eqn:Hscan;
    try discriminate.
  destruct (format_padded name) as [[] | e]; [| discriminate].
  unfold lift at 1, bind at 1, ret at 1 in H.
  destruct (py_join ", " branches) as [joined | e] eqn:Hjoin; [| discriminate].
  unfold lift at 1, bind at 1, ret at 1 in H.
  unfold bind in H.
  assert (Hr : r = (name, joined, used)).
  { destruct (index mod 100 =? 0); simpl in H; inversion H; reflexivity. }
  subst r. exists branches. simpl.
  repeat split; auto.
  exact (LfsFacts.lfs_scan_yes_no _ _ _ _ _ _ _ _ _ _ _ Hscan).
Qed.

(** X11. When the loop of [main] over the repositories returns, it has
    appended one row per repository, in the order of the listing: the
    row's first column is that repository's [name], its second a
    comma-joined list of strings, its third "Yes" or "No". *)
Theorem one_row_per_repository fuel repositories :
  forall index results (s : state) out s',
    audit_all fuel index repositories results s = (Ret out, s') ->
    exists rows,
      out = results ++ rows /\
      Forall2 (fun repo (r : row) =>
                 getitem repo "name" = Ok (fst (fst r)) /\
                 (exists branches, py_join ", " branches = Ok (snd (fst r))) /\
                 (snd r = "Yes"%string \/ snd r = "No"%string))
              repositories rows.
Proof.
  induction repositories as [| repo rest IH]; intros index results s out s' H.
  - inversion H. exists []. rewrite app_nil_r. split; [reflexivity | constructor].
  - simpl in H. unfold bind at 1 in H.
    destruct (audit fuel index repo s) as [[r | e |] s1] eqn:Haudit;
      try discriminate.
    apply IH in H. destruct H as (rows & -> & Hrows).
    exists (r :: rows). rewrite <- app_assoc. split; [reflexivity |].
    constructor; [| exact Hrows].
    destruct (audit_inv _ _ _ _ _ _ Haudit) as (branches & Hn & Hj & Hu).
    eauto.
Qed.

(** *** Nothing but [main]'s last step writes the file *)

Lemma emits_ret {A} P (a : A) : emits P (ret a).
Proof. intros s. exists []. simpl. rewrite app_nil_r. auto. Qed.

Lemma emits_raise {A} P e : emits P (@raise state A e).
Proof. intros s. exists []. simpl. rewrite app_nil_r. auto. Qed.

Lemma emits_out_of_fuel {A} P : emits P (@out_of_fuel state A).
Proof. intros s. exists []. simpl. rewrite app_nil_r. auto. Qed.

Lemma emits_lift {A} P (r : result A) : emits P (lift r).
Proof. destruct r; [apply emits_ret | apply emits_raise]. Qed.

Lemma emits_sleep (P : event -> Prop) n : P (EvSleep n) -> emits P (sleep World n).
Proof. intros H s. exists [EvSleep n]. simpl. auto. Qed.

Lemma emits_bind {A B} P (c : M state A) (k : A -> M state B) :
  emits P c -> (forall a, emits P (k a)) -> emits P (bind c k).
Proof.
  intros Hc Hk s. unfold bind.
  destruct (Hc s) as (evs & Ht & Hall).
  destruct (c s) as [[a | e |] s1]; simpl in Ht; eauto.
  destruct (Hk a s1) as (evs' & Ht' & Hall').
  exists (evs ++ evs'). rewrite Ht', Ht, app_assoc.
  split; [reflexivity | apply Forall_app; auto].
Qed.

Lemma emits_try {A} P (c : M state A) (h : exn -> M state A) :
  emits P c -> (forall e, emits P (h e)) -> emits P (try_except c h).
Proof.
  intros Hc Hh s. unfold try_except.
  destruct (Hc s) as (evs & Ht & Hall).
  destruct (c s) as [[a | e |] s1]; simpl in Ht; eauto.
  destruct (Hh e s1) as (evs' & Ht' & Hall').
  exists (evs ++ evs'). rewrite Ht', Ht, app_assoc.
  split; [reflexivity | apply Forall_app; auto].
Qed.

Lemma emits_safe_request url : emits quiet (safe_request url).
Proof.
  intros s.
  destruct (safe_request_from_trace url (seq 0 3) s) as (evs & Ht & Hall & _).
  exists evs. split; [exact Ht |].
  eapply Forall_impl; [| exact Hall].
  intros e [-> | [-> | ->]]; reflexivity.
Qed.

Lemma emits_get_repositories_from fuel :
  forall org page repos, emits quiet (get_repositories_from fuel org page repos).
Proof.
  induction fuel as [| fuel IH]; intros org page repos; simpl.
  - apply emits_out_of_fuel.
  - apply emits_bind; [apply emits_safe_request |]. intros response.
    unfold LfsRepos.repos_page.
    destruct (negb (response_truthy response)); [apply emits_ret |].
    destruct response as [r |]; [| apply emits_ret].
    apply emits_bind.
    { unfold response_json. destruct (json_body r);
        [apply emits_ret | apply emits_raise]. }
    intros data. destruct (negb (truthy data)); [apply emits_ret |].
    apply emits_bind; [apply emits_lift |]. intros repos'.
    apply emits_bind; [| intros _; apply IH].
    unfold repos_delay. apply emits_bind.
    + destruct (_ =? 0); [apply emits_sleep; reflexivity | apply emits_ret].
    + intros _. apply emits_sleep. reflexivity.
Qed.

Lemma emits_get_branches_from fuel :
  forall repo_name page branches,
    emits quiet (get_branches_from fuel repo_name page branches).
Proof.
  induction fuel as [| fuel IH]; intros repo_name page branches; simpl.
  - apply emits_out_of_fuel.
  - apply emits_bind; [apply emits_safe_request |]. intros response.
    unfold LfsRepos.branches_page.
    destruct (negb (response_truthy response)); [apply emits_ret |].
    destruct response as [r |]; [| apply emits_ret].
    apply emits_bind.
    { unfold response_json. destruct (json_body r);
        [apply emits_ret | apply emits_raise]. }
    intros data. destruct (negb (truthy data)); [apply emits_ret |].
    apply emits_bind; [apply emits_lift |]. intros names.
    apply emits_bind; [apply emits_sleep; reflexivity | intros _; apply IH].
Qed.

Lemma emits_check_lfs_usage repo_name branch :
  emits quiet (check_lfs_usage repo_name branch).
Proof.
  unfold LfsRepos.check_lfs_usage.
  apply emits_bind; [apply emits_safe_request |]. intros response.
  destruct (response_truthy response); [| apply emits_ret].
  destruct response as [r |]; [| apply emits_ret].
  destruct (status_code r =? 404); [apply emits_ret |].
  destruct (status_code r =? 200); [| apply emits_ret].
  apply emits_try; [| intros _; apply emits_ret].
  unfold has_marker.
  apply emits_bind.
  { unfold response_json. destruct (json_body r);
      [apply emits_ret | apply emits_raise]. }
  intros v. apply emits_bind; [apply emits_lift |]. intros c.
  apply emits_bind; [apply emits_lift |]. intros d. apply emits_ret.
Qed.

Lemma emits_lfs_scan repo_name branches : emits quiet (lfs_scan repo_name branches).
Proof.
  induction branches as [| b rest IH]; simpl.
  - apply emits_ret.
  - apply emits_bind; [apply emits_check_lfs_usage |].
    intros [|]; [apply emits_ret | exact IH].
Qed.

Lemma emits_audit_all fuel repositories :
  forall index results, emits quiet (audit_all fuel index repositories results).
Proof.
  induction repositories as [| repo rest IH]; intros index results; simpl.
  - apply emits_ret.
  - apply emits_bind; [| intros r; apply IH].
    unfold LfsRepos.audit.
    apply emits_bind; [apply emits_lift |]. intros name.
    apply emits_bind; [apply emits_get_branches_from |]. intros branches.
    apply emits_bind; [apply emits_lfs_scan |]. intros used.
    apply emits_bind; [apply emits_lift |]. intros _.
    apply emits_bind; [apply emits_lift |]. intros joined.
    apply emits_bind; [| intros _; apply emits_ret].
    destruct (_ =? 0); [apply emits_sleep; reflexivity | apply emits_ret].
Qed.

(** X12. The results file is written by the last step of [main] and by
    nothing else. A run of [main] that returns has written it exactly
    once, as its last event; a run that is cut short by an exception
    (a missing [name], a body that is not JSON, a branch name that is not
    a string, ...) has written nothing, whatever had been collected. *)
Theorem main_writes_last fuel (s : state) :
  match main fuel s with
  | (Ret _, s') =>
      exists evs results,
        trace s' = trace s ++ evs ++ [EvWriteCsv (csv_filename ORG_NAME) results] /\
        Forall quiet evs
  | (_, s') =>
      exists evs, trace s' = trace s ++ evs /\ Forall quiet evs
  end.
Proof.
  unfold LfsRepos.main.
  set (collect := bind (get_repositories fuel ORG_NAME)
                       (fun repositories => audit_all fuel 1 repositories [])).
  assert (Hcollect : emits quiet collect).
  { apply emits_bind; [apply emits_get_repositories_from |].
    intros repositories. apply emits_audit_all. }
  assert (Hmain : forall s0,
             bind (get_repositories fuel ORG_NAME)
               (fun repositories =>
                  bind (audit_all fuel 1 repositories [])
                    (fun results => emit World (EvWriteCsv (csv_filename ORG_NAME) results))) s0
             = bind collect
                 (fun results => emit World (EvWriteCsv (csv_filename ORG_NAME) results)) s0).
  { intros s0. unfold collect, bind.
    destruct (get_repositories fuel ORG_NAME s0) as [[repositories | e |] s1];
      reflexivity. }
  rewrite Hmain. unfold bind at 1.
  destruct (Hcollect s) as (evs & Ht & Hall).
  destruct (collect s) as [[results | e |] s1]; simpl in Ht.
  - exists evs, results. simpl. rewrite Ht, app_assoc. auto.
  - exists evs. auto.
  - exists evs. auto.
Qed.

End Facts.

(** ** Concrete runs against the scripted remote *)

Local Abbreviation World := Demo.lfs_world.
Local Abbreviation state0 := Demo.lfs_state.
Local Abbreviation repo := Demo.repo.
Local Abbreviation main_branch := Demo.main_branch.
Local Abbreviation dev_branch := Demo.dev_branch.
Local Abbreviation safe_request := (safe_request World Demo.session_get).
Local Abbreviation branches_url :=
  (branches_url Demo.GHES_URL Demo.ORG_NAME Demo.repr_container).
Local Abbreviation contents_url :=
  (contents_url Demo.GHES_URL Demo.ORG_NAME Demo.repr_container).
Local Abbreviation get_branches_from :=
  (get_branches_from World Demo.session_get Demo.GHES_URL Demo.ORG_NAME
     Demo.repr_container).
Local Abbreviation check_lfs_usage :=
  (check_lfs_usage World Demo.session_get Demo.GHES_URL Demo.ORG_NAME
     Demo.repr_container Demo.b64decode_utf8).
Local Abbreviation audit_all :=
  (audit_all World Demo.session_get Demo.GHES_URL Demo.ORG_NAME
     Demo.repr_container Demo.b64decode_utf8).
Local Abbreviation pages_branches :=
  (pages_branches World Demo.session_get Demo.GHES_URL Demo.ORG_NAME
     Demo.repr_container).

Local Abbreviation get_repositories_from :=
  (get_repositories_from World Demo.session_get Demo.GHES_URL).
Local Abbreviation listed_repos :=
  (listed_repos World Demo.session_get Demo.GHES_URL).
Local Abbreviation listed_branches :=
  (listed_branches World Demo.session_get Demo.GHES_URL Demo.ORG_NAME
     Demo.repr_container).

(** One page of branches, and one page of the organisation's listing,
    fetched from a script that goes on with [script]. *)
Lemma one_branch_page_listed script :
  listed_branches repo 1 (state0 (Ok Demo.branch_page :: script))
    [[main_branch; dev_branch]] 2
    (logged (state0 (Ok Demo.branch_page :: script)) script
       [EvGet "https://ghes.example/api/v3/repos/acme/repo/branches?per_page=100&page=1";
        EvSleep 1]).
Proof.
  eapply listed_branches_cons
    with (r := Demo.branch_page)
         (s1 := logged (state0 (Ok Demo.branch_page :: script)) script
                  [EvGet "https://ghes.example/api/v3/repos/acme/repo/branches?per_page=100&page=1"]);
    [reflexivity | reflexivity | reflexivity | discriminate
    | repeat constructor |].
  apply listed_branches_nil.
Qed.

Lemma one_repository_page_listed script :
  listed_repos "acme" 1 [] (state0 (Ok Demo.repository_page :: script))
    [[Demo.listed_repo]] 2
    (logged (state0 (Ok Demo.repository_page :: script)) script
       [EvGet "https://ghes.example/api/v3/orgs/acme/repos?per_page=100&page=1";
        EvSleep 1]).
Proof.
  eapply listed_repos_cons
    with (r := Demo.repository_page)
         (s1 := logged (state0 (Ok Demo.repository_page :: script)) script
                  [EvGet "https://ghes.example/api/v3/orgs/acme/repos?per_page=100&page=1"]);
    [reflexivity | reflexivity | reflexivity | discriminate |].
  apply listed_repos_nil.
Qed.

(** One page of branches fetched from [script]. *)
Lemma one_page_fetched script :
  let s := state0 (Ok Demo.branch_page :: script) in
  pages_branches repo 1 [] s 2 [main_branch; dev_branch]
    (snd (sleep World 1 (snd (safe_request (branches_url repo 1) s)))).
Proof.
  intros s.
  eapply (pages_branches_cons _ _ _ _ _ _ 1 [] s Demo.branch_page);
    [reflexivity | reflexivity | reflexivity | reflexivity | reflexivity |].
  apply pages_branches_nil.
Qed.

(** A timeout, then a 404. *)
Lemma safe_request_hands_back_usable_witness :
  let s := state0 [Error Timeout; Ok Demo.not_found] in
  let url := contents_url repo main_branch in
  let s' := logged s [] [EvGet url; EvSleep 5; EvGet url] in
  safe_request url s = (Ret (Some Demo.not_found), s') /\
  rejected (status_code Demo.not_found) = false /\
  (response_truthy (Some Demo.not_found) = false <-> status_code Demo.not_found = 404).
Proof.
  intros s url s'.
  assert (H : safe_request url s = (Ret (Some Demo.not_found), s')) by reflexivity.
  exact (conj H (safe_request_hands_back_usable World Demo.session_get url s
                   Demo.not_found s' H)).
Defined.

(** A 403, then the attributes file. *)
Lemma safe_request_recovers_witness :
  let s := state0 [Ok Demo.forbidden; Ok Demo.lfs_attributes] in
  let url := contents_url repo dev_branch in
  Demo.session_get url (world s) = (Ok Demo.forbidden, [Ok Demo.lfs_attributes]) /\
  retry_delay (Ok Demo.forbidden) = Some 3 /\
  Demo.session_get url [Ok Demo.lfs_attributes] = (Ok Demo.lfs_attributes, []) /\
  rejected (status_code Demo.lfs_attributes) = false /\
  safe_request url s =
    (Ret (Some Demo.lfs_attributes), logged s [] [EvGet url; EvSleep 3; EvGet url]).
Proof.
  intros s url.
  refine (conj eq_refl (conj eq_refl (conj eq_refl (conj eq_refl _)))).
  exact (safe_request_recovers World Demo.session_get url s (Ok Demo.forbidden)
           [Ok Demo.lfs_attributes] 3 Demo.lfs_attributes []
           eq_refl eq_refl eq_refl eq_refl).
Defined.

(** An exception from outside the requests library. *)
Lemma foreign_exception_propagates_witness :
  let s := state0 [Error OtherException] in
  let url := contents_url repo main_branch in
  Demo.session_get url (world s) = (Error OtherException, []) /\
  is_RequestException OtherException = false /\
  safe_request url s = (Exc OtherException, logged s [] [EvGet url]) /\
  check_lfs_usage repo main_branch s = (Exc OtherException, logged s [] [EvGet url]).
Proof.
  intros s url.
  pose proof (foreign_exception_propagates World Demo.session_get Demo.GHES_URL
                Demo.ORG_NAME Demo.repr_container Demo.b64decode_utf8 url s
                OtherException [] eq_refl eq_refl) as H.
  refine (conj eq_refl (conj eq_refl (conj (proj1 H) _))).
  exact (proj2 (proj2 (proj2 H)) repo main_branch eq_refl).
Defined.

(** One page of branches, then a 404; and the same for the listing of
    the organisation. *)
Lemma not_found_ends_listing_witness :
  let s := state0 [Ok Demo.branch_page; Ok Demo.not_found] in
  let url1 :=
    "https://ghes.example/api/v3/repos/acme/repo/branches?per_page=100&page=1"%string in
  let url2 :=
    "https://ghes.example/api/v3/repos/acme/repo/branches?per_page=100&page=2"%string in
  let s' := logged s [Ok Demo.not_found] [EvGet url1; EvSleep 1] in
  let s'' := logged s [] [EvGet url1; EvSleep 1; EvGet url2] in
  let t := state0 [Ok Demo.repository_page; Ok Demo.not_found] in
  let org_url1 :=
    "https://ghes.example/api/v3/orgs/acme/repos?per_page=100&page=1"%string in
  let org_url2 :=
    "https://ghes.example/api/v3/orgs/acme/repos?per_page=100&page=2"%string in
  let t' := logged t [Ok Demo.not_found] [EvGet org_url1; EvSleep 1] in
  let t'' := logged t [] [EvGet org_url1; EvSleep 1; EvGet org_url2] in
  ok Demo.not_found = false /\
  (listed_branches repo 1 s [[main_branch; dev_branch]] 2 s' /\
   safe_request url2 s' = (Ret (Some Demo.not_found), s'') /\
   (1 < 2)%nat /\
   get_branches_from 2 repo 1 [] s = (Ret [main_branch; dev_branch], s'')) /\
  (listed_repos "acme" 1 [] t [[Demo.listed_repo]] 2 t' /\
   safe_request org_url2 t' = (Ret (Some Demo.not_found), t'') /\
   (1 < 2)%nat /\
   get_repositories_from 2 "acme" 1 [] t = (Ret [Demo.listed_repo], t'')).
Proof.
  intros s url1 url2 s' s'' t org_url1 org_url2 t' t''.
  pose proof (one_branch_page_listed [Ok Demo.not_found]) as Hpages.
  pose proof (one_repository_page_listed [Ok Demo.not_found]) as Hpages'.
  assert (Hcall : safe_request url2 s' = (Ret (Some Demo.not_found), s''))
    by reflexivity.
  assert (Hcall' : safe_request org_url2 t' = (Ret (Some Demo.not_found), t''))
    by reflexivity.
  assert (Hfuel : (1 < 2)%nat) by lia.
  refine (conj eq_refl (conj (conj Hpages (conj Hcall (conj Hfuel _)))
                             (conj Hpages' (conj Hcall' (conj Hfuel _))))).
  - exact (proj2 (not_found_ends_listing World Demo.session_get Demo.GHES_URL
                    Demo.ORG_NAME Demo.repr_container 1 s 2 s' Demo.not_found
                    s'' eq_refl)
             repo [] [[main_branch; dev_branch]] Hpages Hcall 2%nat Hfuel).
  - exact (proj1 (not_found_ends_listing World Demo.session_get Demo.GHES_URL
                    Demo.ORG_NAME Demo.repr_container 1 t 2 t' Demo.not_found
                    t'' eq_refl)
             "acme"%string [] [[Demo.listed_repo]] Hpages' Hcall' 2%nat Hfuel).
Defined.

(** One page of branches, then an empty page; and the same for the
    listing of the organisation. *)
Lemma offset_listing_exhausts_witness :
  let s := state0 [Ok Demo.branch_page; Ok Demo.empty_page] in
  let url1 :=
    "https://ghes.example/api/v3/repos/acme/repo/branches?per_page=100&page=1"%string in
  let url2 :=
    "https://ghes.example/api/v3/repos/acme/repo/branches?per_page=100&page=2"%string in
  let s' := logged s [Ok Demo.empty_page] [EvGet url1; EvSleep 1] in
  let s'' := logged s [] [EvGet url1; EvSleep 1; EvGet url2] in
  let t := state0 [Ok Demo.repository_page; Ok Demo.empty_page] in
  let org_url1 :=
    "https://ghes.example/api/v3/orgs/acme/repos?per_page=100&page=1"%string in
  let org_url2 :=
    "https://ghes.example/api/v3/orgs/acme/repos?per_page=100&page=2"%string in
  let t' := logged t [Ok Demo.empty_page] [EvGet org_url1; EvSleep 1] in
  let t'' := logged t [] [EvGet org_url1; EvSleep 1; EvGet org_url2] in
  ok Demo.empty_page = true /\
  json_body Demo.empty_page = Some (JArr []) /\
  truthy (JArr []) = false /\
  (listed_branches repo 1 s [[main_branch; dev_branch]] 2 s' /\
   safe_request url2 s' = (Ret (Some Demo.empty_page), s'') /\
   (1 < 2)%nat /\
   get_branches_from 2 repo 1 [] s = (Ret [main_branch; dev_branch], s'')) /\
  (listed_repos "acme" 1 [] t [[Demo.listed_repo]] 2 t' /\
   safe_request org_url2 t' = (Ret (Some Demo.empty_page), t'') /\
   (1 < 2)%nat /\
   get_repositories_from 2 "acme" 1 [] t = (Ret [Demo.listed_repo], t'')).
Proof.
  intros s url1 url2 s' s'' t org_url1 org_url2 t' t''.
  pose proof (one_branch_page_listed [Ok Demo.empty_page]) as Hpages.
  pose proof (one_repository_page_listed [Ok Demo.empty_page]) as Hpages'.
  assert (Hcall : safe_request url2 s' = (Ret (Some Demo.empty_page), s''))
    by reflexivity.
  assert (Hcall' : safe_request org_url2 t' = (Ret (Some Demo.empty_page), t''))
    by reflexivity.
  assert (Hfuel : (1 < 2)%nat) by lia.
  refine (conj eq_refl (conj eq_refl (conj eq_refl
           (conj (conj Hpages (conj Hcall (conj Hfuel _)))
                 (conj Hpages' (conj Hcall' (conj Hfuel _))))))).
  - exact (proj2 (offset_listing_exhausts World Demo.session_get Demo.GHES_URL
                    Demo.ORG_NAME Demo.repr_container 1 s 2 s' Demo.empty_page
                    s'' (JArr []) eq_refl eq_refl eq_refl)
             repo [] [[main_branch; dev_branch]] Hpages Hcall 2%nat Hfuel).
  - exact (proj1 (offset_listing_exhausts World Demo.session_get Demo.GHES_URL
                    Demo.ORG_NAME Demo.repr_container 1 t 2 t' Demo.empty_page
                    t'' (JArr []) eq_refl eq_refl eq_refl)
             "acme"%string [] [[Demo.listed_repo]] Hpages' Hcall' 2%nat Hfuel).
Defined.

(** A listing resumed with one name already in hand. *)
Lemma paginators_only_append_witness :
  let s := state0 [Ok Demo.branch_page; Ok Demo.empty_page] in
  let run := get_branches_from 5 repo 1 [JStr "old"] s in
  run = (Ret [JStr "old"; main_branch; dev_branch], snd run) /\
  exists more, [JStr "old"; main_branch; dev_branch] = [JStr "old"] ++ more.
Proof.
  intros s run.
  assert (H : run = (Ret [JStr "old"; main_branch; dev_branch], snd run))
    by reflexivity.
  exact (conj H (proj2 (paginators_only_append World Demo.session_get
                          Demo.GHES_URL Demo.ORG_NAME Demo.repr_container 5)
                   repo 1 [JStr "old"] s _ _ H)).
Defined.

(** One page of branches, then a 200 that is not JSON. *)
Lemma non_json_page_raises_witness :
  let s := state0 [Ok Demo.branch_page; Ok Demo.non_json] in
  let s' := snd (sleep World 1 (snd (safe_request (branches_url repo 1) s))) in
  let s'' := snd (safe_request (branches_url repo 2) s') in
  ok Demo.non_json = true /\
  json_body Demo.non_json = None /\
  pages_branches repo 1 [] s 2 [main_branch; dev_branch] s' /\
  safe_request (branches_url repo 2) s' = (Ret (Some Demo.non_json), s'') /\
  exists n, forall fuel, (n < fuel)%nat ->
    get_branches_from fuel repo 1 [] s = (Exc JSONDecodeError, s'').
Proof.
  intros s s' s''.
  pose proof (one_page_fetched [Ok Demo.non_json]) as Hpages.
  refine (conj eq_refl (conj eq_refl (conj Hpages (conj eq_refl _)))).
  exact (proj2 (non_json_page_raises World Demo.session_get Demo.GHES_URL
                  Demo.ORG_NAME Demo.repr_container 1 s 2 s' Demo.non_json s''
                  eq_refl eq_refl)
           repo [] [main_branch; dev_branch] Hpages eq_refl).
Defined.

(** A first page whose second entry has no [name]. *)
Lemma branch_without_name_raises_witness :
  let s := state0 [Ok Demo.nameless_page] in
  let s'' := snd (safe_request (branches_url repo 1) s) in
  let good := [JObj [("name", JStr "main")]]%string in
  let item := JObj [("sha", JStr "abc")]%string in
  pages_branches repo 1 [] s 1 [] s /\
  safe_request (branches_url repo 1) s = (Ret (Some Demo.nameless_page), s'') /\
  ok Demo.nameless_page = true /\
  json_body Demo.nameless_page = Some (JArr (good ++ item :: [])) /\
  names_of good = Ok [main_branch] /\
  getitem item "name" = Error (KeyError "name") /\
  exists n, forall fuel, (n < fuel)%nat ->
    get_branches_from fuel repo 1 [] s = (Exc (KeyError "name"), s'').
Proof.
  intros s s'' good item.
  assert (Hpages : pages_branches repo 1 [] s 1 [] s) by apply pages_branches_nil.
  refine (conj Hpages (conj eq_refl (conj eq_refl (conj eq_refl
           (conj eq_refl (conj eq_refl _)))))).
  exact (branch_without_name_raises World Demo.session_get Demo.GHES_URL
           Demo.ORG_NAME Demo.repr_container repo 1 [] s 1 [] s
           Demo.nameless_page s'' good item [] [main_branch] (KeyError "name")
           Hpages eq_refl eq_refl eq_refl eq_refl eq_refl).
Defined.

(** The attributes file of [dev]. *)
Lemma probe_true_iff_witness :
  let s := state0 [Ok Demo.lfs_attributes] in
  let s1 := snd (safe_request (contents_url repo dev_branch) s) in
  safe_request (contents_url repo dev_branch) s = (Ret (Some Demo.lfs_attributes), s1) /\
  Demo.b64decode_utf8 "Ki5wc2QgZmlsdGVyPWxmcyBkaWZmPWxmcyBtZXJnZT1sZnMgLXRleHQK"
    = Ok ("*.psd " ++ "filter=lfs" ++ " diff=lfs merge=lfs -text
")%string /\
  check_lfs_usage repo dev_branch s = (Ret true, s1).
Proof.
  intros s s1.
  assert (Hcall : safe_request (contents_url repo dev_branch) s
                  = (Ret (Some Demo.lfs_attributes), s1)) by reflexivity.
  assert (Hdec : Demo.b64decode_utf8
                   "Ki5wc2QgZmlsdGVyPWxmcyBkaWZmPWxmcyBtZXJnZT1sZnMgLXRleHQK"
                 = Ok ("*.psd " ++ "filter=lfs" ++ " diff=lfs merge=lfs -text
")%string) by reflexivity.
  refine (conj Hcall (conj Hdec _)).
  apply (proj1 (probe_true_iff World Demo.session_get Demo.GHES_URL Demo.ORG_NAME
                  Demo.repr_container Demo.b64decode_utf8 repo dev_branch s
                  Demo.lfs_attributes s1 Hcall)).
  split; [reflexivity |].
  eexists _, _, _, _. split; [reflexivity |]. split; [reflexivity | exact Hdec].
Defined.

(** The organisation's one repository, audited. *)
Lemma one_row_per_repository_witness :
  let s := state0 Demo.repo_script in
  let run := audit_all 5 1 [Demo.listed_repo] [] s in
  run = (Ret [(repo, "main, dev"%string, "Yes"%string)], snd run) /\
  exists rows,
    [(repo, "main, dev"%string, "Yes"%string)] = [] ++ rows /\
    Forall2 (fun repository (r : row) =>
               getitem repository "name" = Ok (fst (fst r)) /\
               (exists branches, py_join ", " branches = Ok (snd (fst r))) /\
               (snd r = "Yes"%string \/ snd r = "No"%string))
            [Demo.listed_repo] rows.
Proof.
  intros s run.
  assert (H : run = (Ret [(repo, "main, dev"%string, "Yes"%string)], snd run))
    by reflexivity.
  exact (conj H (one_row_per_repository World Demo.session_get Demo.GHES_URL
                   Demo.ORG_NAME Demo.repr_container Demo.b64decode_utf8
                   5 [Demo.listed_repo] 1 [] s _ _ H)).
Defined.

End LfsMore.

(* ================================================================== *)
(** * Further properties of fetch_repo_details.py                       *)
(* ================================================================== *)

Module FetchMore.
Import FetchRepoDetails.

(** ** The size in megabytes *)

Lemma round_half_even_nearest num den :
  0 < den ->
  2 * Z.abs (den * round_half_even num den - num) <= den /\
  (2 * Z.abs (den * round_half_even num den - num) = den ->
   Z.even (round_half_even num den) = true).
Proof.
  intros Hden. unfold round_half_even.
  pose proof (Z.div_mod num den ltac:(lia)) as Hdm.
  pose proof (Z.mod_pos_bound num den Hden) as Hr.
  set (q := num / den) in *. set (r := num mod den) in *.
  destruct (Z.ltb_spec (2 * r) den) as [H1 | H1].
  - split; [lia | intros H; lia].
  - destruct (Z.ltb_spec den (2 * r)) as [H2 | H2].
    + split; [lia | intros H; lia].
    + destruct (Z.even q) eqn:Eq.
      * split; [lia | intros _; exact Eq].
      * split; [lia |]. intros _.
        replace (q + 1) with (Z.succ q) by lia.
        rewrite Z.even_succ, <- Z.negb_even, Eq. reflexivity.
Qed.

(** X13. The size column is the disk usage divided by 1024, rounded to
    the nearest hundredth, an exact tie going to the even hundredth: for
    a node whose [diskUsage] is an integer [n] below 2^53 in absolute
    value (so that the quotient is the double of [n / 1024] itself), the
    field (in hundredths) is within half a hundredth of [100 * n / 1024]. *)
Theorem size_is_nearest_hundredth repo n :
  getitem repo "diskUsage" = Ok (JNum n) ->
  Z.abs n < 2 ^ 53 ->
  exists h,
    size_of repo = Ok h /\
    (forall r, normalize repo = Ok r -> repo_size_mb r = h) /\
    2 * Z.abs (1024 * h - 100 * n) <= 1024 /\
    (2 * Z.abs (1024 * h - 100 * n) = 1024 -> Z.even h = true).
Proof.
  intros Hdisk Hn. exists (round_mb n).
  assert (H53 : round_to_53_bits n = n).
  { unfold round_to_53_bits. cbv zeta.
    apply Z.ltb_lt in Hn. rewrite Hn. reflexivity. }
  assert (Hdiv : true_divide_1024 n = Ok n).
  { unfold true_divide_1024. cbv zeta. rewrite H53.
    assert (Hlt : Z.abs n < 2 ^ 1034).
    { apply Z.lt_trans with (2 ^ 53); [exact Hn |].
      apply Z.pow_lt_mono_r; lia. }
    apply Z.ltb_lt in Hlt. rewrite Hlt. reflexivity. }
  assert (Hsize : size_of repo = Ok (round_mb n)).
  { unfold size_of. rewrite Hdisk. unfold rbind at 1. cbv beta iota.
    change (truthy (JNum n)) with (negb (n =? 0)).
    destruct (Z.eqb_spec n 0) as [-> | Hn0].
    - reflexivity.
    - change (rbind (true_divide_1024 n) (fun m => Ok (round_mb m))
              = Ok (round_mb n)).
      rewrite Hdiv. reflexivity. }
  split; [exact Hsize |]. split.
  - intros r Hr. apply FetchFacts.normalize_inv in Hr.
    destruct Hr as (_ & _ & Hs & _). congruence.
  - unfold round_mb.
    destruct (round_half_even_nearest (n * 100) 1024 ltac:(lia)) as [Hb He].
    replace (100 * n) with (n * 100) by lia. auto.
Qed.

(** 1500 KB are 1.46 MB. *)
Lemma size_is_nearest_hundredth_witness :
  getitem Demo.node_full "diskUsage" = Ok (JNum 1500) /\
  Z.abs 1500 < 2 ^ 53 /\
  size_of Demo.node_full = Ok 146 /\
  exists h,
    size_of Demo.node_full = Ok h /\
    (forall r, normalize Demo.node_full = Ok r -> repo_size_mb r = h) /\
    2 * Z.abs (1024 * h - 100 * 1500) <= 1024 /\
    (2 * Z.abs (1024 * h - 100 * 1500) = 1024 -> Z.even h = true).
Proof.
  assert (Hn : Z.abs 1500 < 2 ^ 53) by reflexivity.
  exact (conj eq_refl (conj Hn (conj eq_refl
           (size_is_nearest_hundredth Demo.node_full 1500 eq_refl Hn)))).
Defined.

(** Beyond 53 bits the quotient is rounded to a double before [round]
    sees it: 2^60 + 100 KB come out as 2^50 MB exactly; and a quotient
    beyond the largest double is an [OverflowError]. *)
Lemma size_of_beyond_53_bits :
  size_of (JObj [("diskUsage", JNum (2 ^ 60 + 100))]%string) = Ok (2 ^ 50 * 100) /\
  size_of (JObj [("diskUsage", JNum (2 ^ 1034))]%string) = Error OverflowError.
Proof. split; vm_compute; reflexivity. Qed.

(** ** The endpoint *)

(** X18. The GraphQL endpoint is the public one whenever the configured
    URL contains ["github.com"] anywhere, also inside a longer host name
    such as [github.company.com]; only a URL without that substring gets
    its own [/api/graphql]. *)
Theorem endpoint_choice :
  (forall pre post,
      API_URL (pre ++ "github.com" ++ post) = public_endpoint) /\
  (forall url,
      is_substring "github.com" url = false ->
      API_URL url = (url ++ "/api/graphql")%string) /\
  API_URL "https://github.company.com" = public_endpoint.
Proof.
  assert (H : forall pre post,
             API_URL (pre ++ "github.com" ++ post) = public_endpoint).
  { intros pre post. unfold API_URL.
    assert (Hin : is_substring "github.com" (pre ++ "github.com" ++ post) = true)
      by (apply LfsMore.is_substring_iff; eauto).
    rewrite Hin. reflexivity. }
  split; [exact H |]. split.
  - intros url Hout. unfold API_URL. rewrite Hout. reflexivity.
  - exact (H "https://"%string "pany.com"%string).
Qed.

Lemma endpoint_choice_witness :
  is_substring "github.com" "https://ghes.example" = false /\
  API_URL "https://ghes.example" = "https://ghes.example/api/graphql"%string.
Proof.
  exact (conj eq_refl
           (proj1 (proj2 endpoint_choice) "https://ghes.example"%string eq_refl)).
Defined.

(** ** The script *)

Section Facts.

Variable World : Type.
Variable requests_post : json -> World -> result response * World.
Variable time_time : World -> Q * World.
Variable ORG_NAME : string.
Variable int_of_str : string -> result Z.

Local Abbreviation state := (FetchRepoDetails.state World).
Local Abbreviation post := (post World requests_post).
Local Abbreviation now := (now World time_time).
Local Abbreviation sleep := (sleep World).
Local Abbreviation normalize_all := (normalize_all World).
Local Abbreviation rate_limit := (rate_limit World time_time int_of_str).
Local Abbreviation process_page := (process_page World time_time int_of_str).
Local Abbreviation on_response := (on_response World time_time int_of_str).
Local Abbreviation iteration := (iteration World requests_post time_time int_of_str).
Local Abbreviation while_has_next_page :=
  (while_has_next_page World requests_post time_time int_of_str).
Local Abbreviation fetch_data :=
  (fetch_data World requests_post time_time int_of_str).
Local Abbreviation main :=
  (main World requests_post time_time ORG_NAME int_of_str).
Local Abbreviation called := (called World).
Local Abbreviation turned := (turned World).
Local Abbreviation started := (started World).
Local Abbreviation moved := (moved World).
Local Abbreviation slept := (slept World).
Local Abbreviation grows := (grows World).
Local Abbreviation broken_off := (broken_off World).
Local Abbreviation remaining_of := (remaining_of int_of_str).
Local Abbreviation reset_of := (reset_of int_of_str).

(** *** A node that does not normalise *)

Lemma normalize_all_partial good bad rest rows e (s : state) :
  normalize_list good = Ok rows ->
  normalize bad = Error e ->
  normalize_all (good ++ bad :: rest) s =
    (Exc e,
     mkState (world s) (trace s) (has_next_page s) (cursor s) (repo_data s ++ rows)).
Proof.
  revert rows s. induction good as [| g good IH]; intros rows s Hgood Hbad.
  - simpl in Hgood. inversion Hgood. simpl. rewrite Hbad. simpl.
    rewrite app_nil_r. destruct s; reflexivity.
  - simpl in Hgood. FetchFacts.invert_rbind Hgood. inversion Hgood; subst.
    simpl. rewrite E. unfold bind, lift, ret, append, modify; simpl.
    rewrite (IH _ _ E0 Hbad). simpl. rewrite <- app_assoc. reflexivity.
Qed.

(** X14. A page in which some node does not normalise ends the run at
    that node: the rows of the nodes before it stay in [repo_data] and
    are returned, the nodes after it are not read, the page's
    [hasNextPage] and [endCursor] are not taken, and no further call is
    made. *)
Theorem bad_node_keeps_earlier_rows fuel (s : state) r w json_data repositories
      nodes page_info good bad rest rows e :
  truthy (has_next_page s) = true ->
  requests_post (cursor s) (world s) = (Ok r, w) ->
  status_code r = 200 ->
  json_body r = Some json_data ->
  py_in "errors" json_data = Ok false ->
  repositories_of json_data = Ok repositories ->
  getitem repositories "nodes" = Ok nodes ->
  getitem repositories "pageInfo" = Ok page_info ->
  py_iter nodes = Ok (good ++ bad :: rest) ->
  normalize_list good = Ok rows ->
  normalize bad = Error e ->
  iteration s = (Ret true, broken_off s w rows) /\
  while_has_next_page (S fuel) s = (Ret tt, broken_off s w rows).
Proof.
  intros Hnext Hpost H200 Hbody Herr Hrepos Hnodes Hinfo Hiter Hgood Hbad.
  assert (Hpage : forall s1 : state,
             process_page r s1 =
               (Exc e, mkState (world s1) (trace s1) (has_next_page s1) (cursor s1)
                         (repo_data s1 ++ rows))).
  { intros s1.
    unfold FetchRepoDetails.process_page, response_json. rewrite Hbody.
    unfold bind at 1, ret at 1. rewrite Herr.
    unfold bind at 1, lift at 1, ret at 1.
    rewrite Hrepos. unfold bind at 1, lift at 1, ret at 1.
    rewrite Hnodes. unfold bind at 1, lift at 1, ret at 1.
    rewrite Hinfo. unfold bind at 1, lift at 1, ret at 1.
    rewrite Hiter. unfold bind at 1, lift at 1, ret at 1.
    unfold bind at 1. rewrite (normalize_all_partial _ _ _ _ _ _ Hgood Hbad).
    reflexivity. }
  assert (Hpass : iteration s = (Ret true, broken_off s w rows)).
  { unfold FetchRepoDetails.iteration, try_except.
    unfold bind at 1, gets at 1. unfold bind at 1.
    rewrite (FetchFacts.post_run _ _ _ _ _ _ Hpost).
    unfold FetchRepoDetails.on_response. rewrite H200. simpl Z.eqb. cbv iota.
    rewrite Hpage. reflexivity. }
  split; [exact Hpass |].
  rewrite FetchFacts.while_has_next_page_S, Hnext, Hpass. reflexivity.
Qed.

(** *** Two pages *)

(** X15. A listing of two pages is fetched whole and in order: when the
    first call (with a null cursor) brings a page that says there is
    more, and the second call, made with that page's [endCursor], brings
    a page that says there is no more, and no rate-limit pause fails,
    [fetch_data] returns the rows of the first page followed by the rows
    of the second, after exactly these two calls, and the main block
    writes them if there is any. *)
Theorem two_page_listing fuel (s0 : state) r1 w1 rows1 hnp1 c1 s1
      r2 w2 rows2 hnp2 c2 s2 :
  requests_post JNull (world s0) = (Ok r1, w1) ->
  is_page r1 rows1 hnp1 c1 ->
  truthy hnp1 = true ->
  rate_limit r1 (turned (started s0) w1 rows1 hnp1 c1) = (Ret tt, s1) ->
  requests_post c1 (world s1) = (Ok r2, w2) ->
  is_page r2 rows2 hnp2 c2 ->
  truthy hnp2 = false ->
  rate_limit r2 (turned s1 w2 rows2 hnp2 c2) = (Ret tt, s2) ->
  fetch_data (S (S fuel)) s0 = (Ret (rows1 ++ rows2), s2) /\
  (exists pauses1 pauses2,
      trace s2 = trace s0 ++ EvPost JNull :: pauses1 ++ EvPost c1 :: pauses2 /\
      Forall (fun e => is_sleep e = true) (pauses1 ++ pauses2)) /\
  main (S (S fuel)) s0 =
    (Ret tt,
     match rows1 ++ rows2 with
     | [] => s2
     | _ :: _ => written World ORG_NAME s2 (rows1 ++ rows2)
     end).
Proof.
  intros Hpost1 Hpage1 Hhnp1 Hrate1 Hpost2 Hpage2 Hhnp2 Hrate2.
  destruct (FetchFacts.rate_limit_locals _ _ _ _ _ _ _ Hrate1)
    as (Hh1 & Hc1 & Hd1 & _ & Ht1).
  destruct (FetchFacts.rate_limit_locals _ _ _ _ _ _ _ Hrate2)
    as (Hh2 & Hc2 & Hd2 & _ & Ht2).
  simpl in Hh1, Hc1, Hd1, Ht1, Hh2, Hc2, Hd2, Ht2.
  assert (Hpost2' : requests_post (cursor s1) (world s1) = (Ok r2, w2))
    by (rewrite Hc1; exact Hpost2).
  assert (Hloop : while_has_next_page (S (S fuel)) (started s0) = (Ret tt, s2)).
  { rewrite FetchFacts.while_has_next_page_S. simpl truthy. cbv iota.
    rewrite (FetchFacts.iteration_page _ _ _ _ (started s0) r1 w1 rows1 hnp1 c1
               Hpost1 Hpage1), Hrate1.
    rewrite FetchFacts.while_has_next_page_S, Hh1, Hhnp1.
    rewrite (FetchFacts.iteration_page _ _ _ _ s1 r2 w2 rows2 hnp2 c2
               Hpost2' Hpage2), Hrate2.
    apply FetchFacts.while_has_next_page_done. rewrite Hh2. exact Hhnp2. }
  assert (Hrows : repo_data s2 = rows1 ++ rows2).
  { rewrite Hd2, Hd1. reflexivity. }
  assert (Hfetch : fetch_data (S (S fuel)) s0 = (Ret (rows1 ++ rows2), s2)).
  { rewrite FetchFacts.fetch_data_run, Hloop, Hrows. reflexivity. }
  split; [exact Hfetch |]. split.
  - rewrite Hc1 in Ht2.
    destruct Ht1 as [Ht1 | [q1 Ht1]]; destruct Ht2 as [Ht2 | [q2 Ht2]];
      rewrite Ht2, Ht1; simpl; rewrite <- ?app_assoc; simpl.
    + exists [], []. split; [reflexivity | constructor].
    + exists [], [EvSleep q2]. split; [reflexivity | repeat constructor].
    + exists [EvSleep q1], []. split; [reflexivity | repeat constructor].
    + exists [EvSleep q1], [EvSleep q2]. split; [reflexivity | repeat constructor].
  - rewrite FetchFacts.main_run, Hfetch.
    destruct (rows1 ++ rows2); reflexivity.
Qed.

(** *** What a pass of the loop can change *)

Local Abbreviation keeps c := (forall s : state, grows s (snd (c s))).

Lemma grows_same (s s' : state) :
  repo_data s' = repo_data s -> trace s' = trace s -> grows s s'.
Proof.
  intros Hd Ht. exists [], []. rewrite Hd, Ht, !app_nil_r. auto.
Qed.

Lemma grows_trans (s1 s2 s3 : state) : grows s1 s2 -> grows s2 s3 -> grows s1 s3.
Proof.
  intros (m1 & e1 & Hd1 & Ht1 & Ha1) (m2 & e2 & Hd2 & Ht2 & Ha2).
  exists (m1 ++ m2), (e1 ++ e2).
  rewrite Hd2, Hd1, Ht2, Ht1, !app_assoc.
  repeat split. apply Forall_app; auto.
Qed.

Lemma keeps_bind {A B} (c : M state A) (k : A -> M state B) :
  keeps c -> (forall a, keeps (k a)) -> keeps (bind c k).
Proof.
  intros Hc Hk s. unfold bind. specialize (Hc s).
  destruct (c s) as [[a | e |] s1]; simpl in *; auto.
  eapply grows_trans; [exact Hc | apply Hk].
Qed.

Lemma keeps_lift {A} (r : result A) : keeps (@lift state A r).
Proof. intros s. destruct r; apply grows_same; reflexivity. Qed.

Lemma keeps_ret {A} (a : A) : keeps (@ret state A a).
Proof. intros s. apply grows_same; reflexivity. Qed.

Lemma keeps_normalize_all items : keeps (normalize_all items).
Proof.
  induction items as [| repo rest IH].
  - apply (keeps_ret tt).
  - change (normalize_all (repo :: rest))
      with (bind (lift (normalize repo))
              (fun r => bind (append World r) (fun _ => normalize_all rest))).
    apply keeps_bind; [apply keeps_lift |]. intros r.
    apply keeps_bind; [| intros _; exact IH].
    intros s. exists [r], []. simpl. rewrite app_nil_r. auto.
Qed.

Lemma keeps_rate_limit r : keeps (rate_limit r).
Proof.
  intros s. destruct (rate_limit r s) as [o s'] eqn:E.
  destruct (FetchFacts.rate_limit_locals _ _ _ _ _ _ _ E) as (_ & _ & Hd & _ & Ht).
  simpl. destruct Ht as [Ht | [q Ht]].
  - apply grows_same; assumption.
  - exists [], [EvSleep q]. rewrite Hd, Ht, app_nil_r. repeat constructor.
Qed.

Lemma keeps_on_response r : keeps (on_response r).
Proof.
  unfold FetchRepoDetails.on_response.
  destruct (status_code r =? 200); [| apply keeps_ret].
  unfold FetchRepoDetails.process_page.
  apply keeps_bind.
  { unfold response_json. intros s.
    destruct (json_body r); apply grows_same; reflexivity. }
  intros json_data. apply keeps_bind; [apply keeps_lift |].
  intros [|]; [apply keeps_ret |].
  apply keeps_bind; [apply keeps_lift |]. intros repositories.
  apply keeps_bind; [apply keeps_lift |]. intros repos.
  apply keeps_bind; [apply keeps_lift |]. intros page_info.
  apply keeps_bind; [apply keeps_lift |]. intros items.
  apply keeps_bind; [apply keeps_normalize_all |]. intros _.
  apply keeps_bind; [apply keeps_lift |]. intros hnp.
  apply keeps_bind; [intros s; apply grows_same; reflexivity |]. intros _.
  apply keeps_bind; [apply keeps_lift |]. intros c.
  apply keeps_bind; [intros s; apply grows_same; reflexivity |]. intros _.
  apply keeps_bind; [apply keeps_rate_limit |]. intros _.
  apply keeps_ret.
Qed.

Lemma pass_makes_one_call (s : state) :
  exists stop s' more pauses,
    iteration s = (Ret stop, s') /\
    repo_data s' = repo_data s ++ more /\
    trace s' = trace s ++ EvPost (cursor s) :: pauses /\
    Forall (fun e => is_sleep e = true) pauses.
Proof.
  destruct (requests_post (cursor s) (world s)) as [reply w] eqn:Hpost.
  unfold FetchRepoDetails.iteration, try_except.
  unfold bind at 1, gets at 1. unfold bind at 1.
  rewrite (FetchFacts.post_run _ _ _ _ _ _ Hpost).
  destruct reply as [r | e].
  - match goal with
    | |- context [on_response r ?sp] =>
        destruct (keeps_on_response r sp) as (more & pauses & Hd & Ht & Hall);
        destruct (on_response r sp) as [[stop | e |] s2] eqn:E
    end; simpl in Hd, Ht; rewrite <- app_assoc in Ht.
    + exists stop, s2, more, pauses. repeat split; assumption.
    + exists true, s2, more, pauses. repeat split; assumption.
    + exfalso.
      assert (Hfree : fuel_free (on_response r)).
      { unfold FetchRepoDetails.on_response.
        destruct (status_code r =? 200);
          [apply (FetchFacts.fuel_free_process_page World time_time EmptyString)
          | apply FetchFacts.fuel_free_ret]. }
      match type of E with ?c ?sp = _ => specialize (Hfree sp) end.
      rewrite E in Hfree. apply Hfree. reflexivity.
  - eexists true, _, [], []. simpl. rewrite app_nil_r.
    repeat split. constructor.
Qed.

(** X16. Whatever the remote answers, a pass of the loop makes exactly
    one call, with the current cursor, and after it at most sleeps; it
    ends normally; and it only appends to the rows collected. So the
    loop as a whole never drops or reorders a row, and records nothing
    but calls and sleeps: [fetch_data] writes no file. *)
Theorem rows_only_appended :
  (forall s : state,
      exists stop s' more pauses,
        iteration s = (Ret stop, s') /\
        repo_data s' = repo_data s ++ more /\
        trace s' = trace s ++ EvPost (cursor s) :: pauses /\
        Forall (fun e => is_sleep e = true) pauses) /\
  (forall fuel (s : state),
      exists more evs,
        repo_data (snd (while_has_next_page fuel s)) = repo_data s ++ more /\
        trace (snd (while_has_next_page fuel s)) = trace s ++ evs /\
        Forall (fun e => is_sleep e = true \/ exists c, e = EvPost c) evs).
Proof.
  split; [exact pass_makes_one_call |].
  induction fuel as [| fuel IH]; intros s.
  - exists [], []. simpl. unfold bind, gets.
    destruct (truthy (has_next_page s)); simpl; rewrite !app_nil_r; auto.
  - rewrite FetchFacts.while_has_next_page_S.
    destruct (truthy (has_next_page s)).
    2: { exists [], []. simpl. rewrite !app_nil_r. auto. }
    destruct (pass_makes_one_call s)
      as (stop & s1 & more & pauses & Ho & Hd & Ht & Hall).
    assert (Hevs : Forall (fun e => is_sleep e = true \/ exists c, e = EvPost c)
                     (EvPost (cursor s) :: pauses)).
    { constructor; [right; eauto |].
      eapply Forall_impl; [| exact Hall]. auto. }
    rewrite Ho. destruct stop.
    + exists more, (EvPost (cursor s) :: pauses). simpl. auto.
    + destruct (IH s1) as (more' & evs' & Hd' & Ht' & Hall').
      exists (more ++ more'), ((EvPost (cursor s) :: pauses) ++ evs').
      rewrite Hd', Hd, Ht', Ht, !app_assoc.
      repeat split. apply Forall_app; auto.
Qed.

(** *** The rate-limit block *)



(** X19. A rate-limit header that [int] cannot read ends the listing
    after the page that carried it: the [ValueError] is caught by the
    loop's handler, which breaks; the page's rows are kept, its
    [hasNextPage] is ignored, and no further call is made. This holds for
    [X-RateLimit-Remaining] and, when fewer than ten requests are left,
    for [X-RateLimit-Reset]. *)
Theorem unreadable_header_ends_listing fuel (s : state) r w rows hnp c e :
  truthy (has_next_page s) = true ->
  requests_post (cursor s) (world s) = (Ok r, w) ->
  is_page r rows hnp c ->
  (remaining_of r = Error e ->
   while_has_next_page (S fuel) s = (Ret tt, turned s w rows hnp c)) /\
  (forall remaining t w1,
      remaining_of r = Ok remaining -> remaining < 10 ->
      time_time w = (t, w1) ->
      reset_of r t = Error e ->
      while_has_next_page (S fuel) s = (Ret tt, moved (turned s w rows hnp c) w1)).
Proof.
  intros Hnext Hpost Hpage. split.
  - intros Hrem.
    apply (FetchFacts.rate_limit_fault_breaks _ _ _ _ fuel s r w rows hnp c e);
      try assumption.
    rewrite FetchFacts.rate_limit_run, Hrem. reflexivity.
  - intros remaining t w1 Hrem Hlow Ht Hreset.
    apply (FetchFacts.rate_limit_fault_breaks _ _ _ _ fuel s r w rows hnp c e);
      try assumption.
    rewrite FetchFacts.rate_limit_run, Hrem.
    apply Z.ltb_lt in Hlow. rewrite Hlow. simpl world.
    rewrite Ht, Hreset. reflexivity.
Qed.

End Facts.

(** ** Concrete runs against the scripted remote *)

Local Abbreviation iteration :=
  (iteration Demo.fetch_world Demo.requests_post Demo.time_time Demo.int_of_str).
Local Abbreviation while_has_next_page :=
  (while_has_next_page Demo.fetch_world Demo.requests_post Demo.time_time
     Demo.int_of_str).
Local Abbreviation fetch_data :=
  (fetch_data Demo.fetch_world Demo.requests_post Demo.time_time Demo.int_of_str).
Local Abbreviation rate_limit :=
  (rate_limit Demo.fetch_world Demo.time_time Demo.int_of_str).
Local Abbreviation started := (started Demo.fetch_world).
Local Abbreviation turned := (turned Demo.fetch_world).
Local Abbreviation broken_off := (broken_off Demo.fetch_world).
Local Abbreviation slept := (slept Demo.fetch_world).

(** [alpha], then a node without [branches], then [beta]. *)
Lemma bad_node_keeps_earlier_rows_witness :
  let s := started (Demo.fetch_state [Ok Demo.mixed_page] 0) in
  truthy (has_next_page s) = true /\
  Demo.requests_post (cursor s) (world s) = (Ok Demo.mixed_page, ([], 0%Q)) /\
  normalize_list [Demo.node_full] = Ok [Demo.row_alpha] /\
  normalize Demo.node_without_branches = Error TypeError /\
  iteration s = (Ret true, broken_off s ([], 0%Q) [Demo.row_alpha]) /\
  while_has_next_page 1 s = (Ret tt, broken_off s ([], 0%Q) [Demo.row_alpha]).
Proof.
  intros s.
  refine (conj eq_refl (conj eq_refl (conj eq_refl (conj eq_refl _)))).
  exact (bad_node_keeps_earlier_rows Demo.fetch_world Demo.requests_post
           Demo.time_time Demo.int_of_str 0 s Demo.mixed_page ([], 0%Q)
           _ _ _ _ [Demo.node_full] Demo.node_without_branches [Demo.node_empty]
           [Demo.row_alpha] TypeError
           eq_refl eq_refl eq_refl eq_refl eq_refl eq_refl eq_refl eq_refl
           eq_refl eq_refl eq_refl).
Defined.

(** [alpha] on the first page, [beta] on the second, the clock at 900. *)
Lemma two_page_listing_witness :
  let s0 := Demo.fetch_state Demo.two_pages 900 in
  let r1 := Demo.page Demo.throttled [Demo.node_full] true (JStr "c1") in
  let r2 := Demo.page Demo.relaxed [Demo.node_empty] false JNull in
  let w1 : Demo.fetch_world := ([Ok r2], 900%Q) in
  let w2 : Demo.fetch_world := ([], 900%Q) in
  let s1 := snd (rate_limit r1 (turned (started s0) w1 [Demo.row_alpha]
                                  (JBool true) (JStr "c1"))) in
  let s2 := snd (rate_limit r2 (turned s1 w2 [Demo.row_beta] (JBool false) JNull)) in
  is_page r1 [Demo.row_alpha] (JBool true) (JStr "c1") /\
  is_page r2 [Demo.row_beta] (JBool false) JNull /\
  fetch_data 2 s0 = (Ret ([Demo.row_alpha] ++ [Demo.row_beta]), s2).
Proof.
  intros s0 r1 r2 w1 w2 s1 s2.
  assert (Hp1 : is_page r1 [Demo.row_alpha] (JBool true) (JStr "c1"))
    by (econstructor; reflexivity).
  assert (Hp2 : is_page r2 [Demo.row_beta] (JBool false) JNull)
    by (econstructor; reflexivity).
  refine (conj Hp1 (conj Hp2 _)).
  exact (proj1 (two_page_listing Demo.fetch_world Demo.requests_post
                  Demo.time_time Demo.ORG_NAME Demo.int_of_str 0 s0
                  r1 w1 [Demo.row_alpha] (JBool true) (JStr "c1") s1
                  r2 w2 [Demo.row_beta] (JBool false) JNull s2
                  eq_refl Hp1 eq_refl eq_refl eq_refl Hp2 eq_refl eq_refl)).
Defined.


(** A page whose [X-RateLimit-Remaining] reads ["many"]. *)
Lemma unreadable_header_ends_listing_witness :
  let s := started (Demo.fetch_state [Ok Demo.garbled_page] 0) in
  truthy (has_next_page s) = true /\
  Demo.requests_post (cursor s) (world s) = (Ok Demo.garbled_page, ([], 0%Q)) /\
  is_page Demo.garbled_page [Demo.row_alpha] (JBool true) (JStr "c1") /\
  remaining_of Demo.int_of_str Demo.garbled_page = Error ValueError /\
  while_has_next_page 1 s =
    (Ret tt, turned s ([], 0%Q) [Demo.row_alpha] (JBool true) (JStr "c1")).
Proof.
  intros s.
  assert (Hp : is_page Demo.garbled_page [Demo.row_alpha] (JBool true) (JStr "c1"))
    by (econstructor; reflexivity).
  refine (conj eq_refl (conj eq_refl (conj Hp (conj eq_refl _)))).
  exact (proj1 (unreadable_header_ends_listing Demo.fetch_world Demo.requests_post
                  Demo.time_time Demo.int_of_str 0 s Demo.garbled_page ([], 0%Q)
                  [Demo.row_alpha] (JBool true) (JStr "c1") ValueError
                  eq_refl eq_refl Hp) eq_refl).
Defined.

End FetchMore.
